(** * hello-nordvpn: a shallow embedding of the connection controller

    The development follows the layout of the Python package:

    - [Str]            the [str] methods the code relies on;
    - [Effects]        the outside world (catalog, GUI bridge, file system,
                       clock) as oracles, and the state-and-exception monad
                       in which the effectful functions are written;
    - [Client]         [nordvpn/api/client.py] with [nordvpn/api/models.py];
    - [Tunnelblick]    [nordvpn/vpn/tunnelblick.py];
    - [ConfigManager]  [nordvpn/vpn/config_manager.py];
    - [Status]         [nordvpn/vpn/status.py];
    - [Cli]            the [connect] command of [nordvpn/cli.py].

    Definitions come first, the theorems about them follow. *)

From Stdlib Require Import ZArith String Ascii List Lia PrimFloat.
From stdpp Require Import base option gmap strings list.

Local Open Scope Z_scope.

(* ===================================================================== *)
(** * Strings *)
(* ===================================================================== *)

(** Python [str] values are modelled as [string] (the bytes of their UTF-8
    form).  The case mappings and the whitespace class defined here are
    those of the ASCII range, and [lower], [upper] and [strip] are Python's
    on ASCII strings only: the program applies them through
    [Effects.str_lower], [Effects.str_upper] and [Effects.str_strip], which
    take Python's answer for any other string from the environment. *)
Module Str.

Definition newline : string := String (ascii_of_nat 10) EmptyString.
Definition nul : string := String (ascii_of_nat 0) EmptyString.
Definition dquote : string := String (ascii_of_nat 34) EmptyString.
Definition quoted (s : string) : string := dquote +:+ s +:+ dquote.

Definition in_range (lo hi : nat) (c : ascii) : bool :=
  let n := nat_of_ascii c in (lo <=? n)%nat && (n <=? hi)%nat.

Definition is_upper (c : ascii) : bool := in_range 65 90 c.
Definition is_lower (c : ascii) : bool := in_range 97 122 c.
Definition is_alpha (c : ascii) : bool := is_upper c || is_lower c.
Definition is_digit (c : ascii) : bool := in_range 48 57 c.

(** [str.isspace] on the ASCII range: TAB..CR, FS..US and the blank. *)
Definition is_space (c : ascii) : bool :=
  in_range 9 13 c || in_range 28 32 c.

Definition lower_char (c : ascii) : ascii :=
  if is_upper c then ascii_of_nat (nat_of_ascii c + 32) else c.
Definition upper_char (c : ascii) : ascii :=
  if is_lower c then ascii_of_nat (nat_of_ascii c - 32) else c.

Fixpoint map_chars (f : ascii -> ascii) (s : string) : string :=
  match s with
  | EmptyString => EmptyString
  | String c s' => String (f c) (map_chars f s')
  end.

(** [s.lower()] and [s.upper()] *)
Definition lower : string -> string := map_chars lower_char.
Definition upper : string -> string := map_chars upper_char.

(** [s.startswith(p)] *)
Fixpoint startswith (s p : string) : bool :=
  match p, s with
  | EmptyString, _ => true
  | String _ _, EmptyString => false
  | String a p', String b s' => if ascii_dec a b then startswith s' p' else false
  end.

(** [s.endswith(p)] *)
Definition endswith (s p : string) : bool :=
  startswith (String.rev s) (String.rev p).

(** [needle in hay] *)
Fixpoint contains (hay needle : string) : bool :=
  startswith hay needle ||
  match hay with
  | EmptyString => false
  | String _ hay' => contains hay' needle
  end.

Fixpoint lstrip (s : string) : string :=
  match s with
  | EmptyString => EmptyString
  | String c s' => if is_space c then lstrip s' else s
  end.

(** [s.strip()] *)
Definition strip (s : string) : string :=
  String.rev (lstrip (String.rev (lstrip s))).

(** [s.split(sep)] for a one-character separator: never empty, an empty
    input gives one empty field. *)
Fixpoint split (sep : ascii) (s : string) : list string :=
  match s with
  | EmptyString => [EmptyString]
  | String c s' =>
      if ascii_dec c sep then EmptyString :: split sep s'
      else match split sep s' with
           | f :: fs => String c f :: fs
           | [] => [String c EmptyString]
           end
  end.

(** [s.rfind(c)]: the index of the last occurrence of [c] in [s], [None]
    where Python returns -1. *)
Fixpoint rfind (c : ascii) (s : string) : option nat :=
  match s with
  | EmptyString => None
  | String a s' =>
      match rfind c s' with
      | Some i => Some (S i)
      | None => if ascii_dec a c then Some O else None
      end
  end.

(** [s.isascii()] *)
Fixpoint is_ascii (s : string) : bool :=
  match s with
  | EmptyString => true
  | String c s' => (nat_of_ascii c <? 128)%nat && is_ascii s'
  end.

(** Python truthiness of a [str] and of a [str | None]. *)
Definition truthy (s : string) : bool :=
  match s with EmptyString => false | String _ _ => true end.
Definition truthy_opt (s : option string) : bool :=
  match s with Some s => truthy s | None => false end.

End Str.


(* ===================================================================== *)
(** * Catalog records ([nordvpn/api/models.py]) *)
(* ===================================================================== *)

(** Each pydantic model is a record in a module of its name, so that the
    fields keep their names ([Country.code], [Server.load], ...). *)

Module Technology.
Record t := mk { id : Z; name : string; identifier : string }.
End Technology.

Module City.
Record t := mk {
  id : Z;
  name : string;
  latitude : float;
  longitude : float;
  dns_name : option string;
  hub_score : option Z
}.
End City.

Module Country.
Record t := mk {
  id : Z;
  name : string;
  code : string;
  city : option City.t   (* the city is nested inside the country *)
}.
End Country.

Module ServerLocation.
Record t := mk {
  id : Z;
  country : Country.t;
  latitude : float;
  longitude : float
}.
End ServerLocation.

Module ServerIP.
Record t := mk { id : Z; ip : string; version : Z }.
End ServerIP.

Module Server.
Record t := mk {
  id : Z;
  name : string;
  station : string;
  hostname : string;
  load : Z;
  status : string;
  locations : list ServerLocation.t;
  technologies : list Technology.t;
  ips : list ServerIP.t
}.

Definition country (self : t) : option Country.t :=
  match locations self with
  | l :: _ => Some (ServerLocation.country l)
  | [] => None
  end.

Definition city (self : t) : option City.t :=
  match locations self with
  | l :: _ => Country.city (ServerLocation.country l)
  | [] => None
  end.

Definition city_name (self : t) : string :=
  match city self with
  | Some c => City.name c
  | None => EmptyString
  end.
End Server.

Module RecommendedServer.
Record t := mk {
  id : Z;
  name : string;
  station : string;
  hostname : string;
  load : Z;
  status : string;
  locations : list ServerLocation.t;
  technologies : list Technology.t
}.

Definition country (self : t) : option Country.t :=
  match locations self with
  | l :: _ => Some (ServerLocation.country l)
  | [] => None
  end.

Definition city (self : t) : option City.t :=
  match locations self with
  | l :: _ => Country.city (ServerLocation.country l)
  | [] => None
  end.
End RecommendedServer.

(* ===================================================================== *)
(** * The outside world and the effect monad *)
(* ===================================================================== *)

Module Effects.

(** Python exceptions, by the class that [except] clauses look at.  All of
    them derive from [Exception]. *)
Inductive exn :=
| TunnelblickError (msg : string)
| HTTPError (msg : string)      (* httpx transport, status and decoding errors *)
| OSError (msg : string)        (* FileNotFoundError, PermissionError, ... *)
| ValueError (msg : string)
| UnicodeDecodeError (msg : string)
| AttributeError (msg : string).

Inductive result (A : Type) :=
| Ok (a : A)
| Raise (e : exn).
Arguments Ok {A} a.
Arguments Raise {A} e.

(** ** File system *)

(** A [pathlib.Path] is the list of its components, outermost first. *)
Definition path := list string.

Inductive node :=
| File (content : string) (mode : Z)
| Dir.

Inductive fs_op :=
| MakeDirs (p : path)                       (* p.mkdir(parents=True, exist_ok=True) *)
| Rmtree (p : path)                         (* shutil.rmtree(p) *)
| Mkdir (p : path)                          (* p.mkdir() *)
| Copy2 (src dst : path)                    (* shutil.copy2(src, dst) *)
| WriteBytes (p : path) (content : string)  (* p.write_bytes(content) *)
| WriteText (p : path) (content : string)   (* p.write_text(content) *)
| Chmod (p : path) (mode : Z)               (* os.chmod(p, mode) *)
| Touch (p : path).                         (* p.touch() *)

(** The path an operation writes to (for [copy2], the destination). *)
Definition written_path (op : fs_op) : path :=
  match op with
  | MakeDirs p | Rmtree p | Mkdir p | WriteBytes p _ | WriteText p _
  | Chmod p _ | Touch p => p
  | Copy2 _ dst => dst
  end.

(** ** Requests and replies *)

Inductive param := PInt (n : Z) | PStr (s : string).

(** What [subprocess.run] gives for [osascript]. *)
Inductive proc_outcome :=
| Completed (returncode : Z) (stdout stderr : string)
| TimeoutExpired
| FileNotFoundError
  (* any other exception of [subprocess.run]: a [ValueError] (a NUL in the
     script), a [PermissionError] or another [OSError], a
     [UnicodeDecodeError] *)
| Crashed (e : exn).

(** A JSON value, as far as the code looks at it: an object with its
    fields, or a value of another kind (list, string, number, boolean,
    null) with its truth value.  Of an object the code reads the fields
    [city] and [country] only, which the service gives as strings; a field
    that is [null] reads as an absent one. *)
Inductive json :=
| JsonObject (fields : gmap string string)
| JsonOther (truthy : bool).

(** What [client.get] gives for the two probes of the status module. *)
Inductive reply (B : Type) :=
| TransportError
| Response (status_code : Z) (body : B).
Arguments TransportError {B}.
Arguments Response {B} status_code body.

(** Every interaction with the outside is recorded, in program order. *)
Inductive Event :=
| EvGet (url : string) (params : list (string * param))
| EvOsascript (script : string)
| EvOpen (p : path)
| EvFs (op : fs_op)
| EvSleep (seconds : Z).

(** The behaviour of the outside world.  Every oracle takes the number of
    interactions made so far, so the catalog, the GUI and the network may
    answer differently at every call. *)
Record Env := {
  (* GET /v1/servers/countries, parsed *)
  countries_endpoint : nat -> result (list Country.t);
  (* GET /v1/servers/recommendations, parsed *)
  recommendations_endpoint :
    nat -> list (string * param) -> result (list RecommendedServer.t);
  (* GET /v1/servers, parsed *)
  servers_endpoint : nat -> list (string * param) -> result (list Server.t);
  (* GET of a profile on the download host *)
  download_endpoint : nat -> string -> result string;
  (* GET https://api.ipify.org *)
  ipify_endpoint : nat -> reply string;
  (* GET https://ipinfo.io/<ip>/json; [None] is a body that is not JSON *)
  ipinfo_endpoint : nat -> string -> reply (option json);
  (* osascript -e <script> *)
  osascript : nat -> string -> proc_outcome;
  (* [subprocess.run(["open", <path>])]: its return code, or the exception
     raised when [open] cannot be started *)
  open_outcome : nat -> path -> result Z;
  (* an I/O error (disk full, permission, ...) hits this file operation *)
  fs_fault : nat -> bool;
  (* what an operation hit by an I/O error had done before: the entries a
     removal had not deleted yet, and how far a write, a copy (in bytes) or
     a [mkdir -p] (in directories) had got, [None] when it had not begun *)
  fs_survives : nat -> path -> bool;
  fs_progress : nat -> option nat;
  (* [str.lower], [str.upper] and [str.strip] on text that is not ASCII *)
  unicode_lower : string -> string;
  unicode_upper : string -> string;
  unicode_strip : string -> string;
  (* on a name that is not ASCII, how many characters beyond the fifteenth
     [re.match(r"^([a-z]{2}\d+\.nordvpn\.com)", name, re.IGNORECASE)]
     matches, in bytes *)
  unicode_hostname_end : string -> option nat;
  (* the process umask and working directory *)
  umask : Z;
  cwd : path;
  (* clock ticks per second, and the ticks each interaction takes *)
  hz : positive;
  latency : nat -> N
}.

Record World := {
  fs : gmap path node;
  clock : Z;                (* time.time(), in ticks *)
  trace : list Event
}.

Definition set_fs (w : World) (f : gmap path node) : World :=
  {| fs := f; clock := clock w; trace := trace w |}.

(** ** The monad: state, and exceptions that keep the state *)

Definition M (A : Type) : Type := World -> result A * World.

Definition ret {A} (a : A) : M A := fun w => (Ok a, w).
Definition raise {A} (e : exn) : M A := fun w => (Raise e, w).
Definition bind {A B} (m : M A) (k : A -> M B) : M B :=
  fun w =>
    match m w with
    | (Ok a, w') => k a w'
    | (Raise e, w') => (Raise e, w')
    end.

(** [try: m except Exception: h] *)
Definition try_except {A} (m : M A) (h : exn -> M A) : M A :=
  fun w =>
    match m w with
    | (Ok a, w') => (Ok a, w')
    | (Raise e, w') => h e w'
    end.

(** Lifting a parsed reply: an error reply raises. *)
Definition lift {A} (r : result A) : M A :=
  match r with Ok a => ret a | Raise e => raise e end.

Definition is_file_op (e : Event) : bool :=
  match e with EvFs _ => true | _ => false end.

(** A computation [advances] within [P] when, from every world, it never
    sets the clock back, only appends interactions that satisfy [P], and
    leaves the file system as it is unless one of them is a file
    operation. *)
Definition advances {A} (P : Event -> Prop) (m : M A) : Prop :=
  forall w,
    clock w <= clock (m w).2 /\
    exists events,
      trace (m w).2 = trace w ++ events /\
      Forall P events /\
      (Forall (fun e => is_file_op e = false) events -> fs (m w).2 = fs w).

(** A computation [raises_only] exceptions that satisfy [P]. *)
Definition raises_only {A} (P : exn -> Prop) (m : M A) : Prop :=
  forall w e w', m w = (Raise e, w') -> P e.

(** A computation [starts_with] the interaction [e] when, from every
    world, [e] is the first interaction it appends; the later ones satisfy
    [P], and the file system stays as it is unless one of them is a file
    operation. *)
Definition starts_with {A} (e : Event) (P : Event -> Prop) (m : M A) : Prop :=
  forall w,
    exists later,
      trace (m w).2 = trace w ++ e :: later /\
      Forall P later /\
      (Forall (fun e => is_file_op e = false) later -> fs (m w).2 = fs w).

Section WithEnv.
Context (env : Env).

(** One interaction: it is appended to the trace, takes its latency and
    [extra] ticks, and yields its index for the oracles. *)
Definition interact_for (extra : Z) (e : Event) : M nat :=
  fun w =>
    let k := length (trace w) in
    (Ok k, {| fs := fs w;
              clock := clock w + extra + Z.of_N (latency env k);
              trace := trace w ++ [e] |}).

Definition interact : Event -> M nat := interact_for 0.

(** [s.lower()], [s.upper()] and [s.strip()]: on ASCII text they are the
    maps of [Str]; on other text they are what the Unicode tables of the
    interpreter say. *)
Definition str_lower (s : string) : string :=
  if Str.is_ascii s then Str.lower s else unicode_lower env s.
Definition str_upper (s : string) : string :=
  if Str.is_ascii s then Str.upper s else unicode_upper env s.
Definition str_strip (s : string) : string :=
  if Str.is_ascii s then Str.strip s else unicode_strip env s.

(** [time.time()] and [time.sleep(seconds)] *)
Definition time : M Z := fun w => (Ok (clock w), w).
Definition sleep (seconds : Z) : M unit :=
  bind (interact_for (seconds * Z.pos (hz env)) (EvSleep seconds))
       (fun _ => ret tt).

(** *** File operations *)

Definition parent (p : path) : path := removelast p.
Definition basename (p : path) : string := List.last p EmptyString.

(** The root directory always exists. *)
Definition stat (f : gmap path node) (p : path) : option node :=
  match p with [] => Some Dir | _ => f !! p end.

Definition is_dir (f : gmap path node) (p : path) : bool :=
  match stat f p with Some Dir => true | _ => false end.

(** [p.exists()] *)
Definition exists_ (p : path) : M bool :=
  fun w => (Ok (bool_decide (is_Some (stat (fs w) p))), w).

Definition new_file_mode : Z := Z.land 438 (Z.lnot (umask env)).  (* 0o666 & ~umask *)

(** Creates the missing directories among [pre ++ take 1 rest],
    [pre ++ take 2 rest], ... *)
Fixpoint makedirs_from (pre rest : path) (f : gmap path node)
  : result (gmap path node) :=
  match rest with
  | [] => Ok f
  | c :: rest' =>
      let p := pre ++ [c] in
      match stat f p with
      | Some Dir => makedirs_from p rest' f
      | Some (File _ _) => Raise (OSError "FileExistsError")
      | None => makedirs_from p rest' (<[p := Dir]> f)
      end
  end.

Definition do_fs_op (op : fs_op) (f : gmap path node) : result (gmap path node) :=
  match op with
  | MakeDirs p => makedirs_from [] p f
  | Rmtree p =>
      match stat f p with
      | Some Dir => Ok (filter (fun kv => ¬ (p `prefix_of` kv.1)) f)
      | Some (File _ _) => Raise (OSError "NotADirectoryError")
      | None => Raise (OSError "FileNotFoundError")
      end
  | Mkdir p =>
      match stat f p with
      | Some _ => Raise (OSError "FileExistsError")
      | None =>
          if is_dir f (parent p) then Ok (<[p := Dir]> f)
          else Raise (OSError "FileNotFoundError")
      end
  | Copy2 src dst =>
      match stat f src with
      | Some (File content mode) =>
          (* a directory as destination receives the file under its own name *)
          let target := if is_dir f dst then dst ++ [basename src] else dst in
          if is_dir f target then Raise (OSError "IsADirectoryError")
          else if is_dir f (parent target) then Ok (<[target := File content mode]> f)
          else Raise (OSError "FileNotFoundError")
      | Some Dir => Raise (OSError "IsADirectoryError")
      | None => Raise (OSError "FileNotFoundError")
      end
  | WriteBytes p content
  | WriteText p content =>
      match stat f p with
      | Some Dir => Raise (OSError "IsADirectoryError")
      | Some (File _ mode) => Ok (<[p := File content mode]> f)
      | None =>
          if is_dir f (parent p) then Ok (<[p := File content new_file_mode]> f)
          else Raise (OSError "FileNotFoundError")
      end
  | Chmod p mode =>
      match stat f p with
      | Some (File content _) => Ok (<[p := File content mode]> f)
      | Some Dir => Ok f
      | None => Raise (OSError "FileNotFoundError")
      end
  | Touch p =>
      match stat f p with
      | Some _ => Ok f
      | None =>
          if is_dir f (parent p) then Ok (<[p := File EmptyString new_file_mode]> f)
          else Raise (OSError "FileNotFoundError")
      end
  end.

(** What operation number [k] leaves when an I/O error interrupts it.  A
    removal is made entry by entry, the directory itself last: any of the
    entries below it may be gone.  A write or a copy may have created or
    truncated its file and written the first bytes only.  A [mkdir -p] may
    have made the first directories only.  The other operations are single
    system calls. *)
Definition the_file (r : result (gmap path node)) (f : gmap path node)
  : gmap path node :=
  match r with Ok f' => f' | Raise _ => f end.

Definition interrupted (k : nat) (op : fs_op) (f : gmap path node)
  : gmap path node :=
  match op with
  | Rmtree p =>
      match stat f p with
      | Some Dir =>
          filter (fun kv => ¬ (p `prefix_of` kv.1) \/ kv.1 = p
                            \/ fs_survives env k kv.1 = true) f
      | _ => f
      end
  | WriteBytes p content
  | WriteText p content =>
      match fs_progress env k with
      | Some n => the_file (do_fs_op (WriteBytes p (String.substring 0 n content)) f) f
      | None => f
      end
  | Copy2 src dst =>
      match fs_progress env k, stat f src with
      | Some n, Some (File content _) =>
          let target := if is_dir f dst then dst ++ [basename src] else dst in
          the_file (do_fs_op (WriteBytes target (String.substring 0 n content)) f) f
      | _, _ => f
      end
  | MakeDirs p =>
      match fs_progress env k with
      | Some n => the_file (do_fs_op (MakeDirs (take n p)) f) f
      | None => f
      end
  | Mkdir _ | Chmod _ _ | Touch _ => f
  end.

(** A file operation is one interaction.  It raises by its own
    precondition, and then leaves the file system as it is, or by an I/O
    error, and then leaves what it had done so far. *)
Definition file_op (op : fs_op) : M unit :=
  bind (interact (EvFs op)) (fun k =>
    if fs_fault env k
    then fun w => (Raise (OSError "I/O error"), set_fs w (interrupted k op (fs w)))
    else fun w =>
           match do_fs_op op (fs w) with
           | Ok f' => (Ok tt, set_fs w f')
           | Raise e => (Raise e, w)
           end).

(** [dir / name]: [pathlib] splits [name] at its slashes and drops the
    empty components and the dots; a [name] that starts with a slash
    replaces [dir].  ([..] is kept as a component; nothing here resolves
    it.) *)
Definition components (name : string) : path :=
  List.filter (fun c => negb (bool_decide (c = EmptyString) || bool_decide (c = ".")))
              (Str.split "/"%char name).
Definition join (dir : path) (name : string) : path :=
  if Str.startswith name "/" then components name else dir ++ components name.

End WithEnv.

(** A file system is [well_formed] when every entry lies in a directory. *)
Definition well_formed (f : gmap path node) : Prop :=
  forall p n, f !! p = Some n -> is_dir f (parent p) = true.

End Effects.

Declare Scope effects_scope.
Delimit Scope effects_scope with M.
Notation "x <- m ;; k" := (Effects.bind m (fun x => k))
  (at level 100, m at next level, right associativity) : effects_scope.
Notation "m ;; k" := (Effects.bind m (fun _ => k))
  (at level 100, right associativity) : effects_scope.
Open Scope effects_scope.

(* ===================================================================== *)
(** * The catalog client ([nordvpn/api/client.py]) *)
(* ===================================================================== *)

Module Client.
Import Effects.

Definition BASE_URL : string := "https://api.nordvpn.com".

(** [min(candidates, key=lambda s: s.load)] on a non-empty list whose head
    is [best]: the first server of least load. *)
Fixpoint min_by_load (best : RecommendedServer.t) (rest : list RecommendedServer.t)
  : RecommendedServer.t :=
  match rest with
  | [] => best
  | s :: rest' =>
      if RecommendedServer.load s <? RecommendedServer.load best
      then min_by_load s rest'
      else min_by_load best rest'
  end.

(** The [Server(...)] built from a recommendation, with [ips=[]]. *)
Definition to_server (server : RecommendedServer.t) : Server.t :=
  {| Server.id := RecommendedServer.id server;
     Server.name := RecommendedServer.name server;
     Server.station := RecommendedServer.station server;
     Server.hostname := RecommendedServer.hostname server;
     Server.load := RecommendedServer.load server;
     Server.status := RecommendedServer.status server;
     Server.locations := RecommendedServer.locations server;
     Server.technologies := RecommendedServer.technologies server;
     Server.ips := [] |}.

(** [s.city and city_lower in s.city.name.lower()] *)
Definition city_matches (env : Env) (city_lower : string) (s : RecommendedServer.t)
  : bool :=
  match RecommendedServer.city s with
  | Some c => Str.contains (str_lower env (City.name c)) city_lower
  | None => false
  end.

(** Lines 96-105: the candidates are the recommendations, narrowed to the
    city when one is given and some server matches it. *)
Definition candidates_of (env : Env) (recommendations : list RecommendedServer.t)
           (city : option string) : list RecommendedServer.t :=
  if Str.truthy_opt city then
    let city_lower := str_lower env (default EmptyString city) in
    match List.filter (city_matches env city_lower) recommendations with
    | [] => recommendations      (* fall back to all servers *)
    | narrowed => narrowed
    end
  else recommendations.

(** Lines 107-138: the first server under the threshold, else the one of
    lowest load, else nothing. *)
Definition choose (candidates : list RecommendedServer.t) (max_load : Z)
  : option Server.t :=
  match List.find (fun server => RecommendedServer.load server <=? max_load) candidates with
  | Some server => Some (to_server server)
  | None =>
      match candidates with
      | best :: rest => Some (to_server (min_by_load best rest))
      | [] => None
      end
  end.

Section WithEnv.
Context (env : Env).

Definition get_countries : M (list Country.t) :=
  k <- interact env (EvGet (BASE_URL +:+ "/v1/servers/countries") []) ;;
  lift (countries_endpoint env k).

Definition get_country_by_code (code : string) : M (option Country.t) :=
  countries <- get_countries ;;
  let code := str_upper env code in
  ret (List.find
         (fun country => bool_decide (str_upper env (Country.code country) = code))
         countries).

Definition get_recommendations (country_id : option Z) (limit : Z)
  : M (list RecommendedServer.t) :=
  let params :=
    [("limit", PInt limit)] ++
    match country_id with
    | Some i => [("filters[country_id]", PInt i)]
    | None => []
    end in
  k <- interact env (EvGet (BASE_URL +:+ "/v1/servers/recommendations") params) ;;
  lift (recommendations_endpoint env k params).

Definition find_optimal_server (country_code : string) (city : option string)
           (max_load : Z) : M (option Server.t) :=
  country <- get_country_by_code country_code ;;
  match country with
  | None => ret None
  | Some country =>
      recommendations <- get_recommendations (Some (Country.id country)) 20 ;;
      ret (choose (candidates_of env recommendations city) max_load)
  end.

Definition get_server_by_hostname (hostname : string) : M (option Server.t) :=
  let hostname :=
    if Str.endswith hostname ".nordvpn.com" then hostname
    else hostname +:+ ".nordvpn.com" in
  let params := [("filters[hostname]", PStr hostname); ("limit", PInt 1)] in
  k <- interact env (EvGet (BASE_URL +:+ "/v1/servers") params) ;;
  servers <- lift (servers_endpoint env k params) ;;
  ret (head servers).

End WithEnv.
End Client.

(* ===================================================================== *)
(** * The GUI scripting bridge ([nordvpn/vpn/tunnelblick.py]) *)
(* ===================================================================== *)

Module Tunnelblick.
Import Effects.

Inductive ConnectionState :=
| CONNECTED
| EXITING
| DISCONNECTED
| CONNECTING
| SLEEPING
| UNKNOWN.

Record TunnelblickStatus := {
  state : ConnectionState;
  config_name : option string;
  server_ip : option string
}.

Definition status_of (st : ConnectionState) (name : option string) : TunnelblickStatus :=
  {| state := st; config_name := name; server_ip := None |}.

Definition tell (command : string) : string :=
  "tell application " +:+ Str.quoted "Tunnelblick" +:+ " to " +:+ command.

(** The script that issues the connection. *)
Definition connect_script (config_name : string) : string :=
  tell ("connect " +:+ Str.quoted config_name).

Definition is_bridge (e : Event) : bool :=
  match e with EvOsascript _ => true | _ => false end.
Definition bridge_only (e : Event) : Prop := is_bridge e = true.

Definition is_bridge_error (e : exn) : Prop := exists msg, e = TunnelblickError msg.

(** The scripts of the orchestrator: the two queries and a connect. *)
Definition known_script (e : Event) : Prop :=
  forall script,
    e = EvOsascript script ->
    script = tell "get name of configurations" \/
    script = tell "get state of configurations" \/
    exists config_name, script = connect_script config_name.

(** The loop of [get_status] over [enumerate(states)], from index [i]:
    the first entry that is CONNECTED or CONNECTING, and has a name at its
    index, decides. *)
Fixpoint scan_states (i : nat) (states configs : list string) : TunnelblickStatus :=
  match states with
  | [] => status_of DISCONNECTED None
  | st :: states' =>
      if bool_decide (st = "CONNECTED") && (i <? length configs)%nat
      then status_of CONNECTED (configs !! i)
      else if bool_decide (st = "CONNECTING") && (i <? length configs)%nat
      then status_of CONNECTING (configs !! i)
      else scan_states (S i) states' configs
  end.

Section WithEnv.
Context (env : Env).

Definition _run_applescript (script : string) : M string :=
  k <- interact env (EvOsascript script) ;;
  match osascript env k script with
  | Completed returncode stdout stderr =>
      if bool_decide (returncode ≠ 0) then
        let error := str_strip env stderr in
        if Str.contains (str_lower env error) "not running"
        then raise (TunnelblickError
                      "Tunnelblick is not running. Please start Tunnelblick first.")
        else raise (TunnelblickError ("AppleScript error: " +:+ error))
      else ret (str_strip env stdout)
  | TimeoutExpired => raise (TunnelblickError "Tunnelblick command timed out")
  | FileNotFoundError =>
      raise (TunnelblickError "osascript not found - are you on macOS?")
  | Crashed e => raise e
  end.

Definition list_configs : M (list string) :=
  result <- _run_applescript (tell "get name of configurations") ;;
  if Str.truthy result
  then ret (List.map (str_strip env) (Str.split ","%char result))
  else ret [].

Definition get_status : M TunnelblickStatus :=
  result <- try_except
              (r <- _run_applescript (tell "get state of configurations") ;;
               ret (Some r))
              (fun e => match e with
                        | TunnelblickError _ => ret None
                        | _ => raise e
                        end) ;;
  match result with
  | None => ret (status_of UNKNOWN None)
  | Some result =>
      if Str.truthy result then
        let states := List.map (str_strip env) (Str.split ","%char result) in
        configs <- list_configs ;;
        ret (scan_states 0 states configs)
      else ret (status_of DISCONNECTED None)
  end.

(** The polling loop of [connect].  [fuel] bounds the number of
    iterations; [None] means the bound was reached. *)
Fixpoint poll (fuel : nat) (start timeout : Z) : M (option bool) :=
  match fuel with
  | O => ret None
  | S fuel' =>
      now <- time ;;
      if now - start <? timeout * Z.pos (hz env) then
        status <- get_status ;;
        match state status with
        | CONNECTED => ret (Some true)
        | DISCONNECTED => ret (Some false)
        | _ => sleep env 1 ;; poll fuel' start timeout
        end
      else ret (Some false)
  end.

(** The world in which poll number [n] (from 0) of a loop entered in
    [w] starts, provided no earlier poll has ended the loop: each round
    is one [get_status] and one [sleep(1)]. *)
Definition after_poll (w : World) : World := (sleep env 1 (get_status w).2).2.
Definition poll_start (n : nat) (w : World) : World := Nat.iter n after_poll w.

(** Poll [n] starts before the deadline. *)
Definition in_time (start timeout : Z) (w : World) (n : nat) : Prop :=
  clock (poll_start n w) - start < timeout * Z.pos (hz env).

(** Poll [n] starts in time and sees neither CONNECTED nor DISCONNECTED. *)
Definition pending (start timeout : Z) (w : World) (n : nat) : Prop :=
  in_time start timeout w n /\
  exists status,
    (get_status (poll_start n w)).1 = Ok status /\
    state status <> CONNECTED /\ state status <> DISCONNECTED.

Definition connect (fuel : nat) (config_name : string) (wait : bool) (timeout : Z)
  : M (option bool) :=
  _run_applescript (connect_script config_name) ;;
  if negb wait then ret (Some true)
  else
    start <- time ;;
    poll fuel start timeout.

Definition get_connected_config : M (option string) :=
  status <- get_status ;;
  match state status with
  | CONNECTED => ret (config_name status)
  | _ => ret None
  end.

Definition disconnect : M bool :=
  _run_applescript (tell "disconnect all") ;;
  sleep env 1 ;;
  status <- get_status ;;
  ret (match state status with DISCONNECTED => true | _ => false end).

Definition disconnect_config (config_name : string) : M bool :=
  _run_applescript (tell ("disconnect " +:+ Str.quoted config_name)) ;;
  sleep env 1 ;;
  ret true.

End WithEnv.
End Tunnelblick.

(* ===================================================================== *)
(** * The bundle builder ([nordvpn/vpn/config_manager.py]) *)
(* ===================================================================== *)

Module ConfigManager.
Import Effects.

Definition OVPN_CONFIG_URL (hostname : string) : string :=
  "https://downloads.nordcdn.com/configs/files/ovpn_udp/servers/"
    +:+ hostname +:+ ".udp.ovpn".

Record t := { config_dir : path }.

(** [PurePath.stem]: the name without its last suffix; a leading or a
    trailing dot is not a suffix. *)
Definition stem (name : string) : string :=
  match Str.rfind "."%char name with
  | Some i =>
      if (0 <? i)%nat && (i <? String.length name - 1)%nat
      then String.substring 0 i name
      else name
  | None => name
  end.

Definition normalize (hostname : string) : string :=
  if Str.endswith hostname ".nordvpn.com" then hostname
  else hostname +:+ ".nordvpn.com".

Definition _hostname_to_config_name (hostname : string) : string :=
  normalize hostname +:+ ".udp".

Definition pass_text (username password : string) : string :=
  username +:+ Str.newline +:+ password +:+ Str.newline.

(** The bundle at [tblk_path] is intact: every path at or below it holds
    in [after] what it held in [before]. *)
Definition bundle_intact (before after : World) (tblk_path : path) : Prop :=
  forall q, tblk_path `prefix_of` q -> fs after !! q = fs before !! q.

(** Nothing outside [tblk_path] differs between [f0] and [f]. *)
Definition same_outside (tblk_path : path) (f0 f : gmap path node) : Prop :=
  forall q, ~ tblk_path `prefix_of` q -> f !! q = f0 !! q.

(** At and below [tblk_path] there is at most the directory itself and,
    as files, the copied profile and the credentials. *)
Definition rebuilt_only (tblk_path config_dest pass_file : path)
           (f : gmap path node) : Prop :=
  forall q n, tblk_path `prefix_of` q -> f !! q = Some n ->
              (q = tblk_path /\ n = Dir) \/
              ((q = config_dest \/ q = pass_file) /\ n <> Dir).

(** The three kinds of interaction that set a bundle up: fetching a
    profile, writing below the staging directory, and handing a bundle to
    the GUI.  Making sure the staging directory exists is none of them. *)
Definition is_profile_download (e : Event) : bool :=
  match e with
  | EvGet url _ => Str.startswith url "https://downloads.nordcdn.com/"
  | _ => false
  end.
Definition is_bundle_write (e : Event) : bool :=
  match e with
  | EvFs (MakeDirs _) => false
  | EvFs _ => true
  | _ => false
  end.
Definition is_install (e : Event) : bool :=
  match e with EvOpen _ => true | _ => false end.
Definition is_setup (e : Event) : bool :=
  is_profile_download e || is_bundle_write e || is_install e.

(** An interaction that sets no bundle up and is no file operation. *)
Definition harmless (e : Event) : Prop := is_setup e || is_file_op e = false.

(** How far a build has come in [wi] from [w], by the file operations
    [ops]: they all write at or below [tblk_path], nothing has changed
    outside it and, when there was something at [tblk_path], a removal has
    been made and only rebuilt entries are left. *)
Definition progress (tblk_path config_dest pass_file : path)
           (w wi : World) (ops : list fs_op) : Prop :=
  trace wi = trace w ++ List.map EvFs ops /\
  Forall (fun op => tblk_path `prefix_of` written_path op) ops /\
  same_outside tblk_path (fs w) (fs wi) /\
  (is_Some (fs w !! tblk_path) ->
   rebuilt_only tblk_path config_dest pass_file (fs wi) /\ ops <> []).

(** The operations of a build between the removal and the marker. *)
Definition rebuilding (tblk_path config_dest pass_file : path) (op : fs_op) : Prop :=
  op = Mkdir tblk_path \/ (exists src, op = Copy2 src config_dest) \/
  (exists content, op = WriteText pass_file content) \/
  (exists mode, op = Chmod pass_file mode).

Section WithEnv.
Context (env : Env).

(** [ConfigManager(config_dir)] *)
Definition init (config_dir : option path) : M t :=
  let config_dir := default (cwd env ++ ["configs"]) config_dir in
  file_op env (MakeDirs config_dir) ;;
  ret {| config_dir := config_dir |}.

Definition download_config (self : t) (hostname : string) : M path :=
  let hostname := normalize hostname in
  let url := OVPN_CONFIG_URL hostname in
  let output_path := join (config_dir self) (hostname +:+ ".udp.ovpn") in
  k <- interact env (EvGet url []) ;;
  content <- lift (download_endpoint env k url) ;;
  file_op env (WriteBytes output_path content) ;;
  ret output_path.

Definition create_tblk_package (self : t) (ovpn_path : path)
           (username password : string) : M path :=
  let tblk_name := stem (basename ovpn_path) in
  let tblk_path := config_dir self ++ [tblk_name +:+ ".tblk"] in
  present <- exists_ tblk_path ;;
  (if present : bool then file_op env (Rmtree tblk_path) else ret tt) ;;
  file_op env (Mkdir tblk_path) ;;
  let config_dest := tblk_path ++ [basename ovpn_path] in
  file_op env (Copy2 ovpn_path config_dest) ;;
  let pass_file := tblk_path ++ [stem (basename ovpn_path) +:+ ".pass"] in
  file_op env (WriteText pass_file (pass_text username password)) ;;
  file_op env (Chmod pass_file 384) ;;          (* 0o600 *)
  file_op env (Touch (tblk_path ++ ["autoLogin"])) ;;
  ret tblk_path.

(** [subprocess.run(["open", str(tblk_path)], capture_output=True)].  The
    output is captured as bytes and not decoded, so [subprocess.run] raises
    only when the process cannot be started (no executable, a NUL in the
    path, another [OSError]): then [open] has not run, and no hand-off is
    recorded.  [EvOpen] records a run of [open]. *)
Definition install_config (tblk_path : path) : M bool :=
  fun w =>
    match open_outcome env (length (trace w)) tblk_path with
    | Ok returncode =>
        (interact env (EvOpen tblk_path) ;; ret (returncode =? 0)) w
    | Raise e => (Raise e, w)
    end.

Definition setup_server (self : t) (hostname username password : string)
  : M string :=
  ovpn_path <- download_config self hostname ;;
  tblk_path <- create_tblk_package self ovpn_path username password ;;
  install_config tblk_path ;;
  ret (_hostname_to_config_name hostname).

End WithEnv.
End ConfigManager.

(* ===================================================================== *)
(** * The status reconciler ([nordvpn/vpn/status.py]) *)
(* ===================================================================== *)

Module Status.
Import Effects.

Record ConnectionStatus := {
  connected : bool;
  config_name : option string;
  server_hostname : option string;
  public_ip : option string;
  country : option string;
  city : option string;
  load : option Z
}.

Definition disconnected : ConnectionStatus :=
  {| connected := false; config_name := None; server_hostname := None;
     public_ip := None; country := None; city := None; load := None |}.

Fixpoint count_digits (s : string) : nat :=
  match s with
  | String c s' => if Str.is_digit c then S (count_digits s') else O
  | EmptyString => O
  end.

(** [re.match(r"^([a-z]{2}\d+\.nordvpn\.com)", config_name, re.IGNORECASE)]:
    two letters, one or more digits, the provider suffix in any case; the
    match is returned as it stands in [config_name]. *)
Definition ascii_hostname (config_name : string) : option string :=
  match config_name with
  | String a (String b rest) =>
      let n := count_digits rest in
      if Str.is_alpha a && Str.is_alpha b && (0 <? n)%nat
         && Str.startswith (Str.lower (String.substring n (String.length rest - n) rest))
                           ".nordvpn.com"
      then Some (String.substring 0 (2 + n + 12) config_name)
      else None
  | _ => None
  end.

(** A match of ASCII letters and digits is the match of the expression on
    any name.  Where there is none, an ASCII name has no match; on another
    name the expression may still match letters and digits that are not
    ASCII: the match, fifteen characters at least, is then what the
    interpreter finds. *)
Definition _extract_hostname_from_config (env : Env) (config_name : string)
  : option string :=
  match ascii_hostname config_name with
  | Some hostname => Some hostname
  | None =>
      if Str.is_ascii config_name then None
      else match unicode_hostname_end env config_name with
           | Some n => Some (String.substring 0 (15 + n) config_name)
           | None => None
           end
  end.

Definition is_request (e : Event) : bool :=
  match e with EvGet _ _ => true | _ => false end.

(** A string of decimal digits, as [\d+] takes it. *)
Fixpoint all_digits (s : string) : bool :=
  match s with
  | EmptyString => true
  | String c s' => Str.is_digit c && all_digits s'
  end.

(** [if not field and fallback: field = fallback.name] *)
Definition backfill (field fallback : option string) : option string :=
  if negb (Str.truthy_opt field)
  then match fallback with Some name => Some name | None => field end
  else field.

Section WithEnv.
Context (env : Env).

Definition get_public_ip : M (option string) :=
  try_except
    (k <- interact env (EvGet "https://api.ipify.org" []) ;;
     match ipify_endpoint env k with
     | TransportError => raise (HTTPError "transport")
     | Response status_code text =>
         if status_code =? 200 then ret (Some (str_strip env text)) else ret None
     end)
    (fun _ => ret None).

Definition get_ip_info (ip : string) : M (option json) :=
  let url := "https://ipinfo.io/" +:+ ip +:+ "/json" in
  try_except
    (k <- interact env (EvGet url []) ;;
     match ipinfo_endpoint env k url with
     | TransportError => raise (HTTPError "transport")
     | Response status_code body =>
         if status_code =? 200 then
           match body with
           | Some json => ret (Some json)
           | None => raise (HTTPError "JSONDecodeError")
           end
         else ret None
     end)
    (fun _ => ret None).

Definition get_connection_status : M ConnectionStatus :=
  tb_status <- Tunnelblick.get_status env ;;
  match Tunnelblick.state tb_status with
  | Tunnelblick.CONNECTED =>
      let config_name := Tunnelblick.config_name tb_status in
      let hostname :=
        match config_name with
        | Some name =>
            if Str.truthy name then _extract_hostname_from_config env name else None
        | None => None
        end in
      public_ip <- get_public_ip ;;
      located <-
        (if Str.truthy_opt public_ip then
           ip_info <- get_ip_info (default EmptyString public_ip) ;;
           match ip_info with
           | Some (JsonObject info) =>
               if bool_decide (info ≠ ∅)
               then ret (info !! "city", info !! "country")
               else ret (None, None)
           | Some (JsonOther true) =>
               raise (AttributeError "object has no attribute 'get'")
           | Some (JsonOther false) | None => ret (None, None)
           end
         else ret (None, None)) ;;
      let '(city, country) := located in
      looked_up <-
        (if Str.truthy_opt hostname then
           try_except
             (server <- Client.get_server_by_hostname env
                          (default EmptyString hostname) ;;
              match server with
              | Some server =>
                  ret (Some (Server.load server),
                       backfill city (City.name <$> Server.city server),
                       backfill country (Country.name <$> Server.country server))
              | None => ret (None, city, country)
              end)
             (fun _ => ret (None, city, country))
         else ret (None, city, country)) ;;
      let '(load, city, country) := looked_up in
      ret {| connected := true;
             config_name := config_name;
             server_hostname := hostname;
             public_ip := public_ip;
             country := country;
             city := city;
             load := load |}
  | _ => ret disconnected
  end.

End WithEnv.
End Status.

(* ===================================================================== *)
(** * The orchestrator ([connect] in [nordvpn/cli.py]) *)
(* ===================================================================== *)

Module Cli.
Import Effects.

Record Credentials := { username : string; password : string }.

Section WithEnv.
Context (env : Env).

(** The coroutine [do_connect] of the [connect] command, in the three
    steps its comments mark.  The command has already checked that
    [server] or [country] is given and has loaded the credentials;
    console output is left out.  [fuel] bounds the polling loop of the
    bridge. *)

(** "Determine which server to connect to": the hostname, or nothing
    when the selector finds no server. *)
Definition resolve (server country city : option string) : M (option string) :=
  if Str.truthy_opt server then
    let hostname := default EmptyString server in
    ret (Some (if Str.endswith hostname ".nordvpn.com" then hostname
               else hostname +:+ ".nordvpn.com"))
  else
    optimal <- Client.find_optimal_server env
                 (default EmptyString country) city 30 ;;
    ret (Server.hostname <$> optimal).

(** "Check if config is already installed": the name to connect to. *)
Definition ensure_bundle (config_manager : ConfigManager.t) (hostname : string)
           (creds : Credentials) : M string :=
  let config_name := hostname +:+ ".udp" in
  installed_configs <- Tunnelblick.list_configs env ;;
  if bool_decide (config_name ∈ installed_configs) then ret config_name
  else
    config_name <- ConfigManager.setup_server env config_manager hostname
                     (username creds) (password creds) ;;
    sleep env 3 ;;
    ret config_name.

(** "Connect" *)
Definition initiate (fuel : nat) (config_name : string) : M (option bool) :=
  success <- try_except
               (Tunnelblick.connect env fuel config_name true 30)
               (fun e => match e with
                         | TunnelblickError _ => ret (Some false)
                         | _ => raise e
                         end) ;;
  match success with
  | Some true =>
      Status.get_connection_status env ;;
      ret (Some true)
  | other => ret other
  end.

Definition do_connect (fuel : nat) (server country city : option string)
           (creds : Credentials) : M (option bool) :=
  config_manager <- ConfigManager.init env None ;;
  target <- resolve server country city ;;
  match target with
  | None => ret (Some false)
  | Some hostname =>
      config_name <- ensure_bundle config_manager hostname creds ;;
      initiate fuel config_name
  end.

End WithEnv.
End Cli.

(* ===================================================================== *)
(** * Recorded scenarios *)
(* ===================================================================== *)

(** Concrete catalogs, GUI behaviours and worlds on which the theorems below
    are exercised. *)
Module Scenario.
Import Effects.

Definition origin : float := 0%float.

Definition city (i : Z) (name : string) : City.t :=
  City.mk i name origin origin None None.

Definition united_states : Country.t :=
  Country.mk 228 "United States" "US" (Some (city 8971 "New York")).

Definition germany : Country.t :=
  Country.mk 81 "Germany" "DE" (Some (city 2215709 "Frankfurt")).

Definition recommended (i : Z) (hostname : string) (load : Z) (c : Country.t)
  : RecommendedServer.t :=
  RecommendedServer.mk i hostname hostname hostname load "online"
                       [ServerLocation.mk i c origin origin] [].

Definition us5090 := recommended 5090 "us5090.nordvpn.com" 12 united_states.
Definition us5091 := recommended 5091 "us5091.nordvpn.com" 44 united_states.

Definition de123 : Server.t :=
  Server.mk 123 "Germany #123" "de123.nordvpn.com" "de123.nordvpn.com" 14 "online"
            [ServerLocation.mk 123 germany origin origin] [] [].

(** A GUI that answers every script with [answer k script]. *)
Definition env_of (answer : nat -> string -> proc_outcome)
           (fault : nat -> bool) (ipify : reply string) : Env :=
  {| countries_endpoint := fun _ => Ok [germany; united_states];
     recommendations_endpoint := fun _ _ => Ok [us5090; us5091];
     servers_endpoint := fun _ _ => Ok [de123];
     download_endpoint := fun _ _ => Ok "client";
     ipify_endpoint := fun _ => ipify;
     ipinfo_endpoint :=
       fun _ _ => Response 200 (Some (JsonObject {[ "city" := "Berlin" ]}));
     osascript := answer;
     open_outcome := fun _ _ => Ok 0;
     fs_fault := fault;
     fs_survives := fun _ _ => true;
     fs_progress := fun _ => None;
     unicode_lower := Str.lower;
     unicode_upper := Str.upper;
     unicode_strip := Str.strip;
     unicode_hostname_end := fun _ => None;
     umask := 18;                       (* 0o022 *)
     cwd := ["Users"; "me"];
     hz := 1000%positive;
     latency := fun _ => 5%N |}.

Definition names_script : string := Tunnelblick.tell "get name of configurations".
Definition states_script : string := Tunnelblick.tell "get state of configurations".

(** The GUI reports [names] and [states], and accepts everything else. *)
Definition gui (names states : string) (k : nat) (script : string) : proc_outcome :=
  if bool_decide (script = names_script) then Completed 0 names ""
  else if bool_decide (script = states_script) then Completed 0 states ""
  else Completed 0 "true" "".

Definition no_fault (k : nat) : bool := false.

Definition empty_world : World := {| fs := ∅; clock := 0; trace := [] |}.

(** The staging directory, a world in which the bundle of us5090 has been
    built and handed over once, and a disk that fails at interaction 11:
    the copy of the profile during a second build. *)
Definition staging : ConfigManager.t :=
  {| ConfigManager.config_dir := ["Users"; "me"; "configs"] |}.

Definition copy_fails_env : Env :=
  env_of (gui "" "") (fun k => (k =? 11)%nat) TransportError.

Definition built_once : World :=
  (ConfigManager.setup_server copy_fails_env staging "us5090" "user" "secret"
     (ConfigManager.init copy_fails_env None empty_world).2).2.

Definition us5090_profile : path :=
  ["Users"; "me"; "configs"; "us5090.nordvpn.com.udp.ovpn"].
Definition us5090_bundle : path :=
  ["Users"; "me"; "configs"; "us5090.nordvpn.com.udp.tblk"].

(** S1: the recommendations for US are [us5090 load=12, us5091 load=44].
    The GUI lists the bundle of us5090 from interaction 2 on, reports
    CONNECTING up to interaction 13 and CONNECTED later. *)
Definition installing_gui (k : nat) (script : string) : proc_outcome :=
  if bool_decide (script = names_script) then
    Completed 0 (if (k <? 2)%nat then "" else "us5090.nordvpn.com.udp") ""
  else if bool_decide (script = states_script) then
    Completed 0 (if (k <? 14)%nat then "CONNECTING" else "CONNECTED") ""
  else Completed 0 "true" "".

Definition s1_env : Env :=
  env_of installing_gui no_fault (Response 200 "203.0.113.7").

Definition credentials : Cli.Credentials :=
  {| Cli.username := "user"; Cli.password := "secret" |}.

(** The world after a first [connect --server us5090]. *)
Definition first_run : World :=
  (Cli.do_connect s1_env 31 (Some "us5090") None None credentials empty_world).2.

(** Two configurations, the first connecting, the second connected. *)
Definition two_configs_env : Env :=
  env_of (gui "alpha, beta" "CONNECTING, CONNECTED") no_fault TransportError.

(** The only configuration is on its way out. *)
Definition exiting_env : Env :=
  env_of (gui "us5090.nordvpn.com.udp" "EXITING") no_fault (Response 200 "203.0.113.7").

(** S6: the GUI reports CONNECTED for [de123.nordvpn.com.udp], the
    public-IP probe fails, the catalog knows the server. *)
Definition s6_env : Env :=
  env_of (gui "de123.nordvpn.com.udp" "CONNECTED") no_fault TransportError.

(** The GUI reports CONNECTED for [de123.nordvpn.com.udp], the echo
    service gives an address, and the geolocation service answers 200 with
    the JSON list [[1]] in place of an object. *)
Definition json_list_env : Env :=
  let env := env_of (gui "de123.nordvpn.com.udp" "CONNECTED") no_fault
                    (Response 200 "203.0.113.7") in
  {| countries_endpoint := countries_endpoint env;
     recommendations_endpoint := recommendations_endpoint env;
     servers_endpoint := servers_endpoint env;
     download_endpoint := download_endpoint env;
     ipify_endpoint := ipify_endpoint env;
     ipinfo_endpoint := fun _ _ => Response 200 (Some (JsonOther true));
     osascript := osascript env;
     open_outcome := open_outcome env;
     fs_fault := fs_fault env;
     fs_survives := fs_survives env;
     fs_progress := fs_progress env;
     unicode_lower := unicode_lower env;
     unicode_upper := unicode_upper env;
     unicode_strip := unicode_strip env;
     unicode_hostname_end := unicode_hostname_end env;
     umask := umask env;
     cwd := cwd env;
     hz := hz env;
     latency := latency env |}.

(** The GUI is not running: every script fails. *)
Definition stopped_env : Env :=
  env_of (fun _ _ => Completed 1 "" "Tunnelblick is not running") no_fault TransportError.

(** The world once the configuration manager has been created. *)
Definition staged : World := (ConfigManager.init s1_env None empty_world).2.

End Scenario.

(* ===================================================================== *)
(** * Reasoning about the monad *)
(* ===================================================================== *)

(** Case analysis on the condition of the first conditional of the goal. *)
Ltac case_if :=
  match goal with
  | |- context [if ?b then _ else _] => destruct b
  end.

(** Closes an equation between closed terms by evaluation: the two sides are
    compared by the virtual machine when the proof is checked. *)
Ltac by_evaluation :=
  match goal with
  | |- @eq ?T _ ?b => vm_cast_no_check (@eq_refl T b)
  end.

Ltac case_if_in H :=
  match type of H with
  | context [if ?b then _ else _] => destruct b
  end.

Section MonadFacts.
Import Effects.
Context (env : Env).

Lemma bind_ok {A B} (m : M A) (k : A -> M B) w a w1 :
  m w = (Ok a, w1) -> bind m k w = k a w1.
Proof. intros H. unfold bind. now rewrite H. Qed.

Lemma bind_raise {A B} (m : M A) (k : A -> M B) w e w1 :
  m w = (Raise e, w1) -> bind m k w = (Raise e, w1).
Proof. intros H. unfold bind. now rewrite H. Qed.

Lemma interact_for_run extra e w :
  interact_for env extra e w =
    (Ok (length (trace w)),
     {| fs := fs w;
        clock := clock w + extra + Z.of_N (latency env (length (trace w)));
        trace := trace w ++ [e] |}).
Proof. reflexivity. Qed.

Lemma length_snoc {A} (l : list A) (x : A) : length (l ++ [x]) = S (length l).
Proof. rewrite length_app. simpl. lia. Qed.

Lemma bind_ok_inv {A B} (m : M A) (k : A -> M B) w b w' :
  bind m k w = (Ok b, w') ->
  exists a w1, m w = (Ok a, w1) /\ k a w1 = (Ok b, w').
Proof.
  unfold bind. destruct (m w) as [[a|e] w1]; [eauto|discriminate].
Qed.

Lemma bind_raise_inv {A B} (m : M A) (k : A -> M B) w e w' :
  bind m k w = (Raise e, w') ->
  m w = (Raise e, w') \/ exists a w1, m w = (Ok a, w1) /\ k a w1 = (Raise e, w').
Proof.
  unfold bind. destruct (m w) as [[a|e0] w1]; [eauto|].
  intros [= <- <-]. auto.
Qed.

(** *** Composing [advances] *)

Lemma advances_still {A} P (m : M A) :
  (forall w, (m w).2 = w) -> advances P m.
Proof.
  intros Hm w. rewrite Hm. split; [lia|]. exists [].
  rewrite app_nil_r. auto.
Qed.

Lemma advances_ret {A} P (a : A) : advances P (ret a).
Proof. now apply advances_still. Qed.

Lemma advances_raise {A} P e : advances P (@raise A e).
Proof. now apply advances_still. Qed.

Lemma advances_lift {A} P (r : result A) : advances P (lift r).
Proof. destruct r; [apply advances_ret|apply advances_raise]. Qed.

Lemma advances_time P : advances P time.
Proof. now apply advances_still. Qed.

Lemma advances_exists P p : advances P (exists_ p).
Proof. now apply advances_still. Qed.

(** Two runs in a row. *)
Lemma advances_seq (P : Event -> Prop) (w w1 w2 : World) events :
  clock w <= clock w1 ->
  trace w1 = trace w ++ events -> Forall P events ->
  (Forall (fun e => is_file_op e = false) events -> fs w1 = fs w) ->
  (clock w1 <= clock w2 /\
   exists events',
     trace w2 = trace w1 ++ events' /\ Forall P events' /\
     (Forall (fun e => is_file_op e = false) events' -> fs w2 = fs w1)) ->
  clock w <= clock w2 /\
  exists events',
    trace w2 = trace w ++ events' /\ Forall P events' /\
    (Forall (fun e => is_file_op e = false) events' -> fs w2 = fs w).
Proof.
  intros Hc Ht Hp Hf (Hc' & events' & Ht' & Hp' & Hf').
  split; [lia|]. exists (events ++ events').
  rewrite Ht', Ht, app_assoc. split; [reflexivity|]. split.
  - apply Forall_app; auto.
  - intros [H1 H2]%Forall_app. rewrite Hf', Hf; auto.
Qed.

Lemma advances_bind {A B} P (m : M A) (k : A -> M B) :
  advances P m -> (forall a, advances P (k a)) -> advances P (bind m k).
Proof.
  intros Hm Hk w. unfold bind.
  destruct (Hm w) as (Hc & evs & Ht & Hp & Hf).
  destruct (m w) as [[a|e] w1]; simpl in *.
  - eapply advances_seq; eauto. apply Hk.
  - split; [lia|]. eauto.
Qed.

Lemma advances_try {A} P (m : M A) (h : exn -> M A) :
  advances P m -> (forall e, advances P (h e)) -> advances P (try_except m h).
Proof.
  intros Hm Hh w. unfold try_except.
  destruct (Hm w) as (Hc & evs & Ht & Hp & Hf).
  destruct (m w) as [[a|e] w1]; simpl in *.
  - split; [lia|]. eauto.
  - eapply advances_seq; eauto. apply Hh.
Qed.

Lemma advances_interact_for (P : Event -> Prop) extra e :
  0 <= extra -> P e -> advances P (interact_for env extra e).
Proof.
  intros Hx He w. simpl. split; [lia|]. exists [e]. split; [reflexivity|].
  split; [now constructor|reflexivity].
Qed.

Lemma advances_interact (P : Event -> Prop) e : P e -> advances P (interact env e).
Proof. now apply advances_interact_for. Qed.

Lemma advances_sleep (P : Event -> Prop) seconds :
  0 <= seconds -> P (EvSleep seconds) -> advances P (sleep env seconds).
Proof.
  intros Hs He. apply advances_bind; [|intros; apply advances_ret].
  apply advances_interact_for; [lia|exact He].
Qed.

Lemma advances_file_op (P : Event -> Prop) op :
  P (EvFs op) -> advances P (file_op env op).
Proof.
  intros He w. unfold file_op, bind, interact. rewrite interact_for_run.
  assert (Hno : Forall (fun e => is_file_op e = false) [EvFs op] -> False).
  { intros H. now apply Forall_inv in H. }
  destruct (fs_fault env _); [|destruct (do_fs_op env op _)]; simpl;
    (split; [lia|]; exists [EvFs op]; split; [reflexivity|];
     split; [now constructor|intros H; now destruct (Hno H)]).
Qed.

Lemma advances_weaken {A} (P Q : Event -> Prop) (m : M A) :
  (forall e, P e -> Q e) -> advances P m -> advances Q m.
Proof.
  intros HPQ Hm w. destruct (Hm w) as (Hc & evs & Ht & Hp & Hf).
  split; [exact Hc|]. exists evs. split; [exact Ht|]. split; [|exact Hf].
  eapply Forall_impl; [exact Hp|exact HPQ].
Qed.

(** *** Composing [starts_with] *)

Lemma starts_with_then (P : Event -> Prop) e (w w1 w2 : World) later :
  trace w1 = trace w ++ e :: later -> Forall P later ->
  (Forall (fun e => is_file_op e = false) later -> fs w1 = fs w) ->
  (clock w1 <= clock w2 /\
   exists events',
     trace w2 = trace w1 ++ events' /\ Forall P events' /\
     (Forall (fun e => is_file_op e = false) events' -> fs w2 = fs w1)) ->
  exists later',
    trace w2 = trace w ++ e :: later' /\ Forall P later' /\
    (Forall (fun e => is_file_op e = false) later' -> fs w2 = fs w).
Proof.
  intros Ht Hp Hf (_ & events' & Ht' & Hp' & Hf').
  exists (later ++ events').
  rewrite Ht', Ht, <- app_assoc. split; [reflexivity|]. split.
  - apply Forall_app; auto.
  - intros [H1 H2]%Forall_app. rewrite Hf', Hf; auto.
Qed.

Lemma starts_with_first {A B} (P : Event -> Prop) e (m : M A) (k : A -> M B) :
  (forall w, trace (m w).2 = trace w ++ [e] /\ fs (m w).2 = fs w) ->
  (forall a, advances P (k a)) ->
  starts_with e P (bind m k).
Proof.
  intros Hm Hk w. unfold bind. destruct (Hm w) as [Ht Hf].
  destruct (m w) as [[a|e0] w1]; simpl in *.
  - eapply (starts_with_then P e w w1 _ []); eauto. apply Hk.
  - exists []. auto.
Qed.

Lemma starts_with_bind {A B} (P : Event -> Prop) e (m : M A) (k : A -> M B) :
  starts_with e P m -> (forall a, advances P (k a)) -> starts_with e P (bind m k).
Proof.
  intros Hm Hk w. unfold bind. destruct (Hm w) as (later & Ht & Hp & Hf).
  destruct (m w) as [[a|e0] w1]; simpl in *.
  - eapply starts_with_then; eauto. apply Hk.
  - eauto.
Qed.

Lemma starts_with_try {A} (P : Event -> Prop) e (m : M A) (h : exn -> M A) :
  starts_with e P m -> (forall e', advances P (h e')) ->
  starts_with e P (try_except m h).
Proof.
  intros Hm Hh w. unfold try_except. destruct (Hm w) as (later & Ht & Hp & Hf).
  destruct (m w) as [[a|e0] w1]; simpl in *.
  - eauto.
  - eapply starts_with_then; eauto. apply Hh.
Qed.

End MonadFacts.

(* ===================================================================== *)
(** * The server selector *)
(* ===================================================================== *)

Section Selector.
Import Effects Client.
Context (env : Env).

Abbreviation load := RecommendedServer.load.

(** The [Server] that the selector returns for a recommendation: the
    fields of the recommendation, and no address. *)
Abbreviation copy_of s r :=
  (Server.id s = RecommendedServer.id r /\
   Server.name s = RecommendedServer.name r /\
   Server.station s = RecommendedServer.station r /\
   Server.hostname s = RecommendedServer.hostname r /\
   Server.load s = RecommendedServer.load r /\
   Server.status s = RecommendedServer.status r /\
   Server.locations s = RecommendedServer.locations r /\
   Server.technologies s = RecommendedServer.technologies r /\
   Server.ips s = []).

Lemma to_server_copy r : copy_of (to_server r) r.
Proof. now repeat split. Qed.

Lemma find_first {A} (f : A -> bool) pre x post :
  Forall (fun y => f y = false) pre -> f x = true ->
  List.find f (pre ++ x :: post) = Some x.
Proof.
  induction 1 as [|y pre Hy _ IH]; simpl; intros Hx.
  - now rewrite Hx.
  - rewrite Hy. now apply IH.
Qed.

Lemma find_nowhere {A} (f : A -> bool) l :
  Forall (fun y => f y = false) l -> List.find f l = None.
Proof. induction 1 as [|y l Hy _ IH]; simpl; [|rewrite Hy]; auto. Qed.

(** [min] keeps the first server of least load. *)
Lemma min_by_load_first rest : forall before best between,
  Forall (fun s => load best < load s) before ->
  Forall (fun s => load best <= load s) between ->
  exists pre post,
    before ++ best :: between ++ rest = pre ++ min_by_load best rest :: post /\
    Forall (fun s => load (min_by_load best rest) < load s) pre /\
    Forall (fun s => load (min_by_load best rest) <= load s) post.
Proof.
  induction rest as [|s rest IH]; intros before best between Hb Hm; simpl.
  - exists before, between. now rewrite app_nil_r.
  - destruct (Z.ltb_spec (load s) (load best)) as [Hlt|Hge].
    + destruct (IH (before ++ best :: between) s []) as (pre & post & E & Hpre & Hpost).
      * apply Forall_app. split; [|constructor].
        -- eapply Forall_impl; [exact Hb|]. simpl. intros; lia.
        -- lia.
        -- eapply Forall_impl; [exact Hm|]. simpl. intros; lia.
      * constructor.
      * exists pre, post. split; [|auto].
        rewrite <- E. simpl. now rewrite <- app_assoc.
    + destruct (IH before best (between ++ [s])) as (pre & post & E & Hpre & Hpost).
      * exact Hb.
      * apply Forall_app. split; [exact Hm|]. constructor; [lia|constructor].
      * exists pre, post. split; [|auto].
        rewrite <- E. now rewrite <- app_assoc.
Qed.

(** The candidates keep the order of the recommendations. *)
Lemma candidates_of_sublist recommendations city :
  candidates_of env recommendations city `sublist_of` recommendations.
Proof.
  unfold candidates_of. destruct (Str.truthy_opt city); [|reflexivity].
  destruct (List.filter _ recommendations) as [|x xs] eqn:E; [reflexivity|].
  rewrite <- E. clear E x xs.
  induction recommendations as [|s rest IH]; simpl; [constructor|].
  destruct (city_matches _ _ s); now constructor.
Qed.

(** A city that matches no recommendation leaves all of them. *)
Lemma candidates_of_no_match recommendations city :
  Forall (fun s => forall c, RecommendedServer.city s = Some c ->
            Str.contains (str_lower env (City.name c)) (str_lower env city) = false)
         recommendations ->
  candidates_of env recommendations (Some city) = candidates_of env recommendations None.
Proof.
  intros Hnone. unfold candidates_of. simpl.
  destruct (Str.truthy city); [|reflexivity].
  replace (List.filter (city_matches env (str_lower env city)) recommendations)
    with (@nil RecommendedServer.t); [reflexivity|].
  induction Hnone as [|s l Hs _ IH]; simpl; [reflexivity|].
  unfold city_matches at 1.
  destruct (RecommendedServer.city s) as [c|]; [rewrite (Hs c eq_refl)|]; exact IH.
Qed.

(** What the selector computes once the catalog has answered. *)
Lemma find_optimal_server_no_country w country_code city max_load countries :
  countries_endpoint env (length (trace w)) = Ok countries ->
  List.find (fun c => bool_decide (str_upper env (Country.code c) = str_upper env country_code))
            countries = None ->
  (find_optimal_server env country_code city max_load w).1 = Ok None.
Proof.
  intros Hc Hf.
  unfold find_optimal_server, get_country_by_code, get_countries, bind, interact.
  rewrite interact_for_run, Hc. simpl. now rewrite Hf.
Qed.

Lemma find_optimal_server_country w country_code city max_load countries country
      recommendations :
  countries_endpoint env (length (trace w)) = Ok countries ->
  List.find (fun c => bool_decide (str_upper env (Country.code c) = str_upper env country_code))
            countries = Some country ->
  recommendations_endpoint env (S (length (trace w)))
    [("limit", PInt 20); ("filters[country_id]", PInt (Country.id country))]
    = Ok recommendations ->
  (find_optimal_server env country_code city max_load w).1
    = Ok (choose (candidates_of env recommendations city) max_load).
Proof.
  intros Hc Hf Hr.
  unfold find_optimal_server, get_country_by_code, get_countries, bind, interact.
  rewrite interact_for_run, Hc. simpl. rewrite Hf.
  unfold get_recommendations, bind, interact. rewrite interact_for_run. simpl.
  rewrite length_snoc, Hr. reflexivity.
Qed.

(** C1. The selector scans the candidates in the order of the
    recommendations endpoint and returns the first server whose load is at
    most [max_load]; when no candidate meets the threshold it returns the
    (first) candidate of minimum load; when there is no candidate, or when
    the country code matches no country, it returns nothing.  The server
    returned has the id, name, station, hostname, load, status, locations
    and technologies of that candidate, and no address. *)
Theorem find_optimal_server_policy w country_code city max_load countries :
  countries_endpoint env (length (trace w)) = Ok countries ->
  let outcome := (find_optimal_server env country_code city max_load w).1 in
  (Forall (fun c => str_upper env (Country.code c) <> str_upper env country_code) countries ->
   outcome = Ok None) /\
  (forall earlier country later recommendations,
      countries = earlier ++ country :: later ->
      Forall (fun c => str_upper env (Country.code c) <> str_upper env country_code) earlier ->
      str_upper env (Country.code country) = str_upper env country_code ->
      recommendations_endpoint env (S (length (trace w)))
        [("limit", PInt 20); ("filters[country_id]", PInt (Country.id country))]
        = Ok recommendations ->
      let candidates := candidates_of env recommendations city in
      candidates `sublist_of` recommendations /\
      (candidates = [] -> outcome = Ok None) /\
      (forall skipped server rest,
          candidates = skipped ++ server :: rest ->
          Forall (fun s => max_load < load s) skipped ->
          load server <= max_load ->
          exists s, outcome = Ok (Some s) /\ copy_of s server) /\
      (candidates <> [] ->
       Forall (fun s => max_load < load s) candidates ->
       exists before best after,
         candidates = before ++ best :: after /\
         Forall (fun s => load best < load s) before /\
         Forall (fun s => load best <= load s) after /\
         exists s, outcome = Ok (Some s) /\ copy_of s best)).
Proof.
  intros Hc outcome. split.
  - intros Hno. apply (find_optimal_server_no_country _ _ _ _ _ Hc).
    apply find_nowhere. eapply Forall_impl; [exact Hno|].
    intros c Hne. now apply bool_decide_eq_false.
  - intros earlier country later recommendations -> Hearlier Hcode Hr candidates.
    assert (Hout : outcome = Ok (choose candidates max_load)).
    { apply (find_optimal_server_country _ _ _ _ _ country _ Hc); [|exact Hr].
      apply find_first; [|now apply bool_decide_eq_true].
      eapply Forall_impl; [exact Hearlier|].
      intros c Hne. now apply bool_decide_eq_false. }
    split; [apply candidates_of_sublist|]. split; [|split].
    + intros E. rewrite Hout, E. reflexivity.
    + intros skipped server rest E Hskip Hload. exists (to_server server).
      split; [|apply to_server_copy]. rewrite Hout, E. unfold choose.
      rewrite find_first; [reflexivity| |now apply Z.leb_le].
      eapply Forall_impl; [exact Hskip|]. intros s Hs. now apply Z.leb_gt.
    + intros Hne Hall. rewrite Hout. unfold choose.
      rewrite find_nowhere.
      2:{ eapply Forall_impl; [exact Hall|]. intros s Hs. now apply Z.leb_gt. }
      destruct candidates as [|best rest]; [congruence|].
      destruct (min_by_load_first rest [] best []) as (pre & post & E & Hpre & Hpost);
        [constructor..|].
      exists pre, (min_by_load best rest), post. simpl in E.
      split; [exact E|]. split; [exact Hpre|]. split; [exact Hpost|].
      exists (to_server (min_by_load best rest)). split; [reflexivity|].
      apply to_server_copy.
Qed.

(** C9. When no server of the recommendations that the selector receives
    has a city whose name contains the requested city (ignoring case),
    selecting with the city gives exactly what selecting without a city
    gives, on the same catalog answers. *)
Theorem find_optimal_server_city_fallback w country_code city max_load :
  (forall countries country recommendations,
      countries_endpoint env (length (trace w)) = Ok countries ->
      List.find
        (fun c => bool_decide (str_upper env (Country.code c) = str_upper env country_code))
        countries = Some country ->
      recommendations_endpoint env (S (length (trace w)))
        [("limit", PInt 20); ("filters[country_id]", PInt (Country.id country))]
        = Ok recommendations ->
      Forall (fun s => forall c, RecommendedServer.city s = Some c ->
                Str.contains (str_lower env (City.name c)) (str_lower env city) = false)
             recommendations) ->
  find_optimal_server env country_code (Some city) max_load w
  = find_optimal_server env country_code None max_load w.
Proof.
  intros Hnone.
  unfold find_optimal_server, get_country_by_code, get_countries, bind, interact.
  rewrite interact_for_run.
  destruct (countries_endpoint env (length (trace w))) as [countries|e] eqn:Hc;
    [|reflexivity].
  simpl. destruct (List.find _ countries) as [country|] eqn:Hf; [|reflexivity].
  unfold get_recommendations, bind, interact. rewrite interact_for_run. simpl.
  rewrite length_snoc.
  specialize (Hnone countries country).
  destruct (recommendations_endpoint env (S (length (trace w))) _) as [recs|e] eqn:Hr;
    [|reflexivity].
  simpl. now rewrite (candidates_of_no_match recs city (Hnone recs eq_refl Hf eq_refl)).
Qed.

End Selector.

(* ===================================================================== *)
(** * The GUI scripting bridge *)
(* ===================================================================== *)

Section Bridge.
Import Effects Tunnelblick.
Context (env : Env).

Lemma run_applescript_advances script : advances bridge_only (_run_applescript env script).
Proof.
  apply advances_bind; [now apply advances_interact|].
  intros k. destruct (osascript env k script) as [rc out err| | |crash];
    try apply advances_raise.
  cbv zeta. repeat case_if; first [apply advances_ret|apply advances_raise].
Qed.

Lemma list_configs_advances : advances bridge_only (list_configs env).
Proof.
  apply advances_bind; [apply run_applescript_advances|].
  intros r. destruct (Str.truthy r); apply advances_ret.
Qed.

Lemma get_status_advances : advances bridge_only (get_status env).
Proof.
  apply advances_bind.
  - apply advances_try.
    + apply advances_bind; [apply run_applescript_advances|intros; apply advances_ret].
    + intros []; first [apply advances_ret|apply advances_raise].
  - intros [r|]; [|apply advances_ret].
    destruct (Str.truthy r); [|apply advances_ret].
    apply advances_bind; [apply list_configs_advances|intros; apply advances_ret].
Qed.

Lemma run_applescript_trace script w :
  trace (_run_applescript env script w).2 = trace w ++ [EvOsascript script].
Proof.
  unfold _run_applescript, bind, interact. rewrite interact_for_run.
  destruct (osascript env _ script) as [rc out err| | |crash]; try reflexivity.
  cbv zeta. repeat case_if; reflexivity.
Qed.

(** C10. Without [wait], [connect] answers true as soon as the connect
    command has been issued without error: the world it leaves is the one
    the command left, so no status poll (nor anything else) has happened,
    and the answer is the same whatever the GUI does afterwards. *)
Theorem connect_without_wait fuel config_name timeout w out w1 :
  _run_applescript env (connect_script config_name) w = (Ok out, w1) ->
  connect env fuel config_name false timeout w = (Ok (Some true), w1) /\
  trace w1 = trace w ++ [EvOsascript (connect_script config_name)].
Proof.
  intros Hrun. split.
  - unfold connect. now rewrite (bind_ok _ _ _ _ _ Hrun).
  - pose proof (run_applescript_trace (connect_script config_name) w) as Ht.
    now rewrite Hrun in Ht.
Qed.

(** ** The polling loop *)

Lemma sleep_run seconds w :
  sleep env seconds w =
    (Ok tt, {| fs := fs w;
               clock := clock w + seconds * Z.pos (hz env)
                        + Z.of_N (latency env (length (trace w)));
               trace := trace w ++ [EvSleep seconds] |}).
Proof. reflexivity. Qed.

Lemma poll_unfold fuel start timeout w :
  poll env (S fuel) start timeout w =
    if clock w - start <? timeout * Z.pos (hz env) then
      match get_status env w with
      | (Ok status, w1) =>
          match state status with
          | CONNECTED => (Ok (Some true), w1)
          | DISCONNECTED => (Ok (Some false), w1)
          | _ => poll env fuel start timeout (after_poll env w)
          end
      | (Raise e, w1) => (Raise e, w1)
      end
    else (Ok (Some false), w).
Proof.
  cbn [poll]. unfold bind at 1, time. cbv beta iota.
  destruct (clock w - start <? _); [|reflexivity].
  unfold bind at 1, after_poll.
  destruct (get_status env w) as [[status|e] w1]; [|reflexivity].
  destruct (state status); try reflexivity;
    unfold bind; rewrite sleep_run; reflexivity.
Qed.

Lemma get_status_clock w : clock w <= clock (get_status env w).2.
Proof. apply get_status_advances. Qed.

Lemma after_poll_clock w : clock w + Z.pos (hz env) <= clock (after_poll env w).
Proof.
  unfold after_poll. rewrite sleep_run. simpl.
  pose proof (get_status_clock w). lia.
Qed.

Lemma poll_start_succ n w :
  poll_start env (S n) w = poll_start env n (after_poll env w).
Proof. unfold poll_start. apply Nat.iter_succ_r. Qed.

Lemma poll_start_clock n : forall w,
  clock w + Z.of_nat n * Z.pos (hz env) <= clock (poll_start env n w).
Proof.
  induction n as [|n IH]; intros w.
  - simpl. lia.
  - rewrite poll_start_succ. pose proof (IH (after_poll env w)).
    pose proof (after_poll_clock w). lia.
Qed.

Lemma pending_succ start timeout w n :
  pending env start timeout w (S n) <-> pending env start timeout (after_poll env w) n.
Proof. unfold pending, in_time. now rewrite poll_start_succ. Qed.

(** With one unit of fuel per second still to wait, and one more, the
    loop ends by itself. *)
Lemma poll_returns fuel : forall w start timeout,
  timeout * Z.pos (hz env) - (clock w - start) <= Z.of_nat fuel * Z.pos (hz env) ->
  (poll env (S fuel) start timeout w).1 <> Ok None.
Proof.
  induction fuel as [|fuel IH]; intros w start timeout Hrem; rewrite poll_unfold.
  - destruct (Z.ltb_spec (clock w - start) (timeout * Z.pos (hz env))); [lia|].
    discriminate.
  - destruct (Z.ltb_spec (clock w - start) (timeout * Z.pos (hz env))); [|discriminate].
    destruct (get_status env w) as [[status|e] w1]; [|discriminate].
    assert (Hnext : (poll env (S fuel) start timeout (after_poll env w)).1 <> Ok None).
    { apply IH. pose proof (after_poll_clock w). lia. }
    destruct (state status); first [discriminate|exact Hnext].
Qed.

(** Polls that are pending are passed over. *)
Lemma poll_skips n : forall fuel w start timeout,
  (forall i, (i < n)%nat -> pending env start timeout w i) ->
  poll env (n + fuel) start timeout w
  = poll env fuel start timeout (poll_start env n w).
Proof.
  induction n as [|n IH]; intros fuel w start timeout Hpend; [reflexivity|].
  rewrite poll_start_succ. change (S n + fuel)%nat with (S (n + fuel)).
  rewrite poll_unfold.
  destruct (Hpend O ltac:(lia)) as (Htime & status & Hst & Hc & Hd).
  unfold in_time in Htime. simpl in Htime, Hst.
  destruct (Z.ltb_spec (clock w - start) (timeout * Z.pos (hz env))); [|lia].
  destruct (get_status env w) as [[status'|e] w1]; simpl in Hst; [|discriminate].
  injection Hst as ->.
  assert (Hrec : poll env (n + fuel) start timeout (after_poll env w)
                 = poll env fuel start timeout (poll_start env n (after_poll env w))).
  { apply IH. intros i Hi. apply pending_succ, Hpend. lia. }
  destruct (state status); congruence.
Qed.

Lemma poll_true fuel : forall w start timeout w',
  poll env fuel start timeout w = (Ok (Some true), w') ->
  exists n status,
    (forall i, (i < n)%nat -> pending env start timeout w i) /\
    in_time env start timeout w n /\
    get_status env (poll_start env n w) = (Ok status, w') /\
    state status = CONNECTED.
Proof.
  induction fuel as [|fuel IH]; intros w start timeout w' Hrun; [discriminate|].
  rewrite poll_unfold in Hrun.
  destruct (Z.ltb_spec (clock w - start) (timeout * Z.pos (hz env))) as [Ht|];
    [|discriminate].
  destruct (get_status env w) as [[status|e] w1] eqn:Hst; [|discriminate].
  assert (Hlater : state status <> CONNECTED -> state status <> DISCONNECTED ->
                   poll env fuel start timeout (after_poll env w) = (Ok (Some true), w') ->
                   exists n status0,
                     (forall i, (i < n)%nat -> pending env start timeout w i) /\
                     in_time env start timeout w n /\
                     get_status env (poll_start env n w) = (Ok status0, w') /\
                     state status0 = CONNECTED).
  { intros Hc Hd Hrec.
    destruct (IH _ _ _ _ Hrec) as (n & status0 & Hpend & Htime & Hget & Hconn).
    exists (S n), status0. split; [|split; [|split]].
    - intros [|i] Hi.
      + split; [exact Ht|]. exists status. simpl. now rewrite Hst.
      + apply pending_succ, Hpend. lia.
    - unfold in_time. now rewrite poll_start_succ.
    - now rewrite poll_start_succ.
    - exact Hconn. }
  destruct (state status) eqn:Hstate; try (apply Hlater; [discriminate..|exact Hrun]).
  - injection Hrun as <-. exists O, status. split; [intros i Hi; lia|].
    split; [exact Ht|]. split; [exact Hst|exact Hstate].
  - discriminate.
Qed.

(** Pending polls are one second apart or more, so less than [timeout]
    of them are in time. *)
Lemma in_time_bound start timeout w n :
  start <= clock w -> in_time env start timeout w n -> Z.of_nat n < timeout.
Proof.
  unfold in_time. intros Hs Ht. pose proof (poll_start_clock n w). nia.
Qed.

(** C4. With [wait], once the connect command has been issued, [connect]
    polls [get_status] with one second of sleep between two polls, and
    (given fuel for more than [timeout] rounds) it always returns:
    - true only from a poll that observed CONNECTED;
    - false at the first poll that observes DISCONNECTED, without polling
      or sleeping any further;
    - false when a poll would start [timeout] seconds or more after the
      first, no earlier poll having observed CONNECTED. *)
Theorem connect_wait_polls fuel config_name timeout w out w1 :
  Z.max 0 timeout < Z.of_nat fuel ->
  _run_applescript env (connect_script config_name) w = (Ok out, w1) ->
  let start := clock w1 in
  let run := connect env fuel config_name true timeout w in
  run.1 <> Ok None /\
  (forall n, clock (poll_start env n w1) + Z.pos (hz env)
             <= clock (poll_start env (S n) w1)) /\
  (run.1 = Ok (Some true) ->
   exists n status,
     (forall i, (i < n)%nat -> pending env start timeout w1 i) /\
     in_time env start timeout w1 n /\
     get_status env (poll_start env n w1) = (Ok status, run.2) /\
     state status = CONNECTED) /\
  (forall n status w',
      (forall i, (i < n)%nat -> pending env start timeout w1 i) ->
      in_time env start timeout w1 n ->
      get_status env (poll_start env n w1) = (Ok status, w') ->
      state status = DISCONNECTED ->
      run = (Ok (Some false), w')) /\
  (forall n,
      (forall i, (i < n)%nat -> pending env start timeout w1 i) ->
      ~ in_time env start timeout w1 n ->
      run = (Ok (Some false), poll_start env n w1)).
Proof.
  intros Hfuel Hrun start run.
  assert (Erun : run = poll env fuel start timeout w1).
  { unfold run, connect. now rewrite (bind_ok _ _ _ _ _ Hrun). }
  destruct fuel as [|fuel]; [lia|].
  split; [|split; [|split; [|split]]].
  - rewrite Erun. apply poll_returns. unfold start. nia.
  - intros n. change (poll_start env (S n) w1) with (after_poll env (poll_start env n w1)).
    apply after_poll_clock.
  - intros Htrue. apply (poll_true (S fuel)).
    rewrite <- Erun. destruct run as [r w']. simpl in *. now subst r.
  - intros n status w' Hpend Htime Hget Hstate.
    pose proof (in_time_bound start timeout w1 n ltac:(unfold start; lia) Htime) as Hn.
    rewrite Erun.
    replace (S fuel) with (n + S (fuel - n))%nat by lia.
    rewrite (poll_skips n _ _ _ _ Hpend), poll_unfold.
    unfold in_time in Htime.
    destruct (Z.ltb_spec (clock (poll_start env n w1) - start)
                         (timeout * Z.pos (hz env))); [|lia].
    now rewrite Hget, Hstate.
  - intros n Hpend Hlate.
    assert (Hn : (n <= fuel)%nat).
    { destruct n as [|n]; [lia|].
      destruct (Hpend n ltac:(lia)) as [Htime _].
      pose proof (in_time_bound start timeout w1 n ltac:(unfold start; lia) Htime).
      lia. }
    rewrite Erun.
    replace (S fuel) with (n + S (fuel - n))%nat by lia.
    rewrite (poll_skips n _ _ _ _ Hpend), poll_unfold.
    unfold in_time in Hlate.
    destruct (Z.ltb_spec (clock (poll_start env n w1) - start)
                         (timeout * Z.pos (hz env))); [lia|].
    reflexivity.
Qed.

End Bridge.

(* ===================================================================== *)
(** * The bundle builder *)
(* ===================================================================== *)

Section Bundles.
Import Effects ConfigManager.
Context (env : Env).

Lemma file_op_run op w :
  file_op env op w =
    let w1 := {| fs := fs w;
                 clock := clock w + 0 + Z.of_N (latency env (length (trace w)));
                 trace := trace w ++ [EvFs op] |} in
    if fs_fault env (length (trace w))
    then (Raise (OSError "I/O error"),
          set_fs w1 (interrupted env (length (trace w)) op (fs w)))
    else match do_fs_op env op (fs w) with
         | Ok f' => (Ok tt, set_fs w1 f')
         | Raise e => (Raise e, w1)
         end.
Proof.
  unfold file_op, bind, interact. rewrite interact_for_run. cbv zeta.
  destruct (fs_fault env _); reflexivity.
Qed.

Lemma file_op_ok op w u w' :
  file_op env op w = (Ok u, w') ->
  do_fs_op env op (fs w) = Ok (fs w') /\ trace w' = trace w ++ [EvFs op].
Proof.
  rewrite file_op_run. cbv zeta. destruct (fs_fault env _); [discriminate|].
  destruct (do_fs_op env op (fs w)) as [f'|e]; [|discriminate].
  intros [= _ <-]. auto.
Qed.

Lemma file_op_raise op w e w' :
  file_op env op w = (Raise e, w') ->
  (fs w' = fs w \/ fs w' = interrupted env (length (trace w)) op (fs w)) /\
  trace w' = trace w ++ [EvFs op].
Proof.
  rewrite file_op_run. cbv zeta. destruct (fs_fault env _).
  - intros [= _ <-]. auto.
  - destruct (do_fs_op env op (fs w)) as [f'|e']; [discriminate|].
    intros [= _ <-]. auto.
Qed.

Lemma stat_snoc (f : gmap path node) (p : path) (x : string) :
  stat f (p ++ [x]) = f !! (p ++ [x]).
Proof. destruct p; reflexivity. Qed.

Lemma parent_snoc (p : path) (x : string) : parent (p ++ [x]) = p.
Proof. unfold parent. apply removelast_last. Qed.

Lemma snoc_inj_ne (p : path) (x y : string) : x <> y -> p ++ [x] <> p ++ [y].
Proof. intros Hne E. apply app_inv_head in E. congruence. Qed.

(** What each successful file operation leaves at a path. *)

Lemma write_text_ok p x content f f' :
  do_fs_op env (WriteText (p ++ [x]) content) f = Ok f' ->
  exists mode, f' = <[p ++ [x] := File content mode]> f.
Proof.
  simpl. rewrite stat_snoc. destruct (f !! (p ++ [x])) as [[c m|]|].
  - intros [= <-]. eauto.
  - discriminate.
  - case_if; [|discriminate]. intros [= <-]. eauto.
Qed.

Lemma chmod_ok p x mode f f' content mode0 :
  f !! (p ++ [x]) = Some (File content mode0) ->
  do_fs_op env (Chmod (p ++ [x]) mode) f = Ok f' ->
  f' = <[p ++ [x] := File content mode]> f.
Proof. simpl. rewrite stat_snoc. intros ->. now intros [= <-]. Qed.

Lemma touch_ok p x f f' :
  do_fs_op env (Touch (p ++ [x])) f = Ok f' ->
  f' = f \/ f !! (p ++ [x]) = None /\ exists mode, f' = <[p ++ [x] := File EmptyString mode]> f.
Proof.
  simpl. rewrite stat_snoc. destruct (f !! (p ++ [x])) as [n|].
  - intros [= <-]. auto.
  - case_if; [|discriminate]. intros [= <-]. eauto.
Qed.

Lemma length_append (s t : string) :
  String.length (s +:+ t) = (String.length s + String.length t)%nat.
Proof.
  induction s as [|a s IH]; [reflexivity|].
  change (String a s +:+ t) with (String a (s +:+ t)). simpl. now rewrite IH.
Qed.

Lemma pass_is_not_marker (s : string) : s +:+ ".pass" <> "autoLogin".
Proof.
  intros E. assert (H : String.length (s +:+ ".pass") = 9%nat) by now rewrite E.
  rewrite length_append in H. simpl in H.
  do 5 (destruct s as [|? s]; simpl in H; try lia). discriminate.
Qed.

(** A successful build: where the bundle is, what its credentials file
    holds, and the last two operations of the build. *)
Lemma create_tblk_package_ok self ovpn_path username password w tblk_path w' :
  create_tblk_package env self ovpn_path username password w = (Ok tblk_path, w') ->
  let pass_file := tblk_path ++ [stem (basename ovpn_path) +:+ ".pass"] in
  tblk_path = config_dir self ++ [stem (basename ovpn_path) +:+ ".tblk"] /\
  fs w' !! pass_file = Some (File (pass_text username password) 384) /\
  exists earlier,
    trace w' = trace w ++ earlier ++
                 [EvFs (Chmod pass_file 384); EvFs (Touch (tblk_path ++ ["autoLogin"]))] /\
    Forall (fun e => is_install e = false) earlier.
Proof.
  unfold create_tblk_package. intros H.
  apply bind_ok_inv in H as (present & w0 & Hex & H).
  injection Hex as _ <-.
  apply bind_ok_inv in H as (u1 & w1 & Hrm & H).
  apply bind_ok_inv in H as (u2 & w2 & Hmk & H).
  apply bind_ok_inv in H as (u3 & w3 & Hcp & H).
  apply bind_ok_inv in H as (u4 & w4 & Hwr & H).
  apply bind_ok_inv in H as (u5 & w5 & Hch & H).
  apply bind_ok_inv in H as (u6 & w6 & Hto & H).
  injection H as <- <-. cbv zeta.
  split; [reflexivity|].
  apply file_op_ok in Hmk as [_ Tmk], Hcp as [_ Tcp], Hwr as [Fwr Twr],
      Hch as [Fch Tch], Hto as [Fto Tto].
  apply write_text_ok in Fwr as [mode Fwr].
  apply (chmod_ok _ _ _ _ _ (pass_text username password) mode) in Fch;
    [|rewrite Fwr; apply lookup_insert_eq].
  split.
  - apply touch_ok in Fto as [->|[_ [mode' ->]]].
    + rewrite Fch. apply lookup_insert_eq.
    + rewrite lookup_insert_ne.
      * rewrite Fch. apply lookup_insert_eq.
      * apply snoc_inj_ne. intros E. symmetry in E. now apply pass_is_not_marker in E.
  - assert (exists removal, trace w1 = trace w ++ removal /\
                            Forall (fun e => is_install e = false) removal)
      as (removal & Trm & Hrem).
    { destruct present.
      - apply file_op_ok in Hrm as [_ ->]. eexists. split; [reflexivity|].
        now repeat constructor.
      - injection Hrm as _ <-. exists []. now rewrite app_nil_r. }
    eexists (removal ++ [_; _; _]).
    rewrite Tto, Tch, Twr, Tcp, Tmk, Trm. split.
    + repeat rewrite <- app_assoc. reflexivity.
    + apply Forall_app. split; [exact Hrem|]. now repeat constructor.
Qed.

(** The hand-off is one interaction; it fails only when [open] cannot be
    started. *)
Lemma install_config_run tblk_path w :
  install_config env tblk_path w =
    let w1 := {| fs := fs w;
                 clock := clock w + 0 + Z.of_N (latency env (length (trace w)));
                 trace := trace w ++ [EvOpen tblk_path] |} in
    match open_outcome env (length (trace w)) tblk_path with
    | Ok returncode => (Ok (returncode =? 0), w1)
    | Raise e => (Raise e, w)
    end.
Proof.
  unfold install_config, bind, interact. rewrite interact_for_run. cbv zeta.
  now destruct (open_outcome env _ _).
Qed.

(** C8. After a build that completes, the [.pass] file of the bundle holds
    exactly the user name and the password, each followed by a newline,
    and has mode 0600 (= 384).  In [setup_server] the bundle is handed to
    the GUI only after that: the hand-off by [open] is the last
    interaction, the [chmod] to 0600 comes two interactions before it
    (only the touch of [autoLogin] lies between), no hand-off precedes
    it, and the file still has that content and mode at the hand-off. *)
Theorem pass_file_is_private self username password :
  (forall ovpn_path w tblk_path w',
      create_tblk_package env self ovpn_path username password w = (Ok tblk_path, w') ->
      fs w' !! (tblk_path ++ [stem (basename ovpn_path) +:+ ".pass"])
      = Some (File (username +:+ Str.newline +:+ password +:+ Str.newline) 384)) /\
  (forall hostname w name w',
      setup_server env self hostname username password w = (Ok name, w') ->
      let profile :=
        basename (join (config_dir self) (normalize hostname +:+ ".udp.ovpn")) in
      let tblk_path := config_dir self ++ [stem profile +:+ ".tblk"] in
      let pass_file := tblk_path ++ [stem profile +:+ ".pass"] in
      exists earlier,
        trace w' = trace w ++ earlier ++
                     [EvFs (Chmod pass_file 384);
                      EvFs (Touch (tblk_path ++ ["autoLogin"]));
                      EvOpen tblk_path] /\
        Forall (fun e => is_install e = false) earlier /\
        fs w' !! pass_file
        = Some (File (username +:+ Str.newline +:+ password +:+ Str.newline) 384)).
Proof.
  split.
  - intros ovpn_path w tblk_path w' H.
    now apply create_tblk_package_ok in H as (_ & Hpass & _).
  - intros hostname w name w' H. unfold setup_server in H.
    apply bind_ok_inv in H as (ovpn_path & w1 & Hdl & H).
    apply bind_ok_inv in H as (tblk_path & w2 & Hcr & H).
    apply bind_ok_inv in H as (installed & w3 & Hin & H).
    injection H as _ <-.
    apply create_tblk_package_ok in Hcr as (Htblk & Hpass & earlier & Tcr & Hearlier).
    rewrite install_config_run in Hin. cbv zeta in Hin.
    destruct (open_outcome env _ _) as [returncode|e0]; [|discriminate].
    injection Hin as _ <-. simpl.
    unfold download_config in Hdl.
    apply bind_ok_inv in Hdl as (k & w01 & Hget & Hdl).
    apply bind_ok_inv in Hdl as (content & w02 & Hlift & Hdl).
    apply bind_ok_inv in Hdl as (u & w03 & Hwb & Hdl).
    injection Hdl as <- <-.
    unfold interact in Hget. rewrite interact_for_run in Hget. injection Hget as _ <-.
    assert (w02 = {| fs := fs w;
                     clock := clock w + 0 + Z.of_N (latency env (length (trace w)));
                     trace := trace w ++ [EvGet (OVPN_CONFIG_URL (normalize hostname)) []] |})
      as ->.
    { destruct (download_endpoint env _ _); unfold lift, ret, raise in Hlift; congruence. }
    apply file_op_ok in Hwb as [_ Twb]. simpl in Twb.
    subst tblk_path.
    exists ([EvGet (OVPN_CONFIG_URL (normalize hostname)) [];
             EvFs (WriteBytes (join (config_dir self) (normalize hostname +:+ ".udp.ovpn"))
                              content)] ++ earlier).
    split; [|split; [|exact Hpass]].
    + rewrite Tcr, Twb. repeat rewrite <- app_assoc. reflexivity.
    + apply Forall_app. split; [now repeat constructor|exact Hearlier].
Qed.

(** ** Failure during a build *)

Lemma prefix_snoc_self (p : path) (x : string) : p `prefix_of` p ++ [x].
Proof. now exists [x]. Qed.

Lemma snoc_not_self (p : path) (x : string) : p ++ [x] <> p.
Proof.
  intros E. apply (f_equal (@length string)) in E. rewrite length_snoc in E. lia.
Qed.

(** Every file operation other than [MakeDirs] leaves alone the paths
    that are not at or below the one it writes. *)
Lemma do_fs_op_outside op f f' q :
  do_fs_op env op f = Ok f' ->
  (forall p, op <> MakeDirs p) ->
  ~ written_path op `prefix_of` q ->
  f' !! q = f !! q.
Proof.
  intros Hop Hmk Hout.
  assert (Hne : written_path op <> q) by (intros E; apply Hout; now rewrite E).
  destruct op as [p|p|p|src dst|p c|p c|p m|p]; simpl in *.
  - now destruct (Hmk p).
  - destruct (stat f p) as [[]|]; try discriminate. injection Hop as <-.
    destruct (f !! q) as [n|] eqn:E.
    + now apply map_lookup_filter_Some.
    + apply map_lookup_filter_None. left. exact E.
  - destruct (stat f p); [discriminate|]. case_if_in Hop; [|discriminate].
    injection Hop as <-. now apply lookup_insert_ne.
  - destruct (stat f src) as [[c m|]|]; try discriminate.
    destruct (is_dir f dst).
    + repeat case_if_in Hop; try discriminate. injection Hop as <-.
      apply lookup_insert_ne. intros <-. apply Hout, prefix_snoc_self.
    + repeat case_if_in Hop; try discriminate. injection Hop as <-.
      now apply lookup_insert_ne.
  - destruct (stat f p) as [[]|]; try discriminate.
    + injection Hop as <-. now apply lookup_insert_ne.
    + case_if_in Hop; [|discriminate]. injection Hop as <-. now apply lookup_insert_ne.
  - destruct (stat f p) as [[]|]; try discriminate.
    + injection Hop as <-. now apply lookup_insert_ne.
    + case_if_in Hop; [|discriminate]. injection Hop as <-. now apply lookup_insert_ne.
  - destruct (stat f p) as [[]|]; try discriminate; injection Hop as <-;
      [now apply lookup_insert_ne|reflexivity].
  - destruct (stat f p) as [|]; [now injection Hop as <-|].
    case_if_in Hop; [|discriminate]. injection Hop as <-. now apply lookup_insert_ne.
Qed.

Lemma same_outside_step tblk_path f0 op f f' :
  do_fs_op env op f = Ok f' ->
  (forall p, op <> MakeDirs p) ->
  tblk_path `prefix_of` written_path op ->
  same_outside tblk_path f0 f -> same_outside tblk_path f0 f'.
Proof.
  intros Hop Hmk Hunder Hsame q Hq. rewrite <- (Hsame q Hq).
  apply (do_fs_op_outside op); [exact Hop|exact Hmk|].
  intros Hpre. apply Hq. now transitivity (written_path op).
Qed.

(** Nor does an operation that an I/O error interrupts touch them. *)
Lemma interrupted_outside (k : nat) (op : fs_op) (f : gmap path node) (q : path) :
  (forall p, op <> MakeDirs p) ->
  ~ written_path op `prefix_of` q ->
  interrupted env k op f !! q = f !! q.
Proof.
  intros Hmk Hout.
  destruct op as [p|p|p|src dst|p c|p c|p m|p]; cbn [interrupted written_path] in *;
    try reflexivity.
  - now destruct (Hmk p).
  - destruct (stat f p) as [[]|]; try reflexivity.
    destruct (f !! q) as [n|] eqn:E.
    + apply map_lookup_filter_Some. split; [exact E|]. now left.
    + apply map_lookup_filter_None. now left.
  - destruct (fs_progress env k) as [n|]; [|reflexivity].
    destruct (stat f src) as [[c m|]|]; try reflexivity. cbv zeta. unfold the_file.
    destruct (do_fs_op env (WriteBytes _ _) f) as [f'|e] eqn:Hop; [|reflexivity].
    apply (do_fs_op_outside _ _ _ _ Hop); [discriminate|]. cbn [written_path].
    destruct (is_dir f dst); [|exact Hout].
    intros Hpre. apply Hout. transitivity (dst ++ [basename src]); [|exact Hpre].
    apply prefix_snoc_self.
  - destruct (fs_progress env k) as [n|]; [|reflexivity]. unfold the_file.
    destruct (do_fs_op env (WriteBytes _ _) f) as [f'|e] eqn:Hop; [|reflexivity].
    now apply (do_fs_op_outside _ _ _ _ Hop).
  - destruct (fs_progress env k) as [n|]; [|reflexivity]. unfold the_file.
    destruct (do_fs_op env (WriteBytes _ _) f) as [f'|e] eqn:Hop; [|reflexivity].
    now apply (do_fs_op_outside _ _ _ _ Hop).
Qed.

Lemma file_op_raise_outside (op : fs_op) (w : World) (e : exn) (w' : World) (q : path) :
  file_op env op w = (Raise e, w') ->
  (forall p, op <> MakeDirs p) ->
  ~ written_path op `prefix_of` q ->
  fs w' !! q = fs w !! q.
Proof.
  intros Hrun Hmk Hout. apply file_op_raise in Hrun as [[->| ->] _]; [reflexivity|].
  now apply interrupted_outside.
Qed.

(** After a removal nothing is left at or below the path. *)
Lemma rmtree_clears p x f f' :
  do_fs_op env (Rmtree (p ++ [x])) f = Ok f' ->
  forall q, p ++ [x] `prefix_of` q -> f' !! q = None.
Proof.
  simpl. destruct (stat f (p ++ [x])) as [[]|]; try discriminate.
  intros [= <-] q Hq. apply map_lookup_filter_None. right. intros n _ Hn.
  now apply Hn.
Qed.

Section Rebuilding.
Context (tblk_dir : path) (tblk_name profile_name pass_name : string).
Abbreviation tblk_path := (tblk_dir ++ [tblk_name]).
Abbreviation config_dest := (tblk_path ++ [profile_name]).
Abbreviation pass_file := (tblk_path ++ [pass_name]).

Lemma rebuilt_only_mkdir f f' :
  do_fs_op env (Mkdir tblk_path) f = Ok f' ->
  rebuilt_only tblk_path config_dest pass_file f ->
  rebuilt_only tblk_path config_dest pass_file f'.
Proof.
  simpl. rewrite stat_snoc.
  destruct (f !! tblk_path); [discriminate|]. case_if; [|discriminate].
  intros [= <-] Hre q n Hq. rewrite lookup_insert.
  case_decide as E; [|now apply Hre].
  intros [= <-]. left. auto.
Qed.

Lemma rebuilt_only_copy2 src f f' :
  do_fs_op env (Copy2 src config_dest) f = Ok f' ->
  rebuilt_only tblk_path config_dest pass_file f ->
  rebuilt_only tblk_path config_dest pass_file f'.
Proof.
  intros Hop Hre.
  assert (Hnd : is_dir f config_dest = false).
  { unfold is_dir. rewrite stat_snoc.
    destruct (f !! config_dest) as [[|]|] eqn:E; try reflexivity.
    destruct (Hre config_dest Dir) as [[Heq _]|[_ Hn]];
      [apply prefix_snoc_self|exact E| |congruence].
    now apply snoc_not_self in Heq. }
  simpl in Hop. destruct (stat f src) as [[c m|]|]; try discriminate.
  rewrite Hnd in Hop. rewrite Hnd in Hop. case_if_in Hop; [|discriminate].
  injection Hop as <-. intros q n Hq. rewrite lookup_insert.
  case_decide as E; [|now apply Hre].
  intros [= <-]. right. split; [auto|discriminate].
Qed.

Lemma rebuilt_only_write content f f' :
  do_fs_op env (WriteText pass_file content) f = Ok f' ->
  rebuilt_only tblk_path config_dest pass_file f ->
  rebuilt_only tblk_path config_dest pass_file f'.
Proof.
  intros Hop Hre. apply write_text_ok in Hop as [mode ->].
  intros q n Hq. rewrite lookup_insert.
  case_decide as E; [|now apply Hre].
  intros [= <-]. right. split; [auto|discriminate].
Qed.

Lemma rebuilt_only_chmod mode f f' :
  do_fs_op env (Chmod pass_file mode) f = Ok f' ->
  rebuilt_only tblk_path config_dest pass_file f ->
  rebuilt_only tblk_path config_dest pass_file f'.
Proof.
  simpl. rewrite stat_snoc.
  destruct (f !! pass_file) as [[c m|]|]; try discriminate.
  - intros [= <-] Hre q n Hq. rewrite lookup_insert.
    case_decide as E; [|now apply Hre].
    intros [= <-]. right. split; [auto|discriminate].
  - now intros [= <-].
Qed.

Lemma rebuilt_only_file (target : path) (content : string) (mode : Z)
      (f : gmap path node) :
  target = config_dest \/ target = pass_file ->
  rebuilt_only tblk_path config_dest pass_file f ->
  rebuilt_only tblk_path config_dest pass_file (<[target := File content mode]> f).
Proof.
  intros Ht Hre q n Hq. rewrite lookup_insert.
  case_decide as E; [|now apply Hre].
  intros [= <-]. right. subst q. split; [tauto|discriminate].
Qed.

Lemma rebuilt_only_no_dir (x : string) (f : gmap path node) :
  rebuilt_only tblk_path config_dest pass_file f ->
  is_dir f (tblk_path ++ [x]) = false.
Proof.
  intros Hre. unfold is_dir. rewrite stat_snoc.
  destruct (f !! (tblk_path ++ [x])) as [[|]|] eqn:E; try reflexivity.
  destruct (Hre (tblk_path ++ [x]) Dir) as [[Heq _]|[_ Hn]];
    [apply prefix_snoc_self|exact E| |congruence].
  now apply snoc_not_self in Heq.
Qed.

Lemma rebuilt_only_partial (target : path) (content : string) (f : gmap path node) :
  target = config_dest \/ target = pass_file ->
  rebuilt_only tblk_path config_dest pass_file f ->
  rebuilt_only tblk_path config_dest pass_file
               (the_file (do_fs_op env (WriteBytes target content) f) f).
Proof.
  intros Ht Hre. unfold the_file.
  destruct (do_fs_op env (WriteBytes target content) f) as [f'|e] eqn:Hop; [|exact Hre].
  change (do_fs_op env (WriteText target content) f = Ok f') in Hop.
  destruct Ht as [-> | ->]; apply write_text_ok in Hop as [mode ->];
    apply rebuilt_only_file; auto.
Qed.

Abbreviation progress := (ConfigManager.progress tblk_path config_dest pass_file).
Abbreviation rebuilding := (ConfigManager.rebuilding tblk_path config_dest pass_file).

Lemma rebuilding_under op : rebuilding op -> tblk_path `prefix_of` written_path op.
Proof.
  intros [->|[[src ->]|[[c ->]|[m ->]]]]; simpl;
    [reflexivity|apply prefix_snoc_self..].
Qed.

Lemma progress_step w wi ops op u wj :
  progress w wi ops -> rebuilding op ->
  file_op env op wi = (Ok u, wj) ->
  progress w wj (ops ++ [op]).
Proof.
  intros (Ht & Hu & Hs & Hr) Hop Hrun.
  apply file_op_ok in Hrun as [Hfs Htr].
  pose proof (rebuilding_under op Hop) as Hunder.
  split; [|split; [|split]].
  - rewrite Htr, Ht, map_app, app_assoc. reflexivity.
  - apply Forall_app. split; [exact Hu|]. now constructor.
  - apply (same_outside_step _ _ op (fs wi)); auto.
    intros p0 E. subst op. destruct Hop as [?|[[? ?]|[[? ?]|[? ?]]]]; discriminate.
  - intros Hsome. destruct (Hr Hsome) as [Hre _]. split.
    + destruct Hop as [->|[[src ->]|[[c ->]|[m ->]]]].
      * now apply (rebuilt_only_mkdir (fs wi)).
      * now apply (rebuilt_only_copy2 src (fs wi)).
      * now apply (rebuilt_only_write c (fs wi)).
      * now apply (rebuilt_only_chmod m (fs wi)).
    + now destruct ops.
Qed.

(** What an interrupted operation of the build leaves is rebuilt too. *)
Lemma rebuilt_only_interrupted (k : nat) (op : fs_op) (f : gmap path node) :
  rebuilding op \/ (exists x, op = Touch (tblk_path ++ [x])) ->
  rebuilt_only tblk_path config_dest pass_file f ->
  rebuilt_only tblk_path config_dest pass_file (interrupted env k op f).
Proof.
  intros [[->|[[src ->]|[[c ->]|[m ->]]]]|[x ->]] Hre; cbn [interrupted];
    try exact Hre.
  - destruct (fs_progress env k) as [n|]; [|exact Hre].
    destruct (stat f src) as [[c m|]|]; try exact Hre. cbv zeta.
    rewrite (rebuilt_only_no_dir profile_name f Hre).
    apply rebuilt_only_partial; auto.
  - destruct (fs_progress env k) as [n|]; [|exact Hre].
    apply rebuilt_only_partial; auto.
Qed.

Lemma progress_fail w wi ops op e w' :
  progress w wi ops ->
  rebuilding op \/ (exists x, op = Touch (tblk_path ++ [x])) ->
  file_op env op wi = (Raise e, w') ->
  (exists ops', trace w' = trace w ++ List.map EvFs ops' /\
                Forall (fun op => tblk_path `prefix_of` written_path op) ops') /\
  same_outside tblk_path (fs w) (fs w') /\
  (is_Some (fs w !! tblk_path) ->
   trace w' <> trace w ++ [EvFs (Rmtree tblk_path)] ->
   forall q, tblk_path `prefix_of` q -> is_Some (fs w' !! q) ->
             q ∈ [tblk_path; config_dest; pass_file]).
Proof.
  intros (Ht & Hu & Hs & Hr) Hop Hrun.
  assert (Hunder : tblk_path `prefix_of` written_path op).
  { destruct Hop as [Hop|[x ->]]; [now apply rebuilding_under|apply prefix_snoc_self]. }
  assert (Hmk : forall p, op <> MakeDirs p).
  { intros p0 E. subst op.
    destruct Hop as [[?|[[? ?]|[[? ?]|[? ?]]]]|[? ?]]; discriminate. }
  pose proof (file_op_raise _ _ _ _ Hrun) as [Hfs Htr].
  assert (Htr' : trace w' = trace w ++ List.map EvFs (ops ++ [op])).
  { rewrite Htr, Ht, map_app, app_assoc. reflexivity. }
  split; [|split].
  - exists (ops ++ [op]). split; [exact Htr'|].
    apply Forall_app. split; [exact Hu|]. now constructor.
  - intros q Hq. rewrite <- (Hs q Hq).
    apply (file_op_raise_outside _ _ _ _ _ Hrun Hmk).
    intros Hpre. apply Hq. now transitivity (written_path op).
  - intros Hsome _ q Hq [n Hn].
    destruct (Hr Hsome) as [Hre _].
    assert (Hre' : rebuilt_only tblk_path config_dest pass_file (fs w')).
    { destruct Hfs as [-> | ->]; [exact Hre|].
      now apply rebuilt_only_interrupted. }
    rewrite !elem_of_cons.
    destruct (Hre' q n Hq Hn) as [[-> _]|[[->| ->] _]]; auto.
Qed.

End Rebuilding.

(** C3, as amended.  A build that fails has worked in place: every file
    operation it made writes at or below the final bundle path (there is
    no temporary directory and no move), and nothing outside that path
    has changed.  When a previous bundle existed and a step after its
    removal fails, the previous bundle is not kept: at and below the
    bundle path there is nothing but what the failed build has made so
    far (the directory, the copy of the profile, the credentials file,
    each of the two files possibly incomplete). *)
Theorem create_tblk_package_fails_in_place self ovpn_path username password w e w' :
  create_tblk_package env self ovpn_path username password w = (Raise e, w') ->
  let tblk_path := config_dir self ++ [stem (basename ovpn_path) +:+ ".tblk"] in
  let config_dest := tblk_path ++ [basename ovpn_path] in
  let pass_file := tblk_path ++ [stem (basename ovpn_path) +:+ ".pass"] in
  (exists ops, trace w' = trace w ++ List.map EvFs ops /\
               Forall (fun op => tblk_path `prefix_of` written_path op) ops) /\
  same_outside tblk_path (fs w) (fs w') /\
  (is_Some (fs w !! tblk_path) ->
   trace w' <> trace w ++ [EvFs (Rmtree tblk_path)] ->
   forall q, tblk_path `prefix_of` q -> is_Some (fs w' !! q) ->
             q ∈ [tblk_path; config_dest; pass_file]).
Proof.
  unfold create_tblk_package. intros H. cbv zeta.
  set (tblk_dir := config_dir self) in *.
  set (tblk_name := stem (basename ovpn_path) +:+ ".tblk") in *.
  set (pass_name := stem (basename ovpn_path) +:+ ".pass") in *.
  apply bind_raise_inv in H as [H|(present & w0 & Hex & H)]; [discriminate|].
  injection Hex as Hpresent <-.
  apply bind_raise_inv in H as [Hrm|(u1 & w1 & Hrm & H)].
  { (* the removal fails *)
    destruct present; [|discriminate].
    pose proof (file_op_raise _ _ _ _ Hrm) as [_ Htr].
    split; [|split].
    - exists [Rmtree (tblk_dir ++ [tblk_name])]. split; [exact Htr|].
      now repeat constructor.
    - intros q Hq. now apply (file_op_raise_outside _ _ _ _ _ Hrm).
    - intros _ Hne. now destruct Hne. }
  assert (Hstart : trace w1 = trace w ++ List.map EvFs
                                (if present then [Rmtree (tblk_dir ++ [tblk_name])] else []) /\
                   Forall (fun op => tblk_dir ++ [tblk_name] `prefix_of` written_path op)
                          (if present then [Rmtree (tblk_dir ++ [tblk_name])] else []) /\
                   same_outside (tblk_dir ++ [tblk_name]) (fs w) (fs w1) /\
                   (is_Some (fs w !! (tblk_dir ++ [tblk_name])) ->
                    rebuilt_only (tblk_dir ++ [tblk_name])
                                 ((tblk_dir ++ [tblk_name]) ++ [basename ovpn_path])
                                 ((tblk_dir ++ [tblk_name]) ++ [pass_name]) (fs w1) /\
                    (if present then [Rmtree (tblk_dir ++ [tblk_name])] else []) <> [])).
  { destruct present.
    - apply file_op_ok in Hrm as [Hfs Htr]. split; [exact Htr|].
      split; [now repeat constructor|]. split.
      + intros q Hq. now apply (do_fs_op_outside _ _ _ _ Hfs).
      + intros _. split; [|discriminate].
        intros q n Hq Hn. now rewrite (rmtree_clears _ _ _ _ Hfs q Hq) in Hn.
    - injection Hrm as _ <-. split; [now rewrite app_nil_r|].
      split; [constructor|]. split; [now intros q _|].
      intros Hsome. rewrite <- stat_snoc in Hsome.
      apply bool_decide_eq_false in Hpresent. now destruct Hpresent. }
  clear Hrm Hpresent.
  set (ops1 := if present then _ else _) in Hstart.
  pose proof (progress_fail tblk_dir tblk_name (basename ovpn_path) pass_name w) as Fail.
  pose proof (progress_step tblk_dir tblk_name (basename ovpn_path) pass_name w) as Step.
  unfold ConfigManager.progress in Hstart, Fail, Step.
  unfold ConfigManager.rebuilding in Step.
  apply bind_raise_inv in H as [Hf|(u2 & w2 & Hok2 & H)].
  { eapply Fail; [exact Hstart| |exact Hf]. left. now left. }
  eapply Step in Hok2; [|exact Hstart|now left].
  apply bind_raise_inv in H as [Hf|(u3 & w3 & Hok3 & H)].
  { eapply Fail; [exact Hok2| |exact Hf]. left. right. left. eauto. }
  eapply Step in Hok3; [|exact Hok2|right; left; eauto].
  apply bind_raise_inv in H as [Hf|(u4 & w4 & Hok4 & H)].
  { eapply Fail; [exact Hok3| |exact Hf]. left. right. right. left. eauto. }
  eapply Step in Hok4; [|exact Hok3|right; right; left; eauto].
  apply bind_raise_inv in H as [Hf|(u5 & w5 & Hok5 & H)].
  { eapply Fail; [exact Hok4| |exact Hf]. left. right. right. right. eauto. }
  eapply Step in Hok5; [|exact Hok4|right; right; right; eauto].
  apply bind_raise_inv in H as [Hf|(u6 & w6 & Hok6 & H)]; [|discriminate].
  eapply Fail; [exact Hok5| |exact Hf]. right. eauto.
Qed.

End Bundles.

(* ===================================================================== *)
(** * The status reconciler *)
(* ===================================================================== *)

Section Reconciler.
Import Effects Status.
Context (env : Env).

Lemma bridge_is_no_request e : Tunnelblick.bridge_only e -> is_request e = false.
Proof. unfold Tunnelblick.bridge_only. now destruct e. Qed.

(** C6. When the GUI reports any state other than CONNECTED, the
    reconciler returns the status that has [connected] false and every
    optional field absent, and leaves the world as [get_status] left it:
    the only interactions are the scripts of [get_status], so there is no
    public-IP probe, no geolocation probe and no catalog lookup. *)
Theorem disconnected_status_makes_no_probe w tb w1 :
  Tunnelblick.get_status env w = (Ok tb, w1) ->
  Tunnelblick.state tb <> Tunnelblick.CONNECTED ->
  get_connection_status env w
  = (Ok {| connected := false; config_name := None; server_hostname := None;
           public_ip := None; country := None; city := None; load := None |},
     w1) /\
  exists events,
    trace w1 = trace w ++ events /\ Forall (fun e => is_request e = false) events.
Proof.
  intros Hget Hstate. split.
  - unfold get_connection_status. rewrite (bind_ok _ _ _ _ _ Hget).
    destruct (Tunnelblick.state tb); try reflexivity. now destruct Hstate.
  - destruct (get_status_advances env w) as (_ & events & Ht & Hev & _).
    rewrite Hget in Ht. exists events. split; [exact Ht|].
    eapply Forall_impl; [exact Hev|]. apply bridge_is_no_request.
Qed.

(** ** The three probes *)

Lemma get_public_ip_run w :
  get_public_ip env w =
    (Ok match ipify_endpoint env (length (trace w)) with
        | Response code text => if code =? 200 then Some (str_strip env text) else None
        | TransportError => None
        end,
     (interact env (EvGet "https://api.ipify.org" []) w).2).
Proof.
  unfold get_public_ip, try_except, bind, interact. rewrite interact_for_run.
  destruct (ipify_endpoint env _) as [|code text]; [reflexivity|].
  now destruct (code =? 200).
Qed.

Lemma get_ip_info_run ip w :
  get_ip_info env ip w =
    (Ok match ipinfo_endpoint env (length (trace w))
                              ("https://ipinfo.io/" +:+ ip +:+ "/json") with
        | Response code (Some json) => if code =? 200 then Some json else None
        | _ => None
        end,
     (interact env (EvGet ("https://ipinfo.io/" +:+ ip +:+ "/json") []) w).2).
Proof.
  unfold get_ip_info, try_except, bind, interact. rewrite interact_for_run.
  destruct (ipinfo_endpoint env _ _) as [|code [json|]]; [reflexivity| |];
    now destruct (code =? 200).
Qed.

Lemma extracted_hostname_is_truthy name h :
  _extract_hostname_from_config env name = Some h -> Str.truthy h = true.
Proof.
  unfold _extract_hostname_from_config.
  destruct (ascii_hostname name) as [h'|] eqn:E.
  - intros [= <-]. unfold ascii_hostname in E.
    destruct name as [|a [|b rest]]; try discriminate.
    revert E. case_if; [|discriminate]. now intros [= <-].
  - destruct name as [|a rest]; [discriminate|].
    destruct (Str.is_ascii _); [discriminate|].
    destruct (unicode_hostname_end env _); [|discriminate]. now intros [= <-].
Qed.

(** The reply of the geolocation service as [get_ip_info] hands it on. *)
Abbreviation geolocation k ip :=
  (if Str.truthy_opt ip then
     match ipinfo_endpoint env k
             ("https://ipinfo.io/" +:+ default EmptyString ip +:+ "/json") with
     | Response code (Some json) => if code =? 200 then Some json else None
     | _ => None
     end
   else None).

(** X21. When the GUI reports CONNECTED and the geolocation service, where
    it is asked, does not answer 200 with a JSON value that is neither an
    object nor empty, the reconciler returns a status, whatever becomes of
    the three probes, and each field is computed from its own sources:
    - [public_ip] is the answer of the echo service, absent when that
      probe fails (transport error or a status other than 200);
    - the geolocation is asked only for a public IP; its city and country
      are absent when it fails (transport error, status other than 200,
      a body that is not JSON), gives an empty value, or does not give
      them;
    - [load] is the load of the catalog's server for the extracted
      hostname, absent when no hostname was extracted or the lookup fails
      (an error or no server);
    - [city] and [country] are those of the geolocation when it gave
      them; when it left one empty and the catalog lookup found the
      server, that field is the name of the server's city, respectively
      country, where the server has one. *)
Theorem reconciler_is_tolerant w tb w1 :
  Tunnelblick.get_status env w = (Ok tb, w1) ->
  Tunnelblick.state tb = Tunnelblick.CONNECTED ->
  let k := length (trace w1) in
  let hostname :=
    match Tunnelblick.config_name tb with
    | Some name =>
        if Str.truthy name then _extract_hostname_from_config env name else None
    | None => None
    end in
  let ip :=
    match ipify_endpoint env k with
    | Response code text => if code =? 200 then Some (str_strip env text) else None
    | TransportError => None
    end in
  geolocation (S k) ip <> Some (JsonOther true) ->
  let located (key : string) : option string :=
    match geolocation (S k) ip with
    | Some (JsonObject info) => info !! key
    | _ => None
    end in
  let k' := if Str.truthy_opt ip then S (S k) else S k in
  let server :=
    match hostname with
    | Some h =>
        match servers_endpoint env k'
                [("filters[hostname]",
                  PStr (if Str.endswith h ".nordvpn.com" then h
                        else h +:+ ".nordvpn.com"));
                 ("limit", PInt 1)] with
        | Ok (server :: _) => Some server
        | _ => None
        end
    | None => None
    end in
  let merged (geo catalog : option string) : option string :=
    if Str.truthy_opt geo then geo
    else match catalog with Some name => Some name | None => geo end in
  (get_connection_status env w).1
  = Ok {| connected := true;
          config_name := Tunnelblick.config_name tb;
          server_hostname := hostname;
          public_ip := ip;
          country :=
            match server with
            | Some server =>
                merged (located "country") (Country.name <$> Server.country server)
            | None => located "country"
            end;
          city :=
            match server with
            | Some server =>
                merged (located "city") (City.name <$> Server.city server)
            | None => located "city"
            end;
          load := Server.load <$> server |}.
Proof.
  intros Hget Hstate k hostname ip Hjson located k' server merged.
  unfold get_connection_status. rewrite (bind_ok _ _ _ _ _ Hget), Hstate.
  fold hostname.
  unfold bind at 1. rewrite get_public_ip_run. fold k ip.
  assert (Hk2 : length (trace (interact env (EvGet "https://api.ipify.org" []) w1).2) = S k)
    by apply length_snoc.
  revert Hk2. generalize ((interact env (EvGet "https://api.ipify.org" []) w1).2).
  intros w2 Hk2.
  (* the geolocation *)
  assert (Hgeo : exists w3,
             length (trace w3) = k' /\
             (if Str.truthy_opt ip then
                bind (get_ip_info env (default EmptyString ip))
                     (fun ip_info =>
                        match ip_info with
                        | Some (JsonObject info) =>
                            if bool_decide (info <> ∅)
                            then ret (info !! "city", info !! "country")
                            else ret (None, None)
                        | Some (JsonOther true) =>
                            raise (AttributeError "object has no attribute 'get'")
                        | Some (JsonOther false) | None => ret (None, None)
                        end)
              else ret (None, None)) w2
             = (Ok (located "city", located "country"), w3)).
  { unfold located, k'. revert Hjson. destruct (Str.truthy_opt ip); intros Hjson.
    - eexists. split; [|unfold bind; rewrite get_ip_info_run, Hk2].
      2:{ destruct (ipinfo_endpoint env _ _) as [|code [json|]]; try reflexivity.
          destruct (code =? 200); [|reflexivity].
          destruct json as [info|[|]]; [|now destruct Hjson|reflexivity].
          case_bool_decide as E; [reflexivity|].
          subst info. now rewrite !lookup_empty. }
      unfold interact. rewrite interact_for_run. simpl. now rewrite length_snoc, Hk2.
    - exists w2. split; [exact Hk2|reflexivity]. }
  destruct Hgeo as (w3 & Hk3 & Hgeo).
  unfold bind at 1. rewrite Hgeo. clear Hgeo.
  (* the catalog *)
  unfold bind at 1, try_except, Client.get_server_by_hostname, bind, interact, server.
  destruct hostname as [h|] eqn:Hh; simpl; [|reflexivity].
  assert (Ht : Str.truthy h = true).
  { unfold hostname in Hh. destruct (Tunnelblick.config_name tb) as [name|]; [|discriminate].
    destruct (Str.truthy name); [|discriminate].
    now apply extracted_hostname_is_truthy in Hh. }
  rewrite Ht, Hk3.
  destruct (servers_endpoint env k' _) as [[|srv rest]|e]; try reflexivity.
  simpl. unfold backfill, merged.
  destruct (Str.truthy_opt (located "city")), (Str.truthy_opt (located "country"));
    reflexivity.
Qed.

(** The other case: the echo service gave an address and the geolocation
    service answers 200 with a JSON value that is neither an object nor
    empty (a list, a string, a number, [true]).  [get_ip_info] hands it on,
    the test [if ip_info] lets it pass, and [ip_info.get], outside any
    [try], raises [AttributeError] out of the reconciler. *)
Lemma reconciler_raises_on_other_json w tb w1 :
  Tunnelblick.get_status env w = (Ok tb, w1) ->
  Tunnelblick.state tb = Tunnelblick.CONNECTED ->
  let k := length (trace w1) in
  let ip :=
    match ipify_endpoint env k with
    | Response code text => if code =? 200 then Some (str_strip env text) else None
    | TransportError => None
    end in
  geolocation (S k) ip = Some (JsonOther true) ->
  (get_connection_status env w).1
  = Raise (AttributeError "object has no attribute 'get'").
Proof.
  intros Hget Hstate k ip Hjson.
  unfold get_connection_status. rewrite (bind_ok _ _ _ _ _ Hget), Hstate.
  unfold bind at 1. rewrite get_public_ip_run. fold k ip.
  assert (Hk2 : length (trace (interact env (EvGet "https://api.ipify.org" []) w1).2) = S k)
    by apply length_snoc.
  revert Hk2. generalize ((interact env (EvGet "https://api.ipify.org" []) w1).2).
  intros w2 Hk2.
  revert Hjson. destruct (Str.truthy_opt ip); [|discriminate]. intros Hjson.
  unfold bind at 1. unfold bind at 1. rewrite get_ip_info_run, Hk2.
  destruct (ipinfo_endpoint env _ _) as [|code [json|]]; try discriminate.
  destruct (code =? 200); [|discriminate].
  now injection Hjson as ->.
Qed.

End Reconciler.

(* ===================================================================== *)
(** * The orchestrator *)
(* ===================================================================== *)

Section Orchestrator.
Import Effects Cli.
Context (env : Env).

Abbreviation harmless := ConfigManager.harmless.

Lemma harmless_no_setup e : harmless e -> ConfigManager.is_setup e = false.
Proof. unfold ConfigManager.harmless. now intros [? ?]%orb_false_iff. Qed.

Lemma harmless_no_file_op e : harmless e -> is_file_op e = false.
Proof. unfold ConfigManager.harmless. now intros [? ?]%orb_false_iff. Qed.

Lemma bridge_is_harmless e : Tunnelblick.bridge_only e -> harmless e.
Proof. unfold Tunnelblick.bridge_only, ConfigManager.harmless. now destruct e. Qed.

Lemma get_public_ip_advances : advances harmless (Status.get_public_ip env).
Proof.
  apply advances_try; [|intros; apply advances_ret].
  apply advances_bind; [now apply advances_interact|].
  intros k. destruct (ipify_endpoint env k) as [|code text]; [apply advances_raise|].
  case_if; apply advances_ret.
Qed.

Lemma get_ip_info_advances ip : advances harmless (Status.get_ip_info env ip).
Proof.
  apply advances_try; [|intros; apply advances_ret].
  apply advances_bind; [now apply advances_interact|].
  intros k. destruct (ipinfo_endpoint env k _) as [|code [json|]];
    [apply advances_raise|case_if..];
    first [apply advances_ret|apply advances_raise].
Qed.

Lemma get_server_by_hostname_advances hostname :
  advances harmless (Client.get_server_by_hostname env hostname).
Proof.
  apply advances_bind; [now apply advances_interact|].
  intros k. apply advances_bind; [apply advances_lift|intros; apply advances_ret].
Qed.

Lemma get_connection_status_advances :
  advances harmless (Status.get_connection_status env).
Proof.
  apply advances_bind.
  { eapply advances_weaken; [apply bridge_is_harmless|apply get_status_advances]. }
  intros tb. destruct (Tunnelblick.state tb); try apply advances_ret.
  apply advances_bind; [apply get_public_ip_advances|]. intros ip.
  apply advances_bind.
  { case_if; [|apply advances_ret].
    apply advances_bind; [apply get_ip_info_advances|].
    intros [[info|[|]]|]; [case_if| | |]; first [apply advances_ret|apply advances_raise]. }
  intros [city country]. apply advances_bind; [|intros [[? ?] ?]; apply advances_ret].
  case_if; [|apply advances_ret].
  apply advances_try; [|intros; apply advances_ret].
  apply advances_bind; [apply get_server_by_hostname_advances|].
  intros [server|]; apply advances_ret.
Qed.

Lemma poll_advances fuel start timeout :
  advances harmless (Tunnelblick.poll env fuel start timeout).
Proof.
  induction fuel as [|fuel IH]; [apply advances_ret|].
  cbn [Tunnelblick.poll]. apply advances_bind; [apply advances_time|].
  intros now. case_if; [|apply advances_ret].
  apply advances_bind.
  { eapply advances_weaken; [apply bridge_is_harmless|apply get_status_advances]. }
  intros status. destruct (Tunnelblick.state status); try apply advances_ret;
    (apply advances_bind; [now apply advances_sleep|intros; exact IH]).
Qed.

Lemma run_applescript_quiet script w :
  fs (Tunnelblick._run_applescript env script w).2 = fs w.
Proof.
  destruct (run_applescript_advances env script w) as (_ & evs & Ht & Hev & Hf).
  apply Hf. eapply Forall_impl; [exact Hev|]. intros e He. now destruct e.
Qed.

Lemma initiate_starts_with_connect fuel config_name :
  starts_with (EvOsascript (Tunnelblick.connect_script config_name)) harmless
              (initiate env fuel config_name).
Proof.
  apply starts_with_bind.
  - apply starts_with_try.
    + apply starts_with_first.
      * intros w. split; [apply run_applescript_trace|apply run_applescript_quiet].
      * intros _. simpl.
        apply advances_bind; [apply advances_time|]. intros; apply poll_advances.
    + intros []; first [apply advances_ret|apply advances_raise].
  - intros [[|]|]; try apply advances_ret.
    apply advances_bind; [apply get_connection_status_advances|].
    intros; apply advances_ret.
Qed.

Lemma list_configs_harmless : advances harmless (Tunnelblick.list_configs env).
Proof. eapply advances_weaken; [apply bridge_is_harmless|apply list_configs_advances]. Qed.

Lemma find_optimal_server_advances country_code city max_load :
  advances harmless (Client.find_optimal_server env country_code city max_load).
Proof.
  apply advances_bind.
  - apply advances_bind; [|intros; apply advances_ret].
    apply advances_bind; [now apply advances_interact|intros; apply advances_lift].
  - intros [country|]; [|apply advances_ret].
    apply advances_bind; [|intros; apply advances_ret].
    apply advances_bind; [now apply advances_interact|intros; apply advances_lift].
Qed.

Lemma resolve_advances server country city :
  advances harmless (resolve env server country city).
Proof.
  unfold resolve. case_if; [apply advances_ret|].
  apply advances_bind; [apply find_optimal_server_advances|intros; apply advances_ret].
Qed.

Lemma init_advances config_dir :
  advances (fun e => ConfigManager.is_setup e = false) (ConfigManager.init env config_dir).
Proof.
  apply advances_bind; [now apply advances_file_op|intros; apply advances_ret].
Qed.

(** C5. Connecting again to a target whose configuration the GUI already
    lists sets nothing up.  When the target resolves to [hostname] and
    the GUI's list holds [hostname.udp]:
    - the bundle step is over with the listing (it returns the name in
      the world the listing left);
    - the next interaction after the listing is the GUI connect command
      for that name;
    - no interaction of the whole run is a profile download, a write
      below the staging directory or a hand-off to the GUI;
    - the file system is what the creation of the configuration manager
      (which makes sure the staging directory exists) left. *)
Theorem connect_again_skips_setup fuel server country city creds
        w manager w_i hostname w_r names w_l :
  ConfigManager.init env None w = (Ok manager, w_i) ->
  resolve env server country city w_i = (Ok (Some hostname), w_r) ->
  Tunnelblick.list_configs env w_r = (Ok names, w_l) ->
  hostname +:+ ".udp" ∈ names ->
  let run := do_connect env fuel server country city creds w in
  ensure_bundle env manager hostname creds w_r = (Ok (hostname +:+ ".udp"), w_l) /\
  (exists later,
      trace run.2
      = trace w_l ++ EvOsascript (Tunnelblick.connect_script (hostname +:+ ".udp")) :: later) /\
  (exists events,
      trace run.2 = trace w ++ events /\
      Forall (fun e => ConfigManager.is_profile_download e = false /\
                       ConfigManager.is_bundle_write e = false /\
                       ConfigManager.is_install e = false) events) /\
  fs run.2 = fs w_i.
Proof.
  intros Hinit Hres Hlist Hin run.
  assert (Hens : ensure_bundle env manager hostname creds w_r
                 = (Ok (hostname +:+ ".udp"), w_l)).
  { unfold ensure_bundle. rewrite (bind_ok _ _ _ _ _ Hlist).
    now rewrite bool_decide_eq_true_2. }
  assert (Hrun : run = initiate env fuel (hostname +:+ ".udp") w_l).
  { unfold run, do_connect.
    rewrite (bind_ok _ _ _ _ _ Hinit), (bind_ok _ _ _ _ _ Hres).
    now rewrite (bind_ok _ _ _ _ _ Hens). }
  destruct (initiate_starts_with_connect fuel (hostname +:+ ".udp") w_l)
    as (later & Tlater & Hlater & Flater).
  rewrite <- Hrun in Tlater, Flater.
  destruct (init_advances None w) as (_ & ev1 & T1 & H1 & _).
  destruct (resolve_advances server country city w_i) as (_ & ev2 & T2 & H2 & F2).
  destruct (list_configs_harmless w_r) as (_ & ev3 & T3 & H3 & F3).
  rewrite Hinit in T1. rewrite Hres in T2, F2. rewrite Hlist in T3, F3. simpl in *.
  assert (Hquiet : forall evs, Forall harmless evs ->
                               Forall (fun e => is_file_op e = false) evs).
  { intros evs Hevs. eapply Forall_impl; [exact Hevs|apply harmless_no_file_op]. }
  split; [exact Hens|]. split; [eauto|]. split.
  - exists (ev1 ++ ev2 ++ ev3 ++ EvOsascript (Tunnelblick.connect_script (hostname +:+ ".udp")) :: later).
    split.
    + rewrite Tlater, T3, T2, T1. now rewrite <- !app_assoc.
    + assert (Hsplit : forall e, ConfigManager.is_setup e = false ->
                                 ConfigManager.is_profile_download e = false /\
                                 ConfigManager.is_bundle_write e = false /\
                                 ConfigManager.is_install e = false).
      { unfold ConfigManager.is_setup. intros e [[? ?]%orb_false_iff ?]%orb_false_iff.
        auto. }
      assert (Hh : forall evs, Forall harmless evs ->
                     Forall (fun e => ConfigManager.is_profile_download e = false /\
                                      ConfigManager.is_bundle_write e = false /\
                                      ConfigManager.is_install e = false) evs).
      { intros evs Hevs. eapply Forall_impl; [exact Hevs|].
        intros e He. now apply Hsplit, harmless_no_setup. }
      repeat (apply Forall_app; split); auto.
      eapply Forall_impl; [exact H1|exact Hsplit].
  - rewrite Flater, F3, F2; auto.
Qed.

End Orchestrator.

(* ===================================================================== *)
(** * The scenarios, replayed *)
(* ===================================================================== *)

Section Replay.
Import Effects Scenario.

(** ** The selector *)

Lemma find_optimal_server_policy_s1 :
  (Client.find_optimal_server s1_env "us" None 30 empty_world).1
  = Ok (Some (Client.to_server us5090)).
Proof.
  destruct (find_optimal_server_policy s1_env empty_world "us" None 30
              [germany; united_states] eq_refl) as [_ Hfound].
  destruct (Hfound [germany] united_states [] [us5090; us5091] eq_refl)
    as (_ & _ & Hfirst & _).
  - repeat constructor. vm_compute. discriminate.
  - reflexivity.
  - reflexivity.
  - destruct (Hfirst [] us5090 [us5091] eq_refl) as (s & -> & Hs).
    + constructor.
    + vm_compute. discriminate.
    + destruct s. simpl in Hs.
      destruct Hs as (-> & -> & -> & -> & -> & -> & -> & -> & ->). reflexivity.
Defined.

Lemma find_optimal_server_city_fallback_s3 :
  Client.find_optimal_server s1_env "us" (Some "atlantis") 30 empty_world
  = Client.find_optimal_server s1_env "us" None 30 empty_world.
Proof.
  apply find_optimal_server_city_fallback.
  intros countries country recommendations _ _ [= <-].
  repeat constructor; intros c [= <-]; reflexivity.
Defined.

(** ** The bridge *)

(** C2, where the code departs from it.  With two configurations of which
    the first is CONNECTING and the second CONNECTED, [get_status] reports
    CONNECTING for the first: its loop returns at the first entry that is
    CONNECTED or CONNECTING, so a CONNECTED configuration further down the
    list is not reported. *)
Theorem get_status_stops_at_first_connecting :
  (Tunnelblick.get_status two_configs_env empty_world).1
  = Ok {| Tunnelblick.state := Tunnelblick.CONNECTING;
          Tunnelblick.config_name := Some "alpha";
          Tunnelblick.server_ip := None |}.
Proof. by_evaluation. Qed.

(** In the same world no configuration is found connected. *)
Example get_connected_config_misses_connected :
  (Tunnelblick.get_connected_config two_configs_env empty_world).1 = Ok None.
Proof. by_evaluation. Qed.

Lemma connect_without_wait_s1 :
  exists w1,
    Tunnelblick.connect s1_env 0 "us5090.nordvpn.com.udp" false 30 empty_world
    = (Ok (Some true), w1) /\
    trace w1 = trace empty_world
               ++ [EvOsascript (Tunnelblick.connect_script "us5090.nordvpn.com.udp")].
Proof.
  exists (Tunnelblick._run_applescript s1_env
            (Tunnelblick.connect_script "us5090.nordvpn.com.udp") empty_world).2.
  apply (connect_without_wait s1_env 0 "us5090.nordvpn.com.udp" 30 empty_world "true").
  by_evaluation.
Defined.

Lemma connect_wait_polls_s1 :
  let start :=
    (Tunnelblick._run_applescript s1_env
       (Tunnelblick.connect_script "us5090.nordvpn.com.udp") empty_world).2 in
  let run :=
    Tunnelblick.connect s1_env 31 "us5090.nordvpn.com.udp" true 30 empty_world in
  run.1 = Ok (Some true) /\
  exists n status,
    Tunnelblick.get_status s1_env (Tunnelblick.poll_start s1_env n start)
    = (Ok status, run.2) /\
    Tunnelblick.state status = Tunnelblick.CONNECTED.
Proof.
  intros start run.
  assert (Htrue : run.1 = Ok (Some true)) by (by_evaluation).
  split; [exact Htrue|].
  destruct (connect_wait_polls s1_env 31 "us5090.nordvpn.com.udp" 30 empty_world
              "true" start) as (_ & _ & Hsuccess & _).
  - reflexivity.
  - by_evaluation.
  - destruct (Hsuccess Htrue) as (n & status & _ & _ & Hget & Hstate). eauto.
Defined.

(** ** The bundle builder *)

(** The build of the scenario fails at the copy and leaves nothing of the
    bundle that was there but its directory. *)
Lemma build_bundle_is_not_atomic :
  let run := ConfigManager.create_tblk_package copy_fails_env staging us5090_profile
               "user" "secret" built_once in
  fs built_once !! (us5090_bundle ++ ["autoLogin"]) = Some (File EmptyString 420) /\
  run.1 = Raise (OSError "I/O error") /\
  ~ ConfigManager.bundle_intact built_once run.2 us5090_bundle.
Proof.
  split; [by_evaluation|]. split; [by_evaluation|].
  intros Hintact.
  specialize (Hintact (us5090_bundle ++ ["autoLogin"])
                      (prefix_snoc_self us5090_bundle "autoLogin")).
  vm_compute in Hintact. discriminate.
Qed.

Lemma create_tblk_package_fails_in_place_s :
  let run := ConfigManager.create_tblk_package copy_fails_env staging us5090_profile
               "user" "secret" built_once in
  fs run.2 !! (us5090_bundle ++ ["autoLogin"]) = None.
Proof.
  intros run.
  destruct (create_tblk_package_fails_in_place copy_fails_env staging us5090_profile
              "user" "secret" built_once (OSError "I/O error") run.2)
    as (_ & _ & Hgone); [by_evaluation|].
  destruct (fs run.2 !! (us5090_bundle ++ ["autoLogin"])) as [n|] eqn:E;
    [exfalso|reflexivity].
  assert (Hin : us5090_bundle ++ ["autoLogin"]
                ∈ [us5090_bundle;
                   us5090_bundle ++ ["us5090.nordvpn.com.udp.ovpn"];
                   us5090_bundle ++ ["us5090.nordvpn.com.udp.pass"]]).
  { apply Hgone.
    - exists Dir. by_evaluation.
    - intros T. apply (f_equal (@length Event)) in T. vm_compute in T. discriminate T.
    - apply prefix_snoc_self.
    - now exists n. }
  rewrite !elem_of_cons in Hin.
  destruct Hin as [H|[H|[H|H]]]; [discriminate H..|inversion H].
Defined.

Lemma pass_file_is_private_s :
  let profiled :=
    (ConfigManager.download_config copy_fails_env staging "us5090"
       (ConfigManager.init copy_fails_env None empty_world).2).2 in
  fs (ConfigManager.create_tblk_package copy_fails_env staging us5090_profile
        "user" "secret" profiled).2
     !! (us5090_bundle ++ ["us5090.nordvpn.com.udp.pass"])
  = Some (File ("user" +:+ Str.newline +:+ "secret" +:+ Str.newline) 384).
Proof.
  intros profiled.
  apply (proj1 (pass_file_is_private copy_fails_env staging "user" "secret")
               us5090_profile profiled us5090_bundle).
  by_evaluation.
Defined.

(** ** The reconciler *)

Lemma disconnected_status_makes_no_probe_s :
  Status.get_connection_status exiting_env empty_world
  = (Ok {| Status.connected := false; Status.config_name := None;
           Status.server_hostname := None; Status.public_ip := None;
           Status.country := None; Status.city := None; Status.load := None |},
     (Tunnelblick.get_status exiting_env empty_world).2).
Proof.
  apply (disconnected_status_makes_no_probe exiting_env empty_world
           (Tunnelblick.status_of Tunnelblick.DISCONNECTED None)).
  - by_evaluation.
  - discriminate.
Defined.

Lemma reconciler_is_tolerant_s6 :
  (Status.get_connection_status s6_env empty_world).1
  = Ok {| Status.connected := true;
          Status.config_name := Some "de123.nordvpn.com.udp";
          Status.server_hostname := Some "de123.nordvpn.com";
          Status.public_ip := None;
          Status.country := Some "Germany";
          Status.city := Some "Frankfurt";
          Status.load := Some 14 |}.
Proof.
  etransitivity.
  - apply (reconciler_is_tolerant s6_env empty_world
             (Tunnelblick.status_of Tunnelblick.CONNECTED (Some "de123.nordvpn.com.udp"))
             (Tunnelblick.get_status s6_env empty_world).2).
    + by_evaluation.
    + reflexivity.
    + discriminate.
  - by_evaluation.
Defined.

(** C7, where the code departs from it.  The GUI reports CONNECTED, the
    echo service gives the public address, and the geolocation service
    answers 200 with the JSON list [[1]].  [get_ip_info] returns the list,
    which is truthy, and [ip_info.get("city")] raises [AttributeError]
    outside any [try]: the reconciler ends in an error, and no status is
    returned although all that failed is the geolocation. *)
Theorem get_connection_status_raises_on_json_list :
  (Status.get_connection_status json_list_env empty_world).1
  = Raise (AttributeError "object has no attribute 'get'").
Proof. by_evaluation. Qed.

(** ** The orchestrator *)

(** S1 then S4: a first [connect --server us5090] installs the bundle and
    connects; the second finds the configuration listed and leaves the
    file system alone. *)
Lemma connect_again_skips_setup_s4 :
  (Cli.do_connect s1_env 31 (Some "us5090") None None credentials empty_world).1
  = Ok (Some true) /\
  fs (Cli.do_connect s1_env 31 (Some "us5090") None None credentials first_run).2
  = fs first_run.
Proof.
  split; [by_evaluation|].
  destruct (connect_again_skips_setup s1_env 31 (Some "us5090") None None credentials
              first_run staging
              (ConfigManager.init s1_env None first_run).2
              "us5090.nordvpn.com"
              (ConfigManager.init s1_env None first_run).2
              ["us5090.nordvpn.com.udp"]
              (Tunnelblick.list_configs s1_env
                 (ConfigManager.init s1_env None first_run).2).2)
    as (_ & _ & _ & Hfs).
  - by_evaluation.
  - by_evaluation.
  - by_evaluation.
  - constructor.
  - rewrite Hfs. by_evaluation.
Defined.

End Replay.

(* ===================================================================== *)
(** * Further properties: names and the selector *)
(* ===================================================================== *)

Section Names.
Import Effects.
Context (env : Env).

Lemma startswith_app (p s : string) : Str.startswith (p +:+ s) p = true.
Proof.
  induction p as [|a p IH]; [now destruct s|].
  change (String a p +:+ s) with (String a (p +:+ s)). simpl.
  destruct (ascii_dec a a); [exact IH|congruence].
Qed.

Lemma rev_app_app (a b c : string) :
  String.rev_app (a +:+ b) c = String.rev_app b (String.rev_app a c).
Proof.
  revert c. induction a as [|x a IH]; intros c; [reflexivity|].
  change (String x a +:+ b) with (String x (a +:+ b)). simpl. apply IH.
Qed.

Lemma append_assoc (a b c : string) : (a +:+ b) +:+ c = a +:+ (b +:+ c).
Proof.
  induction a as [|x a IH]; [reflexivity|].
  change (String x a +:+ b) with (String x (a +:+ b)).
  change (String x (a +:+ b) +:+ c) with (String x ((a +:+ b) +:+ c)).
  now rewrite IH.
Qed.

Lemma rev_app_tail (a c : string) :
  String.rev_app a c = String.rev_app a EmptyString +:+ c.
Proof.
  revert c. induction a as [|x a IH]; intros c; [reflexivity|].
  simpl. rewrite IH, (IH (String x EmptyString)).
  now rewrite append_assoc.
Qed.

Lemma endswith_app (h suffix : string) : Str.endswith (h +:+ suffix) suffix = true.
Proof.
  unfold Str.endswith, String.rev. rewrite rev_app_app, rev_app_tail.
  apply startswith_app.
Qed.

Lemma normalize_ends (hostname : string) :
  Str.endswith (ConfigManager.normalize hostname) ".nordvpn.com" = true.
Proof.
  unfold ConfigManager.normalize.
  destruct (Str.endswith hostname ".nordvpn.com") eqn:E; [exact E|apply endswith_app].
Qed.

Lemma normalize_again (hostname : string) :
  ConfigManager.normalize (ConfigManager.normalize hostname)
  = ConfigManager.normalize hostname.
Proof. unfold ConfigManager.normalize at 1. now rewrite normalize_ends. Qed.

(** X1. Normalizing a hostname twice is normalizing it once, a normalized
    hostname ends with the provider suffix, and so the short and the full
    form of a hostname give the same configuration name. *)
Theorem normalize_idempotent (hostname : string) :
  ConfigManager.normalize (ConfigManager.normalize hostname)
  = ConfigManager.normalize hostname /\
  Str.endswith (ConfigManager.normalize hostname) ".nordvpn.com" = true /\
  ConfigManager._hostname_to_config_name (ConfigManager.normalize hostname)
  = ConfigManager._hostname_to_config_name hostname.
Proof.
  split; [apply normalize_again|]. split; [apply normalize_ends|].
  unfold ConfigManager._hostname_to_config_name. now rewrite normalize_again.
Qed.

(** X2. The catalog lookup of a server sends the normalized hostname: asking
    for a hostname and asking for its normalized form are the same request,
    with the same result and the same world after it. *)
Theorem get_server_by_hostname_normalizes (hostname : string) (w : World) :
  Client.get_server_by_hostname env (ConfigManager.normalize hostname) w
  = Client.get_server_by_hostname env hostname w.
Proof.
  unfold Client.get_server_by_hostname.
  fold (ConfigManager.normalize (ConfigManager.normalize hostname)).
  fold (ConfigManager.normalize hostname).
  now rewrite normalize_again.
Qed.

End Names.

Section SelectorMore.
Import Effects Client.
Context (env : Env).

Lemma min_by_load_in rest : forall best,
  min_by_load best rest ∈ best :: rest.
Proof.
  induction rest as [|s rest IH]; intros best; simpl.
  - apply list_elem_of_here.
  - destruct (RecommendedServer.load s <? RecommendedServer.load best).
    + apply list_elem_of_further, IH.
    + specialize (IH best). rewrite elem_of_cons in IH |- *.
      destruct IH as [->|IH]; [now left|]. right. now apply list_elem_of_further.
Qed.

Lemma choose_in candidates max_load s :
  choose candidates max_load = Some s ->
  exists r, r ∈ candidates /\ s = to_server r.
Proof.
  unfold choose.
  destruct (List.find _ candidates) as [r|] eqn:E.
  - intros [= <-]. exists r. split; [|reflexivity].
    apply list_elem_of_In. now apply List.find_some in E.
  - destruct candidates as [|best rest]; [discriminate|].
    intros [= <-]. eexists. split; [apply min_by_load_in|reflexivity].
Qed.

Lemma candidates_of_in recommendations city r :
  r ∈ candidates_of env recommendations city -> r ∈ recommendations.
Proof.
  intros Hr. eapply elem_of_sublist; [exact Hr|]. apply candidates_of_sublist.
Qed.

(** The candidates all match the city when one recommendation does. *)
Lemma candidates_of_match recommendations city :
  Str.truthy city = true ->
  (exists r', r' ∈ recommendations /\ city_matches env (str_lower env city) r' = true) ->
  candidates_of env recommendations (Some city) <> [] /\
  forall r, r ∈ candidates_of env recommendations (Some city) ->
            city_matches env (str_lower env city) r = true.
Proof.
  intros Ht (r' & Hin & Hm). unfold candidates_of. simpl. rewrite Ht.
  destruct (List.filter _ recommendations) as [|x xs] eqn:E.
  - exfalso. apply list_elem_of_In in Hin.
    assert (Hf : In r' (List.filter (city_matches env (str_lower env city)) recommendations))
      by (apply List.filter_In; auto).
    rewrite E in Hf. destruct Hf.
  - split; [discriminate|]. rewrite <- E.
    intros r Hr. apply list_elem_of_In, List.filter_In in Hr. tauto.
Qed.

Lemma choose_some candidates max_load :
  candidates <> [] -> exists s, choose candidates max_load = Some s.
Proof.
  intros Hne. unfold choose. destruct (List.find _ candidates); [eauto|].
  destruct candidates; [congruence|eauto].
Qed.

(** What a run that selects a server went through. *)
Lemma find_optimal_server_inv w country_code city max_load s w' :
  find_optimal_server env country_code city max_load w = (Ok (Some s), w') ->
  exists params recommendations,
    recommendations_endpoint env (S (length (trace w))) params = Ok recommendations /\
    choose (candidates_of env recommendations city) max_load = Some s.
Proof.
  unfold find_optimal_server, get_country_by_code, get_countries, bind, interact.
  rewrite interact_for_run.
  destruct (countries_endpoint env (length (trace w))) as [countries|e]; [|discriminate].
  simpl. destruct (List.find _ countries) as [country|]; [|discriminate].
  unfold get_recommendations, bind, interact. rewrite interact_for_run. simpl.
  rewrite length_snoc.
  match goal with
  | |- context [recommendations_endpoint env ?k ?params] =>
      destruct (recommendations_endpoint env k params) as [recs|e] eqn:E
  end; [|discriminate].
  simpl. intros [= Hs _]. eauto.
Qed.

(** X3. The server the selector returns is one of the servers of the
    recommendations answer, converted with no address ([ips] empty): the
    selector never invents a server and never takes one from elsewhere. *)
Theorem find_optimal_server_picks_a_recommendation w country_code city max_load s w' :
  find_optimal_server env country_code city max_load w = (Ok (Some s), w') ->
  exists params recommendations r,
    recommendations_endpoint env (S (length (trace w))) params = Ok recommendations /\
    r ∈ recommendations /\
    Server.hostname s = RecommendedServer.hostname r /\
    Server.load s = RecommendedServer.load r /\
    Server.city s = RecommendedServer.city r /\
    Server.ips s = [].
Proof.
  intros Hrun.
  destruct (find_optimal_server_inv _ _ _ _ _ _ Hrun) as (params & recs & Hreply & Hch).
  destruct (choose_in _ _ _ Hch) as (r & Hin & ->).
  exists params, recs, r. split; [exact Hreply|].
  split; [now apply candidates_of_in in Hin|]. now repeat split.
Qed.

(** X4. When a city is asked for and, in the recommendations that the
    selector receives for the country, at least one server is in a city
    whose name contains it (ignoring case), the selector returns a server,
    and that server is in such a city, whatever the loads of the servers
    elsewhere. *)
Theorem find_optimal_server_stays_in_city w country_code city max_load
        countries country recommendations :
  Str.truthy city = true ->
  countries_endpoint env (length (trace w)) = Ok countries ->
  List.find
    (fun c => bool_decide (str_upper env (Country.code c) = str_upper env country_code))
    countries = Some country ->
  recommendations_endpoint env (S (length (trace w)))
    [("limit", PInt 20); ("filters[country_id]", PInt (Country.id country))]
    = Ok recommendations ->
  (exists r c, r ∈ recommendations /\ RecommendedServer.city r = Some c /\
               Str.contains (str_lower env (City.name c)) (str_lower env city) = true) ->
  exists s c,
    (find_optimal_server env country_code (Some city) max_load w).1 = Ok (Some s) /\
    Server.city s = Some c /\
    Str.contains (str_lower env (City.name c)) (str_lower env city) = true.
Proof.
  intros Ht Hc Hf Hr (r' & c' & Hin' & Hc' & Hm').
  destruct (candidates_of_match recommendations city Ht) as [Hne Hall].
  { exists r'. split; [exact Hin'|]. unfold city_matches. now rewrite Hc'. }
  destruct (choose_some _ max_load Hne) as [s Hch].
  destruct (choose_in _ _ _ Hch) as (r & Hin & ->).
  specialize (Hall r Hin). unfold city_matches in Hall.
  change (Server.city (to_server r)) with (RecommendedServer.city r).
  destruct (RecommendedServer.city r) as [c|] eqn:Hcity; [|discriminate].
  exists (to_server r), c. split; [|split; [exact Hcity|exact Hall]].
  rewrite (find_optimal_server_country env w country_code (Some city) max_load
             countries country recommendations Hc Hf Hr).
  now rewrite Hch.
Qed.

Lemma find_split {A} (f : A -> bool) l x :
  List.find f l = Some x ->
  exists before after,
    l = before ++ x :: after /\ Forall (fun y => f y = false) before /\ f x = true.
Proof.
  induction l as [|y l IH]; [discriminate|]. simpl.
  destruct (f y) eqn:Hy.
  - intros [= ->]. exists [], l. auto.
  - intros Hfind. destruct (IH Hfind) as (before & after & -> & Hb & Hx).
    exists (y :: before), after. auto.
Qed.

Lemma upper_lower_char (c : ascii) :
  Str.upper_char (Str.lower_char c) = Str.upper_char c.
Proof. destruct c as [[] [] [] [] [] [] [] []]; reflexivity. Qed.

Lemma upper_upper_char (c : ascii) :
  Str.upper_char (Str.upper_char c) = Str.upper_char c.
Proof. destruct c as [[] [] [] [] [] [] [] []]; reflexivity. Qed.

Lemma upper_lower (s : string) : Str.upper (Str.lower s) = Str.upper s.
Proof.
  induction s as [|c s IH]; [reflexivity|]. unfold Str.upper, Str.lower in *. simpl.
  now rewrite upper_lower_char, IH.
Qed.

Lemma upper_upper (s : string) : Str.upper (Str.upper s) = Str.upper s.
Proof.
  induction s as [|c s IH]; [reflexivity|]. unfold Str.upper in *. simpl.
  now rewrite upper_upper_char, IH.
Qed.

Lemma lower_char_ascii (c : ascii) :
  (nat_of_ascii (Str.lower_char c) <? 128)%nat = (nat_of_ascii c <? 128)%nat.
Proof. destruct c as [[] [] [] [] [] [] [] []]; reflexivity. Qed.

Lemma upper_char_ascii (c : ascii) :
  (nat_of_ascii (Str.upper_char c) <? 128)%nat = (nat_of_ascii c <? 128)%nat.
Proof. destruct c as [[] [] [] [] [] [] [] []]; reflexivity. Qed.

Lemma is_ascii_lower (s : string) : Str.is_ascii (Str.lower s) = Str.is_ascii s.
Proof.
  induction s as [|c s IH]; [reflexivity|]. unfold Str.lower in *. simpl.
  now rewrite lower_char_ascii, IH.
Qed.

Lemma is_ascii_upper (s : string) : Str.is_ascii (Str.upper s) = Str.is_ascii s.
Proof.
  induction s as [|c s IH]; [reflexivity|]. unfold Str.upper in *. simpl.
  now rewrite upper_char_ascii, IH.
Qed.

(** X5. The lookup of a country ignores the case of an ASCII code: the
    lower-case and the upper-case form of such a code give the same run as
    the code itself.  For any code, a country that is found has the asked
    code up to case (the upper-case forms are equal), and no country before
    it in the catalog's answer has. *)
Theorem get_country_by_code_ignores_case code w :
  (Str.is_ascii code = true ->
   get_country_by_code env (str_lower env code) w = get_country_by_code env code w /\
   get_country_by_code env (str_upper env code) w = get_country_by_code env code w) /\
  forall country w',
    get_country_by_code env code w = (Ok (Some country), w') ->
    str_upper env (Country.code country) = str_upper env code /\
    exists countries before after,
      countries_endpoint env (length (trace w)) = Ok countries /\
      countries = before ++ country :: after /\
      Forall (fun c => str_upper env (Country.code c) <> str_upper env code) before.
Proof.
  split.
  { intros Ha. unfold get_country_by_code.
    assert (El : str_upper env (str_lower env code) = str_upper env code).
    { unfold str_upper, str_lower. rewrite Ha, is_ascii_lower, Ha. apply upper_lower. }
    assert (Eu : str_upper env (str_upper env code) = str_upper env code).
    { unfold str_upper. rewrite Ha, is_ascii_upper, Ha. apply upper_upper. }
    now rewrite El, Eu. }
  unfold get_country_by_code.
  intros country w'. unfold get_countries, bind, interact. rewrite interact_for_run.
  destruct (countries_endpoint env (length (trace w))) as [countries|e] eqn:Hreply;
    [|discriminate].
  simpl. intros [= Hfind _].
  destruct (find_split _ _ _ Hfind) as (before & after & -> & Hbefore & Hhere).
  split; [now apply bool_decide_eq_true in Hhere|].
  exists (before ++ country :: after), before, after.
  split; [reflexivity|]. split; [reflexivity|].
  eapply Forall_impl; [exact Hbefore|]. intros c Hc. now apply bool_decide_eq_false in Hc.
Qed.

End SelectorMore.

(* ===================================================================== *)
(** * Further properties: the bridge *)
(* ===================================================================== *)

Section BridgeMore.
Import Effects Tunnelblick.
Context (env : Env).

Abbreviation states_script := (tell "get state of configurations").
Abbreviation names_script := (tell "get name of configurations").

Lemma scan_states_first_active states : forall k configs,
  let status := scan_states k states configs in
  server_ip status = None /\
  ((state status = DISCONNECTED /\ config_name status = None /\
    forall j s, states !! j = Some s -> (k + j < length configs)%nat ->
                s <> "CONNECTED" /\ s <> "CONNECTING") \/
   (exists i name label,
       (state status = CONNECTED /\ label = "CONNECTED" \/
        state status = CONNECTING /\ label = "CONNECTING") /\
       states !! i = Some label /\
       configs !! (k + i)%nat = Some name /\
       config_name status = Some name /\
       forall j s, (j < i)%nat -> states !! j = Some s -> (k + j < length configs)%nat ->
                   s <> "CONNECTED" /\ s <> "CONNECTING")).
Proof.
  induction states as [|st states IH]; intros k configs; cbn [scan_states].
  - split; [reflexivity|]. left. split; [reflexivity|]. split; [reflexivity|].
    intros j s Hj. now rewrite lookup_nil in Hj.
  - assert (Hactive : forall label state0,
               st = label -> (k <? length configs)%nat = true ->
               (state0 = CONNECTED /\ label = "CONNECTED" \/
                state0 = CONNECTING /\ label = "CONNECTING") ->
               server_ip (status_of state0 (configs !! k)) = None /\
               (exists i name label0,
                   (state (status_of state0 (configs !! k)) = CONNECTED /\ label0 = "CONNECTED" \/
                    state (status_of state0 (configs !! k)) = CONNECTING /\ label0 = "CONNECTING") /\
                   (st :: states) !! i = Some label0 /\
                   configs !! (k + i)%nat = Some name /\
                   config_name (status_of state0 (configs !! k)) = Some name /\
                   forall j s, (j < i)%nat -> (st :: states) !! j = Some s ->
                               (k + j < length configs)%nat ->
                               s <> "CONNECTED" /\ s <> "CONNECTING")).
    { intros label state0 -> Hk Hl. split; [reflexivity|].
      apply Nat.ltb_lt in Hk. destruct (lookup_lt_is_Some_2 configs k Hk) as [name Hname].
      exists O, name, label. rewrite Nat.add_0_r, Hname. simpl.
      split; [exact Hl|]. repeat split; try reflexivity; lia. }
    destruct (bool_decide (st = "CONNECTED") && (k <? length configs)%nat) eqn:E1.
    { apply andb_true_iff in E1 as [E1 Hk]. apply bool_decide_eq_true in E1.
      destruct (Hactive "CONNECTED" CONNECTED E1 Hk) as [? ?]; auto. }
    destruct (bool_decide (st = "CONNECTING") && (k <? length configs)%nat) eqn:E2.
    { apply andb_true_iff in E2 as [E2 Hk]. apply bool_decide_eq_true in E2.
      destruct (Hactive "CONNECTING" CONNECTING E2 Hk) as [? ?]; auto. }
    assert (Hskip : (k + 0 < length configs)%nat -> st <> "CONNECTED" /\ st <> "CONNECTING").
    { intros Hk. rewrite Nat.add_0_r in Hk. apply Nat.ltb_lt in Hk.
      rewrite Hk, andb_true_r in E1, E2.
      apply bool_decide_eq_false in E1, E2. auto. }
    destruct (IH (S k) configs) as [Hip [(Hs & Hn & Hall)|(i & name & label & Hl & Hi & Hc & Hn & Hall)]];
      (split; [exact Hip|]).
    + left. split; [exact Hs|]. split; [exact Hn|].
      intros [|j] s Hj Hk; [injection Hj as <-; auto|].
      apply (Hall j s Hj). lia.
    + right. exists (S i), name, label. split; [exact Hl|]. split; [exact Hi|].
      split; [now rewrite Nat.add_succ_r|]. split; [exact Hn|].
      intros [|j] s Hlt Hj Hk; [injection Hj as <-; auto|].
      apply (Hall j s); [lia|exact Hj|lia].
Qed.

(** X6. What [get_status] reports.  It never reports EXITING or SLEEPING and
    never a server address.  UNKNOWN and DISCONNECTED come without a name.
    CONNECTED or CONNECTING comes with the name that the GUI lists at the
    index of the first state entry that is CONNECTED or CONNECTING and has
    a name at its index; the state reported is that entry's. *)
Theorem get_status_reports_first_active w status w' :
  get_status env w = (Ok status, w') ->
  server_ip status = None /\
  match state status with
  | EXITING | SLEEPING => False
  | UNKNOWN | DISCONNECTED => config_name status = None
  | CONNECTED | CONNECTING =>
      exists out w1 configs i name,
        _run_applescript env states_script w = (Ok out, w1) /\
        list_configs env w1 = (Ok configs, w') /\
        List.map (str_strip env) (Str.split ","%char out) !! i
        = Some (match state status with CONNECTED => "CONNECTED" | _ => "CONNECTING" end) /\
        configs !! i = Some name /\
        config_name status = Some name /\
        forall j s, (j < i)%nat ->
                    List.map (str_strip env) (Str.split ","%char out) !! j = Some s ->
                    (j < length configs)%nat ->
                    s <> "CONNECTED" /\ s <> "CONNECTING"
  end.
Proof.
  unfold get_status, bind at 1, try_except, bind at 1.
  destruct (_run_applescript env states_script w) as [[out|e] w1] eqn:Hrun.
  - simpl. destruct (Str.truthy out); [|intros [= <- <-]; split; reflexivity].
    unfold bind. destruct (list_configs env w1) as [[configs|e] w2] eqn:Hlist;
      [|discriminate].
    intros [= <- <-].
    destruct (scan_states_first_active (List.map (str_strip env) (Str.split ","%char out)) 0 configs)
      as [Hip [(Hs & Hn & _)|(i & name & label & Hl & Hi & Hc & Hn & Hall)]].
    + split; [exact Hip|]. now rewrite Hs.
    + split; [exact Hip|].
      destruct Hl as [[Hs ->]|[Hs ->]]; rewrite Hs;
        exists out, w1, configs, i, name; simpl in *; repeat split; auto;
        eapply Hall; eauto.
  - destruct e as [msg|msg|msg|msg|msg|msg]; simpl; try discriminate.
    intros [= <- <-]. split; reflexivity.
Qed.

(** A script fails with a [TunnelblickError], or with what
    [subprocess.run] itself raised when that is neither a timeout nor a
    missing executable: such an exception is not converted. *)
Abbreviation bridge_failure :=
  (fun e : exn => is_bridge_error e \/ exists k script, osascript env k script = Crashed e).

Lemma run_applescript_raises script w e w' :
  _run_applescript env script w = (Raise e, w') ->
  is_bridge_error e \/ osascript env (length (trace w)) script = Crashed e.
Proof.
  unfold _run_applescript, bind, interact. rewrite interact_for_run.
  destruct (osascript env _ script) as [rc out err| | |crash]; cbv zeta;
    repeat case_if; intros [= <- _]; first [now right | left; eexists; reflexivity].
Qed.

Lemma list_configs_raises w e w' :
  list_configs env w = (Raise e, w') ->
  _run_applescript env names_script w = (Raise e, w').
Proof.
  unfold list_configs, bind.
  destruct (_run_applescript env names_script w) as [[out|e0] w1]; [|now intros [= <- <-]].
  case_if; unfold ret; discriminate.
Qed.

Lemma get_status_raise_inv w e w' :
  get_status env w = (Raise e, w') ->
  (~ is_bridge_error e /\ _run_applescript env states_script w = (Raise e, w')) \/
  (exists out w1,
      _run_applescript env states_script w = (Ok out, w1) /\
      Str.truthy out = true /\
      _run_applescript env names_script w1 = (Raise e, w')).
Proof.
  unfold get_status, bind at 1, try_except, bind at 1.
  destruct (_run_applescript env states_script w) as [[out|e0] w1] eqn:Hrun.
  - simpl. destruct (Str.truthy out) eqn:Ht; [|discriminate].
    unfold bind. destruct (list_configs env w1) as [[configs|e1] w2] eqn:Hlist;
      [discriminate|].
    intros [= <- <-]. apply list_configs_raises in Hlist. right. eauto.
  - destruct e0 as [msg|msg|msg|msg|msg|msg]; simpl; try discriminate;
      intros [= <- <-]; left; (split; [intros [msg' [=]]|reflexivity]).
Qed.

(** X7. The failures of [get_status].  A [TunnelblickError] of the states
    script is not raised: the answer is UNKNOWN, and the names are not asked
    for.  An empty states answer gives DISCONNECTED, again without asking
    for the names.  [get_status] raises in two cases only: the states
    script raised something that is not a [TunnelblickError] (an exception
    of [subprocess.run] that [_run_applescript] does not convert), which
    passes through; or the states script gave a non-empty answer and the
    names script then failed, and what is raised is the exception of the
    names script. *)
Theorem get_status_failures w :
  (forall msg w1,
      _run_applescript env states_script w = (Raise (TunnelblickError msg), w1) ->
      get_status env w = (Ok (status_of UNKNOWN None), w1)) /\
  (forall w1, _run_applescript env states_script w = (Ok EmptyString, w1) ->
              get_status env w = (Ok (status_of DISCONNECTED None), w1)) /\
  (forall e w', get_status env w = (Raise e, w') ->
                (~ is_bridge_error e /\
                 _run_applescript env states_script w = (Raise e, w')) \/
                (exists out w1,
                    _run_applescript env states_script w = (Ok out, w1) /\
                    Str.truthy out = true /\
                    _run_applescript env names_script w1 = (Raise e, w'))).
Proof.
  split; [|split].
  - intros msg w1 Hrun.
    unfold get_status, bind at 1, try_except, bind at 1. now rewrite Hrun.
  - intros w1 Hrun. unfold get_status, bind at 1, try_except, bind at 1.
    now rewrite Hrun.
  - apply get_status_raise_inv.
Qed.

(** X8. With [wait] and a timeout of zero seconds or less, [connect] issues
    the command and answers false at once: it makes no poll and does not
    sleep. *)
Theorem connect_with_no_time_left fuel config_name timeout w out w1 :
  timeout <= 0 ->
  _run_applescript env (connect_script config_name) w = (Ok out, w1) ->
  connect env (S fuel) config_name true timeout w = (Ok (Some false), w1).
Proof.
  intros Ht Hrun.
  transitivity (poll env (S fuel) (clock w1) timeout w1).
  { unfold connect. now rewrite (bind_ok _ _ _ _ _ Hrun). }
  rewrite poll_unfold.
  destruct (Z.ltb_spec (clock w1 - clock w1) (timeout * Z.pos (hz env))); [nia|reflexivity].
Qed.

(** ** Only [TunnelblickError] *)

Lemma raises_only_ret {A} P (a : A) : raises_only P (ret a).
Proof. intros w e w'. discriminate. Qed.

Lemma raises_only_bind {A B} P (m : M A) (k : A -> M B) :
  raises_only P m -> (forall a, raises_only P (k a)) -> raises_only P (bind m k).
Proof.
  intros Hm Hk w e w' H. apply bind_raise_inv in H as [H|(a & w1 & _ & H)].
  - exact (Hm _ _ _ H).
  - exact (Hk a _ _ _ H).
Qed.

Lemma raises_only_sleep P seconds : raises_only P (sleep env seconds).
Proof. intros w e w'. rewrite sleep_run. discriminate. Qed.

Lemma raises_only_time P : raises_only P time.
Proof. intros w e w'. discriminate. Qed.

Lemma run_applescript_raises_only script :
  raises_only bridge_failure (_run_applescript env script).
Proof.
  intros w e w' H. destruct (run_applescript_raises _ _ _ _ H) as [Hb|Hc]; eauto.
Qed.

Lemma get_status_raises_only : raises_only bridge_failure (get_status env).
Proof.
  intros w e w' H.
  apply get_status_raise_inv in H as [[_ H]|(out & w1 & _ & _ & H)];
    exact (run_applescript_raises_only _ _ _ _ H).
Qed.

Lemma poll_raises_only fuel start timeout :
  raises_only bridge_failure (poll env fuel start timeout).
Proof.
  induction fuel as [|fuel IH]; [apply raises_only_ret|].
  cbn [poll]. apply raises_only_bind; [apply raises_only_time|].
  intros now. case_if; [|apply raises_only_ret].
  apply raises_only_bind; [apply get_status_raises_only|].
  intros status. destruct (state status); try apply raises_only_ret;
    (apply raises_only_bind; [apply raises_only_sleep|intros; exact IH]).
Qed.

Lemma connect_raises_only fuel config_name wait timeout :
  raises_only bridge_failure (connect env fuel config_name wait timeout).
Proof.
  apply raises_only_bind; [apply run_applescript_raises_only|].
  intros _. case_if; [apply raises_only_ret|].
  apply raises_only_bind; [apply raises_only_time|intros; apply poll_raises_only].
Qed.

(** X9. The operations of the bridge (listing, status, connecting with or
    without waiting, disconnecting) raise nothing but a [TunnelblickError]
    or an exception that [subprocess.run] itself raised on one of their
    scripts and that is neither a timeout nor a missing executable: a
    [ValueError] for a NUL in the script, another [OSError], a decoding
    error. *)
Theorem bridge_raises_only_bridge_failures :
  raises_only bridge_failure (list_configs env) /\
  raises_only bridge_failure (get_status env) /\
  raises_only bridge_failure (get_connected_config env) /\
  (forall fuel config_name wait timeout,
      raises_only bridge_failure (connect env fuel config_name wait timeout)) /\
  raises_only bridge_failure (disconnect env) /\
  (forall config_name, raises_only bridge_failure (disconnect_config env config_name)).
Proof.
  split; [|split; [|split; [|split; [|split]]]].
  - apply raises_only_bind; [apply run_applescript_raises_only|].
    intros r. case_if; apply raises_only_ret.
  - apply get_status_raises_only.
  - apply raises_only_bind; [apply get_status_raises_only|].
    intros status. destruct (state status); apply raises_only_ret.
  - apply connect_raises_only.
  - apply raises_only_bind; [apply run_applescript_raises_only|]. intros _.
    apply raises_only_bind; [apply raises_only_sleep|]. intros _.
    apply raises_only_bind; [apply get_status_raises_only|intros; apply raises_only_ret].
  - intros config_name.
    apply raises_only_bind; [apply run_applescript_raises_only|]. intros _.
    apply raises_only_bind; [apply raises_only_sleep|intros; apply raises_only_ret].
Qed.

(** [disconnect] answers from a status taken after its pause: when it
    returns, the command had been issued without error, one second or more
    has passed since, and the answer is true exactly when the [get_status]
    made then reports DISCONNECTED.  In particular a bridge that fails at
    that point (UNKNOWN) gives false, not an error. *)
Lemma disconnect_verifies w answer w' :
  disconnect env w = (Ok answer, w') ->
  exists out w1 status,
    _run_applescript env (tell "disconnect all") w = (Ok out, w1) /\
    clock w1 + Z.pos (hz env) <= clock (sleep env 1 w1).2 /\
    get_status env (sleep env 1 w1).2 = (Ok status, w') /\
    (answer = true <-> state status = DISCONNECTED).
Proof.
  unfold disconnect. intros H.
  apply bind_ok_inv in H as (out & w1 & Hrun & H).
  apply bind_ok_inv in H as (u & w2 & Hsleep & H).
  apply bind_ok_inv in H as (status & w3 & Hget & H).
  injection H as <- <-.
  assert (w2 = (sleep env 1 w1).2) as -> by now rewrite Hsleep.
  exists out, w1, status. split; [exact Hrun|]. split.
  - rewrite sleep_run. simpl. lia.
  - split; [exact Hget|]. destruct (state status); split; congruence.
Qed.

End BridgeMore.

(* ===================================================================== *)
(** * Further properties: the reconciler *)
(* ===================================================================== *)

Section ReconcilerMore.
Import Effects Status.
Context (env : Env).

(** ** Hostnames and configuration names *)

Lemma substring_prefix (k : nat) : forall s : string,
  exists rest, s = String.substring 0 k s +:+ rest.
Proof.
  induction k as [|k IH]; intros s.
  - exists s. now destruct s.
  - destruct s as [|a s]; [now exists EmptyString|].
    destruct (IH s) as [rest Hrest]. exists rest. simpl.
    change (String a (String.substring 0 k s) +:+ rest)
      with (String a (String.substring 0 k s +:+ rest)).
    now rewrite <- Hrest.
Qed.

Lemma substring_whole_prefix (a b : string) :
  String.substring 0 (String.length a) (a +:+ b) = a.
Proof.
  induction a as [|x a IH]; [now destruct b|].
  change (String x a +:+ b) with (String x (a +:+ b)). simpl. now rewrite IH.
Qed.

Lemma substring_all (b : string) : String.substring 0 (String.length b) b = b.
Proof. induction b as [|y b IH]; [reflexivity|]. simpl. now rewrite IH. Qed.

Lemma substring_after_prefix (a b : string) :
  String.substring (String.length a) (String.length b) (a +:+ b) = b.
Proof.
  induction a as [|x a IH].
  - apply substring_all.
  - change (String x a +:+ b) with (String x (a +:+ b)). simpl. exact IH.
Qed.

Lemma lower_app (a b : string) : Str.lower (a +:+ b) = Str.lower a +:+ Str.lower b.
Proof.
  induction a as [|x a IH]; [reflexivity|].
  change (String x a +:+ b) with (String x (a +:+ b)). unfold Str.lower in *. simpl.
  rewrite IH. reflexivity.
Qed.

Lemma lower_length (a : string) : String.length (Str.lower a) = String.length a.
Proof.
  induction a as [|x a IH]; [reflexivity|]. unfold Str.lower in *. simpl. now rewrite IH.
Qed.

Lemma dot_is_no_digit (c : ascii) :
  Str.lower_char c = "."%char -> Str.is_digit c = false.
Proof. destruct c as [[] [] [] [] [] [] [] []]; solve [reflexivity|discriminate]. Qed.

Lemma count_digits_app (digits rest : string) :
  all_digits digits = true ->
  count_digits rest = O ->
  count_digits (digits +:+ rest) = String.length digits.
Proof.
  intros Hd Hr. induction digits as [|c digits IH]; [exact Hr|].
  change (String c digits +:+ rest) with (String c (digits +:+ rest)).
  simpl in *. apply andb_true_iff in Hd as [Hc Hd]. rewrite Hc. now rewrite IH.
Qed.

Lemma ascii_hostname_round_trip (a b : ascii) (digits suffix tail : string) :
  Str.is_alpha a = true -> Str.is_alpha b = true ->
  digits <> EmptyString -> all_digits digits = true ->
  Str.lower suffix = ".nordvpn.com" ->
  let hostname := String a (String b (digits +:+ suffix)) in
  ascii_hostname (hostname +:+ tail) = Some hostname.
Proof.
  intros Ha Hb Hne Hd Hs hostname.
  assert (Hlen : String.length suffix = 12%nat).
  { rewrite <- lower_length, Hs. reflexivity. }
  unfold hostname.
  change (String a (String b (digits +:+ suffix)) +:+ tail)
    with (String a (String b ((digits +:+ suffix) +:+ tail))).
  rewrite append_assoc. unfold ascii_hostname.
  assert (Hcount : count_digits (digits +:+ suffix +:+ tail) = String.length digits).
  { apply count_digits_app; [exact Hd|].
    destruct suffix as [|c suffix]; [discriminate|].
    change (String c suffix +:+ tail) with (String c (suffix +:+ tail)). simpl.
    unfold Str.lower in Hs. simpl in Hs. injection Hs as Hc _.
    now rewrite (dot_is_no_digit c Hc). }
  rewrite Hcount, Ha, Hb.
  assert (Hpos : (0 <? String.length digits)%nat = true).
  { destruct digits; [congruence|reflexivity]. }
  rewrite Hpos.
  replace (String.length (digits +:+ suffix +:+ tail) - String.length digits)%nat
    with (String.length (suffix +:+ tail)) by (rewrite !length_append; lia).
  rewrite substring_after_prefix, lower_app, Hs, startswith_app. simpl.
  f_equal. f_equal. f_equal.
  rewrite <- append_assoc.
  replace (String.length digits + 12)%nat with (String.length (digits +:+ suffix))
    by (rewrite length_append; lia).
  apply substring_whole_prefix.
Qed.

(** X10. A configuration name gives back the hostname it was made from.  For
    every hostname made of two letters, one digit or more and the provider
    suffix (in any case), the hostname is extracted from the hostname
    followed by anything; in particular from the configuration name that
    [_hostname_to_config_name] gives for it. *)
Theorem extract_hostname_round_trip (a b : ascii) (digits suffix tail : string) :
  Str.is_alpha a = true -> Str.is_alpha b = true ->
  digits <> EmptyString -> all_digits digits = true ->
  Str.lower suffix = ".nordvpn.com" ->
  let hostname := String a (String b (digits +:+ suffix)) in
  _extract_hostname_from_config env (hostname +:+ tail) = Some hostname /\
  (suffix = ".nordvpn.com" ->
   _extract_hostname_from_config env (ConfigManager._hostname_to_config_name hostname)
   = Some hostname).
Proof.
  intros Ha Hb Hne Hd Hs hostname.
  assert (Hmain : forall tail',
             _extract_hostname_from_config env (hostname +:+ tail') = Some hostname).
  { intros tail'. unfold _extract_hostname_from_config, hostname.
    now rewrite (ascii_hostname_round_trip a b digits suffix tail' Ha Hb Hne Hd Hs). }
  split; [apply Hmain|].
  intros ->. unfold ConfigManager._hostname_to_config_name, ConfigManager.normalize.
  replace (Str.endswith hostname ".nordvpn.com") with true; [apply Hmain|].
  symmetry. unfold hostname.
  change (String a (String b (digits +:+ ".nordvpn.com")))
    with (String a (String b EmptyString) +:+ (digits +:+ ".nordvpn.com")).
  rewrite <- append_assoc. apply endswith_app.
Qed.

(** ** Failures *)

Lemma raises_only_try {A} P (m : M A) (h : exn -> M A) :
  (forall e, raises_only P (h e)) -> raises_only P (try_except m h).
Proof.
  intros Hh w e w'. unfold try_except.
  destruct (m w) as [[a|e0] w1]; [discriminate|]. apply Hh.
Qed.

(** The one failure of the probes that is raised: the geolocation service
    answered 200 with a JSON value that is neither an object nor empty, on
    which [ip_info.get] raises. *)
Abbreviation geolocation_misfit :=
  (fun e : exn =>
     e = AttributeError "object has no attribute 'get'" /\
     exists k url, ipinfo_endpoint env k url = Response 200 (Some (JsonOther true))).

(** Once the GUI has answered, the reconciler raises for nothing else. *)
Lemma reconcile_raises_only tb :
  raises_only geolocation_misfit
    (match Tunnelblick.state tb with
     | Tunnelblick.CONNECTED =>
         let config_name := Tunnelblick.config_name tb in
         let hostname :=
           match config_name with
           | Some name =>
               if Str.truthy name then _extract_hostname_from_config env name else None
           | None => None
           end in
         public_ip <- get_public_ip env ;;
         located <-
           (if Str.truthy_opt public_ip then
              ip_info <- get_ip_info env (default EmptyString public_ip) ;;
              match ip_info with
              | Some (JsonObject info) =>
                  if bool_decide (info <> ∅)
                  then ret (info !! "city", info !! "country")
                  else ret (None, None)
              | Some (JsonOther true) =>
                  raise (AttributeError "object has no attribute 'get'")
              | Some (JsonOther false) | None => ret (None, None)
              end
            else ret (None, None)) ;;
         let '(city, country) := located in
         looked_up <-
           (if Str.truthy_opt hostname then
              try_except
                (server <- Client.get_server_by_hostname env
                             (default EmptyString hostname) ;;
                 match server with
                 | Some server =>
                     ret (Some (Server.load server),
                          backfill city (City.name <$> Server.city server),
                          backfill country (Country.name <$> Server.country server))
                 | None => ret (None, city, country)
                 end)
                (fun _ => ret (None, city, country))
            else ret (None, city, country)) ;;
         let '(load, city, country) := looked_up in
         ret {| connected := true;
                config_name := config_name;
                server_hostname := hostname;
                public_ip := public_ip;
                country := country;
                city := city;
                load := load |}
     | _ => ret disconnected
     end).
Proof.
  destruct (Tunnelblick.state tb); try apply raises_only_ret.
  cbv zeta. apply raises_only_bind.
  { apply raises_only_try. intros; apply raises_only_ret. }
  intros ip. apply raises_only_bind.
  { case_if; [|apply raises_only_ret].
    intros w0 e0 w0' H. unfold bind in H. rewrite get_ip_info_run in H.
    destruct (ipinfo_endpoint env _ _) as [|code [[info|[|]]|]] eqn:E;
      try discriminate H.
    all: destruct (code =? 200) eqn:Hc; try discriminate H.
    - case_if_in H; discriminate H.
    - apply Z.eqb_eq in Hc. subst code. injection H as <- _. eauto. }
  intros [city country]. apply raises_only_bind; [|intros [[? ?] ?]; apply raises_only_ret].
  case_if; [|apply raises_only_ret].
  apply raises_only_try. intros; apply raises_only_ret.
Qed.

Lemma get_connection_status_raise_inv w e w' :
  get_connection_status env w = (Raise e, w') ->
  Tunnelblick.get_status env w = (Raise e, w') \/
  (exists tb w1, Tunnelblick.get_status env w = (Ok tb, w1) /\
                 Tunnelblick.state tb = Tunnelblick.CONNECTED) /\
  geolocation_misfit e.
Proof.
  unfold get_connection_status. intros H.
  apply bind_raise_inv in H as [H|(tb & w1 & Hget & H)]; [now left|].
  right. split; [|exact (reconcile_raises_only tb _ _ _ H)].
  exists tb, w1. split; [exact Hget|].
  destruct (Tunnelblick.state tb); try discriminate H. reflexivity.
Qed.

Lemma extracted_hostname_is_prefix name h :
  _extract_hostname_from_config env name = Some h -> exists rest, name = h +:+ rest.
Proof.
  unfold _extract_hostname_from_config.
  destruct (ascii_hostname name) as [h'|] eqn:E.
  - intros [= <-]. unfold ascii_hostname in E.
    destruct name as [|a [|b rest]]; try discriminate.
    revert E. case_if; [|discriminate]. intros [= <-].
    destruct (substring_prefix (count_digits rest + 12) rest) as [rest' Hrest].
    exists rest'. simpl.
    change (String a (String b (String.substring 0 (count_digits rest + 12) rest)) +:+ rest')
      with (String a (String b (String.substring 0 (count_digits rest + 12) rest +:+ rest'))).
    now rewrite <- Hrest.
  - destruct (Str.is_ascii name); [discriminate|].
    destruct (unicode_hostname_end env name) as [n|]; [|discriminate].
    intros [= <-]. apply substring_prefix.
Qed.

(** X11. The reconciled status is well formed, and the reconciler fails only
    with the GUI or on a geolocation answer of the wrong kind.  When it
    raises, either it is [get_status] that raised (the same exception, in
    the same world), or the GUI reported CONNECTED and the geolocation
    service answered 200 with a JSON value that is neither an object nor
    empty, on which [ip_info.get] raises [AttributeError]; no other failure
    of a probe is raised.  When it reports a connection, the configuration
    name is present, and a server hostname that is present is a non-empty
    prefix of that name. *)
Theorem connection_status_well_formed w :
  (forall e w', get_connection_status env w = (Raise e, w') ->
                Tunnelblick.get_status env w = (Raise e, w') \/
                (exists tb w1, Tunnelblick.get_status env w = (Ok tb, w1) /\
                               Tunnelblick.state tb = Tunnelblick.CONNECTED) /\
                e = AttributeError "object has no attribute 'get'" /\
                exists k url,
                  ipinfo_endpoint env k url = Response 200 (Some (JsonOther true))) /\
  (forall status w', get_connection_status env w = (Ok status, w') ->
                     connected status = true ->
                     exists name,
                       config_name status = Some name /\
                       forall hostname, server_hostname status = Some hostname ->
                                        Str.truthy hostname = true /\
                                        exists rest, name = hostname +:+ rest).
Proof.
  split.
  - intros e w' H. exact (get_connection_status_raise_inv _ _ _ H).
  - intros status w' H Hconn. unfold get_connection_status in H.
    apply bind_ok_inv in H as (tb & w1 & Hget & H).
    destruct (Tunnelblick.state tb) eqn:Hstate;
      try (injection H as <- _; discriminate Hconn).
    assert (Hname : exists name, Tunnelblick.config_name tb = Some name).
    { unfold Tunnelblick.get_status in Hget.
      apply bind_ok_inv in Hget as ([out|] & w0 & _ & Hget);
        [|injection Hget as <- _; discriminate Hstate].
      destruct (Str.truthy out); [|injection Hget as <- _; discriminate Hstate].
      apply bind_ok_inv in Hget as (configs & w2 & _ & Hget). injection Hget as <- _.
      destruct (scan_states_first_active
                  (List.map (str_strip env) (Str.split ","%char out)) 0 configs)
        as [_ [(Hs & _)|(i & name & label & _ & _ & _ & Hn & _)]]; [congruence|eauto]. }
    destruct Hname as [name Hname]. rewrite Hname in H. cbv zeta in H.
    apply bind_ok_inv in H as (ip & w2 & _ & H).
    apply bind_ok_inv in H as ([city country] & w3 & _ & H).
    apply bind_ok_inv in H as ([[load city'] country'] & w4 & _ & H).
    injection H as <- _. simpl. exists name. split; [reflexivity|].
    intros hostname Hh. destruct (Str.truthy name); [|discriminate].
    split; [exact (extracted_hostname_is_truthy _ _ _ Hh)|].
    exact (extracted_hostname_is_prefix _ _ Hh).
Qed.

End ReconcilerMore.

(* ===================================================================== *)
(** * Further properties: the staging directory and the bundles *)
(* ===================================================================== *)

Section BundlesMore.
Import Effects ConfigManager.
Context (env : Env).

(** ** Well-formed file systems *)

Lemma is_dir_snoc (f : gmap path node) (p : path) (x : string) :
  is_dir f (p ++ [x]) = true <-> f !! (p ++ [x]) = Some Dir.
Proof.
  unfold is_dir. rewrite stat_snoc.
  destruct (f !! (p ++ [x])) as [[]|]; split; congruence.
Qed.

Lemma stat_cons (f : gmap path node) c a : stat f (c :: a) = f !! (c :: a).
Proof. reflexivity. Qed.

Lemma is_dir_insert (f : gmap path node) a p n :
  is_dir f a = true -> (f !! p = Some Dir -> n = Dir) ->
  is_dir (<[p := n]> f) a = true.
Proof.
  destruct a as [|c a]; [reflexivity|]. unfold is_dir. rewrite !stat_cons.
  destruct (f !! (c :: a)) as [[]|] eqn:E; try (intros [=]; fail). intros _ Hn.
  destruct (decide (p = c :: a)) as [->|Hne].
  - now rewrite lookup_insert_eq, (Hn E).
  - now rewrite lookup_insert_ne, E.
Qed.

Lemma well_formed_insert (f : gmap path node) p n :
  well_formed f -> is_dir f (parent p) = true -> (f !! p = Some Dir -> n = Dir) ->
  well_formed (<[p := n]> f).
Proof.
  intros Hwf Hpar Hn q n' Hq. destruct (decide (p = q)) as [<-|Hne].
  - now apply is_dir_insert.
  - rewrite lookup_insert_ne in Hq by done.
    apply is_dir_insert; [now apply (Hwf q n')|done].
Qed.

Lemma well_formed_ancestor (f : gmap path node) p :
  well_formed f -> forall l, is_dir f (p ++ l) = true -> is_dir f p = true.
Proof.
  intros Hwf l. induction l as [|x l IH] using rev_ind.
  - now rewrite app_nil_r.
  - rewrite app_assoc. intros H. apply is_dir_snoc in H. apply Hwf in H.
    rewrite parent_snoc in H. auto.
Qed.

Lemma well_formed_below (f : gmap path node) (p : path) (x : string) :
  well_formed f -> f !! (p ++ [x]) = None ->
  forall q, p ++ [x] `prefix_of` q -> f !! q = None.
Proof.
  intros Hwf Hnone q [l ->]. induction l as [|y l IH] using rev_ind.
  - now rewrite app_nil_r.
  - rewrite app_assoc. destruct (f !! (((p ++ [x]) ++ l) ++ [y])) as [n|] eqn:E; [|done].
    apply Hwf in E. rewrite parent_snoc in E.
    apply (well_formed_ancestor f (p ++ [x]) Hwf l) in E.
    apply is_dir_snoc in E. congruence.
Qed.

Lemma well_formed_removal (f : gmap path node) p :
  well_formed f ->
  well_formed (filter (fun kv : path * node => ¬ p `prefix_of` kv.1) f).
Proof.
  intros Hwf q n Hq. apply map_lookup_filter_Some in Hq as [Hq Hout]. simpl in Hout.
  pose proof (Hwf q n Hq) as Hpar.
  destruct (parent q) as [|c a] eqn:Ea; [reflexivity|].
  unfold is_dir in *. rewrite stat_cons in *.
  destruct (f !! (c :: a)) as [[]|] eqn:E; try discriminate. clear Hpar.
  assert (Hin : (filter (fun kv : path * node => ¬ p `prefix_of` kv.1) f) !! (c :: a)
                = Some Dir).
  { apply map_lookup_filter_Some. split; [exact E|]. simpl. intros Hpre. apply Hout.
    transitivity (c :: a); [exact Hpre|].
    rewrite <- Ea. unfold parent.
    destruct (exists_last (l := q)) as (q' & y & ->).
    - intros ->. discriminate Ea.
    - rewrite removelast_last. apply prefix_snoc_self. }
  now rewrite Hin.
Qed.

Lemma removal_of_nothing (f : gmap path node) p :
  (forall q : path, p `prefix_of` q -> f !! q = None) ->
  filter (fun kv : path * node => ¬ p `prefix_of` kv.1) f = f.
Proof.
  intros Hnone. apply map_eq. intros q.
  destruct (f !! q) as [n|] eqn:E.
  - apply map_lookup_filter_Some. split; [exact E|]. simpl. intros Hpre.
    pose proof (Hnone q Hpre) as Hq. unfold path in *. congruence.
  - apply map_lookup_filter_None. now left.
Qed.

(** ** The staging directory *)

Lemma makedirs_from_ok rest : forall pre f f',
  is_dir f pre = true ->
  makedirs_from pre rest f = Ok f' ->
  is_dir f' (pre ++ rest) = true /\
  (forall q n, f !! q = Some n -> f' !! q = Some n) /\
  (forall q n, f' !! q = Some n -> f !! q = None -> n = Dir /\ q `prefix_of` pre ++ rest) /\
  (well_formed f -> well_formed f').
Proof.
  induction rest as [|c rest IH]; intros pre f f' Hpre H; simpl in H.
  - injection H as <-. rewrite app_nil_r. repeat split; auto; congruence.
  - rewrite stat_snoc in H.
    replace (pre ++ c :: rest) with ((pre ++ [c]) ++ rest) by (now rewrite <- app_assoc).
    destruct (f !! (pre ++ [c])) as [[|]|] eqn:E; [discriminate| |].
    + apply IH in H; [exact H|now apply is_dir_snoc].
    + apply IH in H as (Hd & Hkeep & Hnew & Hwf); [|apply is_dir_snoc, lookup_insert_eq].
      split; [exact Hd|]. split; [|split].
      * intros q n Hq. apply Hkeep. unfold path in *.
        rewrite lookup_insert_ne; [done|congruence].
      * intros q n Hq Hnone. destruct (decide (q = pre ++ [c])) as [->|Hne].
        -- pose proof (Hkeep (pre ++ [c]) Dir (lookup_insert_eq _ _ _)) as Hc.
           unfold path in *. split; [congruence|]. now exists rest.
        -- apply Hnew; [done|]. now rewrite lookup_insert_ne.
      * intros Hf. apply Hwf, well_formed_insert; [done|now rewrite parent_snoc|congruence].
Qed.

Lemma makedirs_from_present rest : forall pre f,
  well_formed f -> is_dir f (pre ++ rest) = true -> makedirs_from pre rest f = Ok f.
Proof.
  induction rest as [|c rest IH]; intros pre f Hwf Hd; [reflexivity|]. simpl.
  replace (pre ++ c :: rest) with ((pre ++ [c]) ++ rest) in Hd by (now rewrite <- app_assoc).
  pose proof (well_formed_ancestor _ _ Hwf _ Hd) as Hc.
  rewrite stat_snoc. apply is_dir_snoc in Hc. rewrite Hc. now apply IH.
Qed.

(** X12. Creating a configuration manager makes its staging directory and
    touches nothing else.  When it returns, its one interaction is the
    [mkdir -p] of the staging directory (the given one, or [configs] under
    the working directory), that path is a directory, every entry that was
    there is kept as it was, and every new entry is a directory on the way to
    the staging directory.  A well-formed file system stays well formed, and
    is not changed at all when the staging directory is already there. *)
Theorem init_makes_the_staging_directory config_dir w self w' :
  init env config_dir w = (Ok self, w') ->
  let dir := default (cwd env ++ ["configs"]) config_dir in
  ConfigManager.config_dir self = dir /\
  trace w' = trace w ++ [EvFs (MakeDirs dir)] /\
  is_dir (fs w') dir = true /\
  (forall q n, fs w !! q = Some n -> fs w' !! q = Some n) /\
  (forall q n, fs w' !! q = Some n -> fs w !! q = None -> n = Dir /\ q `prefix_of` dir) /\
  (well_formed (fs w) ->
   well_formed (fs w') /\ (is_dir (fs w) dir = true -> fs w' = fs w)).
Proof.
  unfold init. cbv zeta. intros H.
  apply bind_ok_inv in H as (u & w1 & Hmk & H). injection H as <- <-.
  apply file_op_ok in Hmk as [Hfs Htr]. simpl in Hfs.
  pose proof (makedirs_from_ok _ [] _ _ eq_refl Hfs) as (Hd & Hkeep & Hnew & Hwf).
  simpl in Hd, Hnew.
  split; [reflexivity|]. split; [exact Htr|]. split; [exact Hd|].
  split; [exact Hkeep|]. split; [exact Hnew|].
  intros Hw. split; [now apply Hwf|].
  intros Hthere. pose proof (makedirs_from_present _ [] _ Hw Hthere) as Hsame.
  simpl in Hsame. congruence.
Qed.

(** ** A build that completes *)

Lemma removal_clears (f : gmap path node) p (q : path) :
  p `prefix_of` q ->
  filter (fun kv : path * node => ¬ p `prefix_of` kv.1) f !! q = None.
Proof. intros Hq. apply map_lookup_filter_None. right. intros n _ Hn. now apply Hn. Qed.

Lemma removal_outside (f : gmap path node) p (q : path) :
  ¬ p `prefix_of` q ->
  filter (fun kv : path * node => ¬ p `prefix_of` kv.1) f !! q = f !! q.
Proof.
  intros Hq. destruct (f !! q) as [n|] eqn:E.
  - now apply map_lookup_filter_Some.
  - apply map_lookup_filter_None. now left.
Qed.

Lemma is_dir_outside (f : gmap path node) p (q : path) :
  ¬ p `prefix_of` q ->
  is_dir (filter (fun kv : path * node => ¬ p `prefix_of` kv.1) f) q = is_dir f q.
Proof.
  intros Hq. destruct q as [|c q]; [reflexivity|]. unfold is_dir.
  rewrite !stat_cons. now rewrite removal_outside.
Qed.

Lemma snoc_not_prefix (p : path) (x : string) : ¬ p ++ [x] `prefix_of` p.
Proof.
  intros [l E]. apply (f_equal (@length string)) in E.
  rewrite !length_app in E. simpl in E. lia.
Qed.

Lemma removal_ok (p : path) (x : string) (f f' : gmap path node) :
  do_fs_op env (Rmtree (p ++ [x])) f = Ok f' ->
  f' = filter (fun kv : path * node => ¬ p ++ [x] `prefix_of` kv.1) f.
Proof. simpl. destruct (stat f (p ++ [x])) as [[]|]; try discriminate. now intros [= <-]. Qed.

Lemma mkdir_ok (p : path) (x : string) (f f' : gmap path node) :
  do_fs_op env (Mkdir (p ++ [x])) f = Ok f' ->
  is_dir f p = true /\ f' = <[p ++ [x] := Dir]> f.
Proof.
  simpl. rewrite parent_snoc. destruct (stat f (p ++ [x])); [discriminate|].
  destruct (is_dir f p); [|discriminate]. now intros [= <-].
Qed.

Lemma copy2_ok (src p : path) (x : string) (f f' : gmap path node) :
  f !! (p ++ [x]) = None ->
  do_fs_op env (Copy2 src (p ++ [x])) f = Ok f' ->
  exists content mode,
    f !! src = Some (File content mode) /\
    f' = <[p ++ [x] := File content mode]> f.
Proof.
  intros Hn H. simpl in H.
  assert (Hd : is_dir f (p ++ [x]) = false).
  { unfold is_dir. rewrite stat_snoc. unfold path in *. now rewrite Hn. }
  destruct src as [|c src]; [discriminate|]. rewrite stat_cons in H.
  destruct (f !! (c :: src)) as [[content mode|]|] eqn:E; try discriminate.
  rewrite Hd in H. rewrite Hd in H. case_if_in H; [|discriminate].
  injection H as <-. eauto.
Qed.

Lemma write_ok (p : path) (x : string) (content : string) (f f' : gmap path node) :
  do_fs_op env (WriteBytes (p ++ [x]) content) f = Ok f' ->
  (well_formed f -> is_dir f p = true) /\
  (forall q : path, f !! q = Some Dir -> q <> p ++ [x]) /\
  exists mode, f' = <[p ++ [x] := File content mode]> f.
Proof.
  simpl. rewrite stat_snoc, parent_snoc.
  destruct (f !! (p ++ [x])) as [[c m|]|] eqn:E; [|discriminate|].
  - intros [= <-]. split; [|split; [|eauto]].
    + intros Hwf. apply Hwf in E. now rewrite parent_snoc in E.
    + intros q Hq ->. unfold path in *. congruence.
  - destruct (is_dir f p) eqn:Ed; [|discriminate]. intros [= <-].
    split; [auto|]. split; [|eauto]. intros q Hq ->. unfold path in *. congruence.
Qed.

Lemma touch_fresh (p : path) (x : string) (f f' : gmap path node) :
  f !! (p ++ [x]) = None ->
  do_fs_op env (Touch (p ++ [x])) f = Ok f' ->
  exists mode, f' = <[p ++ [x] := File EmptyString mode]> f.
Proof.
  intros Hn H. simpl in H. rewrite stat_snoc, parent_snoc in H.
  unfold path in *. rewrite Hn in H.
  destruct (is_dir f p); [|discriminate]. injection H as <-. eauto.
Qed.

(** The file system that a completed build leaves, in full. *)
Lemma create_tblk_package_complete self ovpn_path username password w tblk_path w' :
  well_formed (fs w) ->
  basename ovpn_path <> stem (basename ovpn_path) +:+ ".pass" ->
  basename ovpn_path <> "autoLogin" ->
  create_tblk_package env self ovpn_path username password w = (Ok tblk_path, w') ->
  tblk_path = config_dir self ++ [stem (basename ovpn_path) +:+ ".tblk"] /\
  is_dir (fs w) (config_dir self) = true /\
  exists content mode marker_mode,
    fs w !! ovpn_path = Some (File content mode) /\
    fs w' = <[tblk_path ++ ["autoLogin"] := File EmptyString marker_mode]>
              (<[tblk_path ++ [stem (basename ovpn_path) +:+ ".pass"]
                   := File (pass_text username password) 384]>
                 (<[tblk_path ++ [basename ovpn_path] := File content mode]>
                    (<[tblk_path := Dir]>
                       (filter (fun kv : path * node => ¬ tblk_path `prefix_of` kv.1)
                               (fs w))))).
Proof.
  intros Hwf Hpass Hmarker H. unfold create_tblk_package in H.
  set (D := config_dir self) in *.
  set (b := stem (basename ovpn_path) +:+ ".tblk") in *.
  set (pass := stem (basename ovpn_path) +:+ ".pass") in *.
  set (x := basename ovpn_path) in *.
  apply bind_ok_inv in H as (present & w0 & Hex & H).
  injection Hex as Hpresent <-.
  apply bind_ok_inv in H as (u1 & w1 & Hrm & H).
  apply bind_ok_inv in H as (u2 & w2 & Hmk & H).
  apply bind_ok_inv in H as (u3 & w3 & Hcp & H).
  apply bind_ok_inv in H as (u4 & w4 & Hwr & H).
  apply bind_ok_inv in H as (u5 & w5 & Hch & H).
  apply bind_ok_inv in H as (u6 & w6 & Hto & H).
  injection H as <- <-.
  split; [reflexivity|].
  assert (H1 : fs w1 = filter (fun kv : path * node => ¬ D ++ [b] `prefix_of` kv.1) (fs w)).
  { destruct present.
    - apply file_op_ok in Hrm as [Hrm _]. now apply removal_ok in Hrm.
    - injection Hrm as _ <-. symmetry. apply removal_of_nothing.
      apply well_formed_below; [exact Hwf|].
      apply bool_decide_eq_false in Hpresent. rewrite stat_snoc in Hpresent.
      destruct (fs w !! (D ++ [b])) as [n|] eqn:E; [|reflexivity].
      destruct Hpresent. eauto. }
  apply file_op_ok in Hmk as [Hmk _], Hcp as [Hcp _], Hwr as [Hwr _],
      Hch as [Hch _], Hto as [Hto _].
  apply mkdir_ok in Hmk as [HD H2].
  rewrite H1 in HD. rewrite is_dir_outside in HD by apply snoc_not_prefix.
  split; [exact HD|].
  rewrite H1 in H2. clear H1.
  assert (Hclear : forall q : path,
             D ++ [b] `prefix_of` q -> D ++ [b] <> q -> fs w2 !! q = None).
  { intros q Hq Hne. rewrite H2, lookup_insert_ne by done. now apply removal_clears. }
  assert (Hunder : forall y : string, fs w2 !! ((D ++ [b]) ++ [y]) = None).
  { intros y. apply Hclear; [apply prefix_snoc_self|].
    intros E. symmetry in E. now apply snoc_not_self in E. }
  apply copy2_ok in Hcp as (content & mode & Hsrc & H3); [|apply Hunder].
  apply write_text_ok in Hwr as [mode4 H4].
  apply (chmod_ok _ _ _ _ _ _ (pass_text username password) mode4) in Hch;
    [|rewrite H4; apply lookup_insert_eq].
  rewrite H4, insert_insert_eq in Hch. clear H4.
  apply touch_fresh in Hto as [marker_mode H6].
  2:{ rewrite Hch, lookup_insert_ne by (apply snoc_inj_ne, pass_is_not_marker).
      rewrite H3, lookup_insert_ne by (apply snoc_inj_ne, Hmarker).
      apply Hunder. }
  exists content, mode, marker_mode. split.
  - rewrite H2 in Hsrc.
    destruct (decide (D ++ [b] = ovpn_path)) as [E|Hne].
    + rewrite <- E, lookup_insert_eq in Hsrc. discriminate.
    + rewrite lookup_insert_ne in Hsrc by done.
      now apply map_lookup_filter_Some in Hsrc as [Hsrc _].
  - rewrite H6, Hch, H3, H2. reflexivity.
Qed.

(** The entries that a completed build leaves. *)
Lemma create_tblk_package_result self ovpn_path username password w tblk_path w' :
  well_formed (fs w) ->
  basename ovpn_path <> stem (basename ovpn_path) +:+ ".pass" ->
  basename ovpn_path <> "autoLogin" ->
  create_tblk_package env self ovpn_path username password w = (Ok tblk_path, w') ->
  let config_dest := tblk_path ++ [basename ovpn_path] in
  let pass_file := tblk_path ++ [stem (basename ovpn_path) +:+ ".pass"] in
  let marker := tblk_path ++ ["autoLogin"] in
  tblk_path = config_dir self ++ [stem (basename ovpn_path) +:+ ".tblk"] /\
  (exists content mode,
      fs w !! ovpn_path = Some (File content mode) /\
      fs w' !! config_dest = Some (File content mode)) /\
  fs w' !! tblk_path = Some Dir /\
  fs w' !! pass_file = Some (File (pass_text username password) 384) /\
  (exists mode, fs w' !! marker = Some (File EmptyString mode)) /\
  (forall q : path, tblk_path `prefix_of` q -> is_Some (fs w' !! q) ->
                    q ∈ [tblk_path; config_dest; pass_file; marker]) /\
  same_outside tblk_path (fs w) (fs w') /\
  well_formed (fs w').
Proof.
  intros Hwf Hpass Hmarker H.
  destruct (create_tblk_package_complete _ _ _ _ _ _ _ Hwf Hpass Hmarker H)
    as (HB & HD & content & mode & marker_mode & Hsrc & Hfs).
  cbv zeta. split; [exact HB|]. clear H.
  set (x := basename ovpn_path) in *.
  set (pass := stem x +:+ ".pass") in *.
  set (b := stem x +:+ ".tblk") in *.
  set (D := config_dir self) in *. subst tblk_path.
  set (B := D ++ [b]) in *.
  assert (N1 : B ++ ["autoLogin"] <> B ++ [pass]).
  { apply snoc_inj_ne. intros E. symmetry in E. now apply pass_is_not_marker in E. }
  assert (N2 : B ++ ["autoLogin"] <> B ++ [x]) by (apply snoc_inj_ne; congruence).
  assert (N3 : B ++ [pass] <> B ++ [x]) by (apply snoc_inj_ne; congruence).
  assert (N4 : forall y : string, B ++ [y] <> B) by (intros y; apply snoc_not_self).
  assert (Hroot : fs w' !! B = Some Dir).
  { rewrite Hfs. rewrite !lookup_insert_ne by apply N4. apply lookup_insert_eq. }
  assert (Hcopy : fs w' !! (B ++ [x]) = Some (File content mode)).
  { rewrite Hfs. rewrite !lookup_insert_ne by done. apply lookup_insert_eq. }
  assert (Hcred : fs w' !! (B ++ [pass]) = Some (File (pass_text username password) 384)).
  { rewrite Hfs. rewrite lookup_insert_ne by done. apply lookup_insert_eq. }
  assert (Hmark : fs w' !! (B ++ ["autoLogin"]) = Some (File EmptyString marker_mode)).
  { rewrite Hfs. apply lookup_insert_eq. }
  split; [eauto|]. split; [exact Hroot|]. split; [exact Hcred|]. split; [eauto|].
  split; [|split].
  - intros q Hq [n Hn].
    destruct (decide (q = B)) as [->|Q1]; [set_solver|].
    destruct (decide (q = B ++ [x])) as [->|Q2]; [set_solver|].
    destruct (decide (q = B ++ [pass])) as [->|Q3]; [set_solver|].
    destruct (decide (q = B ++ ["autoLogin"])) as [->|Q4]; [set_solver|].
    rewrite Hfs in Hn. rewrite !lookup_insert_ne in Hn by congruence.
    rewrite removal_clears in Hn by done. discriminate.
  - intros q Hq. rewrite Hfs.
    rewrite !lookup_insert_ne; [now apply removal_outside| | | |];
      intros <-; apply Hq; try apply prefix_snoc_self; reflexivity.
  - rewrite Hfs.
    assert (W1 : well_formed (<[B := Dir]>
                   (filter (fun kv : path * node => ¬ B `prefix_of` kv.1) (fs w)))).
    { apply well_formed_insert; [now apply well_formed_removal| |done].
      unfold B. rewrite parent_snoc, is_dir_outside by apply snoc_not_prefix. exact HD. }
    assert (D1 : is_dir (<[B := Dir]>
                   (filter (fun kv : path * node => ¬ B `prefix_of` kv.1) (fs w))) B = true).
    { apply is_dir_snoc, lookup_insert_eq. }
    apply well_formed_insert; [apply well_formed_insert; [apply well_formed_insert| |]| |].
    + exact W1.
    + now rewrite parent_snoc.
    + rewrite lookup_insert_ne by (intros E; symmetry in E; now apply N4 in E).
      rewrite removal_clears by apply prefix_snoc_self. discriminate.
    + rewrite parent_snoc. apply is_dir_insert; [exact D1|].
      rewrite lookup_insert_ne by (intros E; symmetry in E; now apply N4 in E).
      rewrite removal_clears by apply prefix_snoc_self. discriminate.
    + rewrite lookup_insert_ne by congruence.
      rewrite lookup_insert_ne by (intros E; symmetry in E; now apply N4 in E).
      rewrite removal_clears by apply prefix_snoc_self. discriminate.
    + rewrite parent_snoc. apply is_dir_insert; [apply is_dir_insert; [exact D1|]|].
      * rewrite lookup_insert_ne by (intros E; symmetry in E; now apply N4 in E).
        rewrite removal_clears by apply prefix_snoc_self. discriminate.
      * rewrite lookup_insert_ne by congruence.
        rewrite lookup_insert_ne by (intros E; symmetry in E; now apply N4 in E).
        rewrite removal_clears by apply prefix_snoc_self. discriminate.
    + rewrite !lookup_insert_ne by congruence.
      rewrite ?lookup_insert_ne by (intros E; symmetry in E; now apply N4 in E).
      rewrite removal_clears by apply prefix_snoc_self. discriminate.
Qed.

(** X13. What a completed build leaves.  In a well-formed file system, for a
    profile whose file name is neither that of the credentials file nor
    [autoLogin], a build that returns has read a profile that was a file and
    leaves, at and below the bundle path, exactly four entries: the bundle
    directory; the copy of the profile, with the content and mode of the
    original; the credentials file, mode 0600; and the empty [autoLogin]
    marker.  Whatever an earlier bundle of that name held is gone, nothing
    outside the bundle path has changed, and the file system is still well
    formed. *)
Theorem create_tblk_package_builds self ovpn_path username password w tblk_path w' :
  well_formed (fs w) ->
  basename ovpn_path <> stem (basename ovpn_path) +:+ ".pass" ->
  basename ovpn_path <> "autoLogin" ->
  create_tblk_package env self ovpn_path username password w = (Ok tblk_path, w') ->
  let config_dest := tblk_path ++ [basename ovpn_path] in
  let pass_file := tblk_path ++ [stem (basename ovpn_path) +:+ ".pass"] in
  let marker := tblk_path ++ ["autoLogin"] in
  tblk_path = config_dir self ++ [stem (basename ovpn_path) +:+ ".tblk"] /\
  (exists content mode,
      fs w !! ovpn_path = Some (File content mode) /\
      fs w' !! config_dest = Some (File content mode)) /\
  fs w' !! tblk_path = Some Dir /\
  fs w' !! pass_file = Some (File (pass_text username password) 384) /\
  (exists mode, fs w' !! marker = Some (File EmptyString mode)) /\
  (forall q : path, tblk_path `prefix_of` q -> is_Some (fs w' !! q) ->
                    q ∈ [tblk_path; config_dest; pass_file; marker]) /\
  same_outside tblk_path (fs w) (fs w') /\
  well_formed (fs w').
Proof. apply create_tblk_package_result. Qed.


(** ** From the download to the hand-off *)

Lemma rfind_app c (t : string) i :
  Str.rfind c t = Some i ->
  forall s, Str.rfind c (s +:+ t) = Some (String.length s + i)%nat.
Proof.
  intros H s. induction s as [|a s IH]; [exact H|].
  change (String a s +:+ t) with (String a (s +:+ t)). simpl. now rewrite IH.
Qed.

(** The bundle of a profile is named as the GUI will name the configuration. *)
Lemma stem_profile (s : string) : stem (s +:+ ".udp.ovpn") = s +:+ ".udp".
Proof.
  unfold stem. rewrite (rfind_app "."%char ".udp.ovpn" 4 eq_refl).
  rewrite length_append. simpl String.length.
  replace ((0 <? String.length s + 4)%nat
           && (String.length s + 4 <? String.length s + 9 - 1)%nat) with true.
  2:{ symmetry. apply andb_true_iff. split; apply Nat.ltb_lt; lia. }
  replace (s +:+ ".udp.ovpn") with ((s +:+ ".udp") +:+ ".ovpn")
    by (now rewrite append_assoc).
  replace (String.length s + 4)%nat with (String.length (s +:+ ".udp"))
    by (rewrite length_append; reflexivity).
  apply substring_whole_prefix.
Qed.

Lemma profile_is_not_marker (s : string) : s +:+ ".ovpn" <> "autoLogin".
Proof.
  intros E. assert (H : String.length (s +:+ ".ovpn") = 9%nat) by now rewrite E.
  rewrite length_append in H. simpl in H.
  do 5 (destruct s as [|? s]; simpl in H; try lia). discriminate.
Qed.

Lemma profile_is_not_pass (s : string) : s +:+ ".ovpn" <> s +:+ ".pass".
Proof.
  induction s as [|a s IH]; [discriminate|].
  change (String a s +:+ ".ovpn") with (String a (s +:+ ".ovpn")).
  change (String a s +:+ ".pass") with (String a (s +:+ ".pass")). congruence.
Qed.

(** ** One path component *)

Lemma contains_slash_cons (c : ascii) (s : string) :
  Str.contains (String c s) "/" = false ->
  c <> "/"%char /\ Str.contains s "/" = false.
Proof.
  simpl. intros H. apply orb_false_iff in H as [Hc Hs]. split; [|exact Hs].
  intros ->. destruct (ascii_dec "/" "/"); [|congruence]. now destruct s.
Qed.

Lemma split_no_slash (s : string) :
  Str.contains s "/" = false -> Str.split "/"%char s = [s].
Proof.
  induction s as [|c s IH]; [reflexivity|].
  intros H. apply contains_slash_cons in H as [Hc Hs]. simpl.
  destruct (ascii_dec c "/"); [contradiction|]. now rewrite (IH Hs).
Qed.

Lemma contains_slash_app (a b : string) :
  Str.contains a "/" = false -> Str.contains b "/" = false ->
  Str.contains (a +:+ b) "/" = false.
Proof.
  intros Ha Hb. induction a as [|c a IH]; [exact Hb|].
  apply contains_slash_cons in Ha as [Hc Ha].
  change (String c a +:+ b) with (String c (a +:+ b)).
  cbn [Str.contains Str.startswith].
  rewrite (IH Ha). destruct (ascii_dec "/" c); [congruence|reflexivity].
Qed.

(** A name without a slash, other than the empty name and the dot, is one
    component: joined to a directory it names an entry of that directory. *)
Lemma join_single (dir : path) (name : string) :
  Str.contains name "/" = false -> name <> EmptyString -> name <> "." ->
  join dir name = dir ++ [name].
Proof.
  intros Hs He Hd. unfold join, components. rewrite (split_no_slash name Hs).
  assert (Hstart : Str.startswith name "/" = false).
  { destruct name as [|c name]; [reflexivity|].
    apply contains_slash_cons in Hs as [Hc _]. cbn [Str.startswith].
    destruct (ascii_dec "/" c); [congruence|reflexivity]. }
  rewrite Hstart. simpl.
  rewrite (bool_decide_eq_false_2 _ He), (bool_decide_eq_false_2 _ Hd). reflexivity.
Qed.

Lemma normalize_no_slash (hostname : string) :
  Str.contains hostname "/" = false -> Str.contains (normalize hostname) "/" = false.
Proof.
  intros H. unfold normalize. case_if; [exact H|].
  now apply contains_slash_app.
Qed.

Lemma profile_path (dir : path) (hostname : string) :
  Str.contains hostname "/" = false ->
  join dir (normalize hostname +:+ ".udp.ovpn") = dir ++ [normalize hostname +:+ ".udp.ovpn"].
Proof.
  intros H. apply join_single.
  - apply contains_slash_app; [now apply normalize_no_slash|reflexivity].
  - intros E. apply (f_equal String.length) in E. rewrite length_append in E.
    simpl in E. lia.
  - intros E. apply (f_equal String.length) in E. rewrite length_append in E.
    simpl in E. lia.
Qed.

Lemma download_config_ok self hostname w profile w1 :
  Str.contains hostname "/" = false ->
  download_config env self hostname w = (Ok profile, w1) ->
  let url := OVPN_CONFIG_URL (normalize hostname) in
  profile = config_dir self ++ [normalize hostname +:+ ".udp.ovpn"] /\
  exists content mode,
    download_endpoint env (length (trace w)) url = Ok content /\
    fs w1 = <[profile := File content mode]> (fs w) /\
    trace w1 = trace w ++ [EvGet url []; EvFs (WriteBytes profile content)] /\
    fs w !! profile <> Some Dir /\
    (well_formed (fs w) -> is_dir (fs w) (config_dir self) = true).
Proof.
  intros Hslash. unfold download_config. cbv zeta.
  rewrite (profile_path _ _ Hslash). intros H.
  apply bind_ok_inv in H as (k & w01 & Hget & H).
  apply bind_ok_inv in H as (content & w02 & Hlift & H).
  apply bind_ok_inv in H as (u & w03 & Hwb & H).
  injection H as <- <-. split; [reflexivity|].
  unfold interact in Hget. rewrite interact_for_run in Hget. injection Hget as <- <-.
  destruct (download_endpoint env (length (trace w)) _) as [c|e] eqn:Hreply;
    [|discriminate].
  injection Hlift as -> <-.
  apply file_op_ok in Hwb as [Hwb Twb]. simpl fs in Hwb. simpl trace in Twb.
  apply write_ok in Hwb as (Hdir & Hnodir & mode & Hfs).
  exists content, mode. split; [reflexivity|]. split; [exact Hfs|].
  split; [now rewrite Twb, <- app_assoc|]. split; [|exact Hdir].
  intros E. now apply Hnodir in E.
Qed.

(** X14. What [setup_server] leaves when it returns, for a hostname without
    a slash.  In a well-formed file
    system, the name it returns is the configuration name of the hostname;
    the profile it staged holds what the download host sent; the bundle is
    the directory [<name>.tblk] of the staging directory, named as the
    configuration, and holds exactly a copy of that profile, the credentials
    (mode 0600) and the [autoLogin] marker; that bundle is what the last
    interaction hands to the GUI; nothing but the staged profile has changed
    outside the bundle, and the file system is still well formed. *)
Theorem setup_server_builds_named_bundle self hostname username password w name w' :
  Str.contains hostname "/" = false ->
  well_formed (fs w) ->
  setup_server env self hostname username password w = (Ok name, w') ->
  let url := OVPN_CONFIG_URL (normalize hostname) in
  let profile := config_dir self ++ [name +:+ ".ovpn"] in
  let bundle := config_dir self ++ [name +:+ ".tblk"] in
  name = _hostname_to_config_name hostname /\
  (exists earlier, trace w' = trace w ++ EvGet url [] :: earlier ++ [EvOpen bundle]) /\
  (exists content mode,
      download_endpoint env (length (trace w)) url = Ok content /\
      fs w' !! profile = Some (File content mode) /\
      fs w' !! (bundle ++ [name +:+ ".ovpn"]) = Some (File content mode)) /\
  fs w' !! bundle = Some Dir /\
  fs w' !! (bundle ++ [name +:+ ".pass"])
  = Some (File (username +:+ Str.newline +:+ password +:+ Str.newline) 384) /\
  is_Some (fs w' !! (bundle ++ ["autoLogin"])) /\
  (forall q : path, bundle `prefix_of` q -> is_Some (fs w' !! q) ->
                    q ∈ [bundle; bundle ++ [name +:+ ".ovpn"];
                         bundle ++ [name +:+ ".pass"]; bundle ++ ["autoLogin"]]) /\
  (forall q : path, q <> profile -> ¬ bundle `prefix_of` q -> fs w' !! q = fs w !! q) /\
  well_formed (fs w').
Proof.
  intros Hslash Hwf H. unfold setup_server in H.
  apply bind_ok_inv in H as (ovpn_path & w1 & Hdl & H).
  apply bind_ok_inv in H as (tblk_path & w2 & Hcr & H).
  apply bind_ok_inv in H as (installed & w3 & Hin & H).
  injection H as <- <-. cbv zeta.
  rewrite install_config_run in Hin. cbv zeta in Hin.
  destruct (open_outcome env _ _) as [returncode|e0]; [|discriminate].
  injection Hin as _ <-. simpl fs. simpl trace.
  apply (download_config_ok _ _ _ _ _ Hslash) in Hdl
    as (-> & content & mode & Hreply & Hfs1 & Htr1 & Hnodir & Hdir).
  unfold _hostname_to_config_name.
  set (N := normalize hostname) in *. set (D := config_dir self) in *.
  assert (Hwf1 : well_formed (fs w1)).
  { rewrite Hfs1. apply well_formed_insert; [exact Hwf| |congruence].
    rewrite parent_snoc. now apply Hdir. }
  assert (Hbase : basename (D ++ [N +:+ ".udp.ovpn"]) = (N +:+ ".udp") +:+ ".ovpn").
  { unfold basename. rewrite last_last. now rewrite append_assoc. }
  assert (Hstem : stem ((N +:+ ".udp") +:+ ".ovpn") = N +:+ ".udp").
  { rewrite append_assoc. apply stem_profile. }
  pose proof Hcr as Htrace. apply create_tblk_package_ok in Htrace as (_ & _ & ops & Htr2 & _).
  apply create_tblk_package_result in Hcr; [|exact Hwf1| |];
    rewrite ?Hbase, ?Hstem in *;
    [|apply profile_is_not_pass|apply profile_is_not_marker].
  cbv zeta in Hcr. rewrite ?Hbase, ?Hstem in Hcr.
  destruct Hcr as (-> & (c & m & Hsrc & Hcopy) & Hroot & Hcred & [mm Hmark]
                   & Honly & Hout & Hwf2).
  replace (D ++ [N +:+ ".udp.ovpn"]) with (D ++ [(N +:+ ".udp") +:+ ".ovpn"]) in *
    by (now rewrite append_assoc).
  set (name := N +:+ ".udp") in *.
  assert (Hnb : ¬ D ++ [name +:+ ".tblk"] `prefix_of` D ++ [name +:+ ".ovpn"]).
  { intros [l E]. destruct l as [|y l].
    - rewrite app_nil_r in E. apply app_inv_head in E. injection E as E.
      apply String.app_inj in E. discriminate E.
    - apply (f_equal (@length string)) in E. rewrite !length_app in E. simpl in E. lia. }
  rewrite Hfs1, lookup_insert_eq in Hsrc. injection Hsrc as <- <-.
  split; [reflexivity|]. split.
  { exists (EvFs (WriteBytes (D ++ [name +:+ ".ovpn"]) content) :: ops
            ++ [EvFs (Chmod ((D ++ [name +:+ ".tblk"]) ++ [name +:+ ".pass"]) 384);
                EvFs (Touch ((D ++ [name +:+ ".tblk"]) ++ ["autoLogin"]))]).
    rewrite Htr2, Htr1. cbn [app]. repeat rewrite <- app_assoc. reflexivity. }
  split.
  { exists content, mode. split; [exact Hreply|]. split; [|exact Hcopy].
    rewrite (Hout _ Hnb), Hfs1. apply lookup_insert_eq. }
  split; [exact Hroot|]. split; [exact Hcred|]. split; [eauto|].
  split; [exact Honly|]. split; [|exact Hwf2].
  intros q Hq Hb. transitivity (fs w1 !! q); [exact (Hout q Hb)|].
  rewrite Hfs1. apply lookup_insert_ne. congruence.
Qed.

(** ** A setup that fails *)

Lemma create_tblk_package_file_ops self ovpn_path username password :
  advances (fun e => is_file_op e = true)
           (create_tblk_package env self ovpn_path username password).
Proof.
  unfold create_tblk_package. cbv zeta.
  apply advances_bind; [apply advances_exists|]. intros present.
  apply advances_bind.
  { destruct present; [now apply advances_file_op|apply advances_ret]. }
  intros _. repeat (apply advances_bind; [now apply advances_file_op|intros _]).
  apply advances_ret.
Qed.

(** X15. A setup that fails hands nothing to the GUI.  When [setup_server]
    raises, its interactions are the request for the profile and, after it,
    file operations only: no bundle has been handed over ([open] was not
    run) and no script was sent.  When it is the download that failed, that
    error is the one raised, the request is the only interaction and the
    file system is as it was: no profile, empty or partial, is staged. *)
Theorem setup_server_failure_installs_nothing self hostname username password w e w' :
  setup_server env self hostname username password w = (Raise e, w') ->
  let url := OVPN_CONFIG_URL (normalize hostname) in
  (exists later, trace w' = trace w ++ EvGet url [] :: later /\
                 Forall (fun ev => is_file_op ev = true) later) /\
  (forall e', download_endpoint env (length (trace w)) url = Raise e' ->
              e = e' /\ trace w' = trace w ++ [EvGet url []] /\ fs w' = fs w).
Proof.
  unfold setup_server. intros H. cbv zeta.
  apply bind_raise_inv in H as [H|(ovpn_path & w1 & Hdl & H)].
  2:{ (* the build or the start of [open] fails *)
    assert (Hdl' : exists content,
               download_endpoint env (length (trace w))
                 (OVPN_CONFIG_URL (normalize hostname)) = Ok content /\
               trace w1 = trace w ++ [EvGet (OVPN_CONFIG_URL (normalize hostname)) [];
                                      EvFs (WriteBytes ovpn_path content)]).
    { unfold download_config in Hdl. cbv zeta in Hdl.
      apply bind_ok_inv in Hdl as (k & w01 & Hget & Hdl).
      apply bind_ok_inv in Hdl as (content & w02 & Hlift & Hdl).
      apply bind_ok_inv in Hdl as (u & w03 & Hwb & Hdl).
      injection Hdl as <- <-.
      unfold interact in Hget. rewrite interact_for_run in Hget. injection Hget as <- <-.
      destruct (download_endpoint env (length (trace w)) _) as [c|e0] eqn:Hreply;
        [|discriminate].
      injection Hlift as -> <-.
      apply file_op_ok in Hwb as [_ Twb]. simpl trace in Twb.
      exists content. split; [reflexivity|]. now rewrite Twb, <- app_assoc. }
    destruct Hdl' as (content & Hreply & Htr1).
    destruct (create_tblk_package_file_ops self ovpn_path username password w1)
      as (_ & events & Htr & Hops & _).
    apply bind_raise_inv in H as [H|(tblk_path & w2 & Hcr & H)].
    + rewrite H in Htr. simpl in Htr. split.
      * exists (EvFs (WriteBytes ovpn_path content) :: events).
        rewrite Htr, Htr1, <- app_assoc. split; [reflexivity|].
        constructor; [reflexivity|exact Hops].
      * intros e' He'. congruence.
    + rewrite Hcr in Htr. simpl in Htr.
      apply bind_raise_inv in H as [H|(installed & w3 & _ & H)]; [|discriminate].
      rewrite install_config_run in H. cbv zeta in H.
      destruct (open_outcome env _ _) as [returncode|e0]; [discriminate|].
      injection H as _ <-. split.
      * exists (EvFs (WriteBytes ovpn_path content) :: events).
        rewrite Htr, Htr1, <- app_assoc. split; [reflexivity|].
        constructor; [reflexivity|exact Hops].
      * intros e' He'. congruence. }
  - (* the download or the staging of the profile fails *)
    unfold download_config in H. cbv zeta in H.
    apply bind_raise_inv in H as [H|(k & w01 & Hget & H)].
    { unfold interact in H. rewrite interact_for_run in H. discriminate. }
    unfold interact in Hget. rewrite interact_for_run in Hget. injection Hget as <- <-.
    apply bind_raise_inv in H as [H|(content & w02 & Hlift & H)].
    + destruct (download_endpoint env (length (trace w)) _) as [c|e0] eqn:Hreply;
        [discriminate|].
      injection H as <- <-. simpl. split.
      * exists []. now split.
      * intros e' [= <-]. auto.
    + destruct (download_endpoint env (length (trace w)) _) as [c|e0] eqn:Hreply;
        [|discriminate].
      injection Hlift as -> <-.
      apply bind_raise_inv in H as [H|(u & w03 & _ & H)]; [|discriminate].
      apply file_op_raise in H as [_ Htr]. simpl in Htr. split.
      * eexists [_]. rewrite Htr, <- app_assoc. split; [reflexivity|].
        now repeat constructor.
      * intros e' [=].
Qed.

(** ** A setup that succeeds *)

Lemma file_op_succeeds (op : fs_op) (w : World) (f' : gmap path node) :
  fs_fault env (length (trace w)) = false ->
  do_fs_op env op (fs w) = Ok f' ->
  exists w1, file_op env op w = (Ok tt, w1) /\ fs w1 = f' /\
             trace w1 = trace w ++ [EvFs op].
Proof.
  intros Hf Hop. rewrite file_op_run. cbv zeta. rewrite Hf, Hop.
  eexists. split; [reflexivity|]. split; reflexivity.
Qed.

Lemma write_bytes_run (p : path) (x : string) (content : string) (f : gmap path node) :
  f !! (p ++ [x]) <> Some Dir -> is_dir f p = true ->
  exists mode,
    do_fs_op env (WriteBytes (p ++ [x]) content) f = Ok (<[p ++ [x] := File content mode]> f).
Proof.
  intros Hn Hd. simpl. rewrite stat_snoc, parent_snoc, Hd.
  destruct (f !! (p ++ [x])) as [[c m|]|]; [eauto|congruence|eauto].
Qed.

Lemma write_text_run (p : path) (x : string) (content : string) (f : gmap path node) :
  f !! (p ++ [x]) = None -> is_dir f p = true ->
  do_fs_op env (WriteText (p ++ [x]) content) f
  = Ok (<[p ++ [x] := File content (new_file_mode env)]> f).
Proof.
  intros Hn Hd. simpl. rewrite stat_snoc, parent_snoc, Hd.
  unfold path in *. now rewrite Hn.
Qed.

Lemma removal_run (p : path) (x : string) (f : gmap path node) :
  f !! (p ++ [x]) = Some Dir ->
  do_fs_op env (Rmtree (p ++ [x])) f
  = Ok (filter (fun kv : path * node => ¬ p ++ [x] `prefix_of` kv.1) f).
Proof. intros Hd. simpl. rewrite stat_snoc. unfold path in *. now rewrite Hd. Qed.

Lemma mkdir_run (p : path) (x : string) (f : gmap path node) :
  f !! (p ++ [x]) = None -> is_dir f p = true ->
  do_fs_op env (Mkdir (p ++ [x])) f = Ok (<[p ++ [x] := Dir]> f).
Proof.
  intros Hn Hd. simpl. rewrite stat_snoc, parent_snoc, Hd.
  unfold path in *. now rewrite Hn.
Qed.

Lemma copy2_run (s : path) (y : string) (p : path) (x : string) (content : string)
      (mode : Z) (f : gmap path node) :
  f !! (s ++ [y]) = Some (File content mode) ->
  f !! (p ++ [x]) = None -> is_dir f p = true ->
  do_fs_op env (Copy2 (s ++ [y]) (p ++ [x])) f = Ok (<[p ++ [x] := File content mode]> f).
Proof.
  intros Hs Hn Hd. simpl. rewrite stat_snoc.
  assert (Hx : is_dir f (p ++ [x]) = false).
  { unfold is_dir. rewrite stat_snoc. unfold path in *. now rewrite Hn. }
  unfold path in *. rewrite Hs, Hx, Hx, parent_snoc, Hd. reflexivity.
Qed.

Lemma chmod_run (p : path) (x : string) (mode : Z) (content : string) (mode0 : Z)
      (f : gmap path node) :
  f !! (p ++ [x]) = Some (File content mode0) ->
  do_fs_op env (Chmod (p ++ [x]) mode) f = Ok (<[p ++ [x] := File content mode]> f).
Proof. intros Hs. simpl. rewrite stat_snoc. unfold path in *. now rewrite Hs. Qed.

Lemma touch_run (p : path) (x : string) (f : gmap path node) :
  f !! (p ++ [x]) = None -> is_dir f p = true ->
  do_fs_op env (Touch (p ++ [x])) f
  = Ok (<[p ++ [x] := File EmptyString (new_file_mode env)]> f).
Proof.
  intros Hn Hd. simpl. rewrite stat_snoc, parent_snoc, Hd.
  unfold path in *. now rewrite Hn.
Qed.

Lemma create_tblk_package_succeeds (self : t) (src_dir : path) (file : string)
      (username password : string) (w : World) (content : string) (mode : Z) :
  well_formed (fs w) ->
  is_dir (fs w) (config_dir self) = true ->
  fs w !! (src_dir ++ [file]) = Some (File content mode) ->
  ¬ config_dir self ++ [stem file +:+ ".tblk"] `prefix_of` src_dir ++ [file] ->
  (forall c m, fs w !! (config_dir self ++ [stem file +:+ ".tblk"]) <> Some (File c m)) ->
  file <> stem file +:+ ".pass" -> file <> "autoLogin" ->
  (forall k, (length (trace w) <= k)%nat -> fs_fault env k = false) ->
  exists w',
    create_tblk_package env self (src_dir ++ [file]) username password w
    = (Ok (config_dir self ++ [stem file +:+ ".tblk"]), w') /\
    (length (trace w) <= length (trace w'))%nat.
Proof.
  intros Hwf HD Hsrc Hout Hnofile Hpass Hmarker Hfault.
  unfold create_tblk_package.
  replace (basename (src_dir ++ [file])) with file
    by (unfold basename; now rewrite last_last).
  set (D := config_dir self) in *. set (b := stem file +:+ ".tblk") in *.
  set (pass := stem file +:+ ".pass") in *.
  set (f2 := filter (fun kv : path * node => ¬ D ++ [b] `prefix_of` kv.1) (fs w)).
  rewrite (bind_ok (exists_ (D ++ [b])) _ w _ w eq_refl).
  assert (H1 : exists w1,
             (if bool_decide (is_Some (stat (fs w) (D ++ [b])))
              then file_op env (Rmtree (D ++ [b])) else ret tt) w = (Ok tt, w1) /\
             fs w1 = f2 /\ (length (trace w) <= length (trace w1))%nat).
  { case_bool_decide as Hpresent.
    - rewrite stat_snoc in Hpresent. destruct Hpresent as [n Hn].
      destruct n as [c m|]; [now destruct (Hnofile c m)|].
      destruct (file_op_succeeds (Rmtree (D ++ [b])) w f2) as (w1 & Hrun & Hfs & Htr).
      + now apply Hfault.
      + now apply removal_run.
      + exists w1. split; [exact Hrun|]. split; [exact Hfs|].
        rewrite Htr, length_snoc. lia.
    - exists w. split; [reflexivity|]. split; [|lia].
      symmetry. apply removal_of_nothing. apply well_formed_below; [exact Hwf|].
      rewrite stat_snoc in Hpresent.
      destruct (fs w !! (D ++ [b])) as [n|] eqn:E; [|reflexivity].
      destruct Hpresent. eauto. }
  destruct H1 as (w1 & Hrun1 & Hfs1 & Hlen1). rewrite (bind_ok _ _ _ _ _ Hrun1).
  assert (Hbelow : forall y : string, f2 !! ((D ++ [b]) ++ [y]) = None).
  { intros y. apply removal_clears, prefix_snoc_self. }
  assert (HD2 : is_dir f2 D = true).
  { unfold f2. now rewrite is_dir_outside by apply snoc_not_prefix. }
  assert (N4 : forall y : string, D ++ [b] <> (D ++ [b]) ++ [y]).
  { intros y E. symmetry in E. now apply snoc_not_self in E. }
  (* mkdir *)
  destruct (file_op_succeeds (Mkdir (D ++ [b])) w1 (<[D ++ [b] := Dir]> f2))
    as (w2 & Hrun2 & Hfs2 & Htr2).
  { apply Hfault. lia. }
  { rewrite Hfs1. apply mkdir_run; [|exact HD2]. apply removal_clears. reflexivity. }
  rewrite (bind_ok _ _ _ _ _ Hrun2).
  assert (HB : forall f : gmap path node, is_dir (<[D ++ [b] := Dir]> f) (D ++ [b]) = true).
  { intros f. apply is_dir_snoc, lookup_insert_eq. }
  (* copy *)
  destruct (file_op_succeeds (Copy2 (src_dir ++ [file]) ((D ++ [b]) ++ [file])) w2
              (<[(D ++ [b]) ++ [file] := File content mode]> (fs w2)))
    as (w3 & Hrun3 & Hfs3 & Htr3).
  { apply Hfault. rewrite Htr2, length_snoc. lia. }
  { rewrite Hfs2. apply copy2_run.
    - rewrite lookup_insert_ne by (intros E; apply Hout; now rewrite E).
      unfold f2. now rewrite removal_outside.
    - now rewrite lookup_insert_ne.
    - apply HB. }
  rewrite (bind_ok _ _ _ _ _ Hrun3).
  (* credentials *)
  destruct (file_op_succeeds (WriteText ((D ++ [b]) ++ [pass]) (pass_text username password))
              w3 (<[(D ++ [b]) ++ [pass] := File (pass_text username password)
                                                 (new_file_mode env)]> (fs w3)))
    as (w4 & Hrun4 & Hfs4 & Htr4).
  { apply Hfault. rewrite Htr3, Htr2, !length_snoc. lia. }
  { rewrite Hfs3, Hfs2. apply write_text_run.
    - rewrite lookup_insert_ne by (apply snoc_inj_ne; exact Hpass).
      now rewrite lookup_insert_ne.
    - apply is_dir_insert; [apply HB|]. rewrite lookup_insert_ne by done.
      rewrite Hbelow. discriminate. }
  rewrite (bind_ok _ _ _ _ _ Hrun4).
  destruct (file_op_succeeds (Chmod ((D ++ [b]) ++ [pass]) 384) w4
              (<[(D ++ [b]) ++ [pass] := File (pass_text username password) 384]> (fs w4)))
    as (w5 & Hrun5 & Hfs5 & Htr5).
  { apply Hfault. rewrite Htr4, Htr3, Htr2, !length_snoc. lia. }
  { rewrite Hfs4. eapply chmod_run. apply lookup_insert_eq. }
  rewrite (bind_ok _ _ _ _ _ Hrun5).
  (* marker *)
  destruct (file_op_succeeds (Touch ((D ++ [b]) ++ ["autoLogin"])) w5
              (<[(D ++ [b]) ++ ["autoLogin"] := File EmptyString (new_file_mode env)]> (fs w5)))
    as (w6 & Hrun6 & Hfs6 & Htr6).
  { apply Hfault. rewrite Htr5, Htr4, Htr3, Htr2, !length_snoc. lia. }
  { rewrite Hfs5, Hfs4, Hfs3, Hfs2. apply touch_run.
    - rewrite !lookup_insert_ne by (apply snoc_inj_ne, pass_is_not_marker).
      rewrite lookup_insert_ne by (apply snoc_inj_ne; exact Hmarker).
      now rewrite lookup_insert_ne.
    - do 3 (apply is_dir_insert;
            [|rewrite ?lookup_insert_ne by
                 first [apply N4 | apply snoc_inj_ne; congruence];
              rewrite ?Hbelow, ?lookup_insert_eq; congruence]).
      apply HB. }
  rewrite (bind_ok _ _ _ _ _ Hrun6).
  exists w6. split; [reflexivity|].
  rewrite Htr6, Htr5, Htr4, Htr3, Htr2, !length_snoc. lia.
Qed.

(** X16. When [setup_server] succeeds.  For a hostname without a slash and
    without a NUL character (no file can be named with one), in
    a well-formed file system whose staging directory exists, where the
    path of the staged profile is not a directory and the path of the
    bundle is not a file, [setup_server] returns the configuration name
    whenever the download succeeds, no file operation hits an I/O error and
    [open] can be started: whether a bundle or a profile of that name is
    already there or not, and whatever return code [open] gives. *)
Theorem setup_server_succeeds (self : t) (hostname username password : string)
        (w : World) (content : string) :
  let name := _hostname_to_config_name hostname in
  Str.contains hostname "/" = false ->
  Str.contains hostname Str.nul = false ->
  well_formed (fs w) ->
  is_dir (fs w) (config_dir self) = true ->
  fs w !! (config_dir self ++ [name +:+ ".ovpn"]) <> Some Dir ->
  (forall c m, fs w !! (config_dir self ++ [name +:+ ".tblk"]) <> Some (File c m)) ->
  download_endpoint env (length (trace w)) (OVPN_CONFIG_URL (normalize hostname))
  = Ok content ->
  (forall k, (length (trace w) < k)%nat -> fs_fault env k = false) ->
  (forall k, (length (trace w) < k)%nat ->
             exists returncode,
               open_outcome env k (config_dir self ++ [name +:+ ".tblk"])
               = Ok returncode) ->
  exists w', setup_server env self hostname username password w = (Ok name, w').
Proof.
  intros name Hslash _ Hwf HD Hprofile Hbundle Hreply Hfault Hopen.
  unfold name, _hostname_to_config_name in *. clear name.
  set (N := normalize hostname) in *. set (D := config_dir self) in *.
  assert (Hfile : (N +:+ ".udp") +:+ ".ovpn" = N +:+ ".udp.ovpn")
    by (now rewrite append_assoc).
  rewrite Hfile in Hprofile.
  set (w0 := {| fs := fs w;
                clock := clock w + 0 + Z.of_N (latency env (length (trace w)));
                trace := trace w ++ [EvGet (OVPN_CONFIG_URL N) []] |}).
  destruct (write_bytes_run D (N +:+ ".udp.ovpn") content (fs w) Hprofile HD)
    as [mode Hwrite].
  destruct (file_op_succeeds (WriteBytes (D ++ [N +:+ ".udp.ovpn"]) content) w0
              (<[D ++ [N +:+ ".udp.ovpn"] := File content mode]> (fs w)))
    as (w1 & Hrun1 & Hfs1 & Htr1); [| exact Hwrite |].
  { apply Hfault. unfold w0. simpl. rewrite length_snoc. lia. }
  assert (Hdl : download_config env self hostname w = (Ok (D ++ [N +:+ ".udp.ovpn"]), w1)).
  { unfold download_config. cbv zeta. rewrite (profile_path _ _ Hslash). fold N. fold D.
    rewrite (bind_ok (interact env (EvGet (OVPN_CONFIG_URL N) [])) _ w
                     (length (trace w)) w0 (interact_for_run env 0 _ w)).
    rewrite Hreply.
    rewrite (bind_ok (lift (Ok content)) _ w0 content w0 eq_refl).
    now rewrite (bind_ok _ _ _ _ _ Hrun1). }
  destruct (create_tblk_package_succeeds self D (N +:+ ".udp.ovpn") username password
              w1 content mode) as (w2 & Hrun2 & Hlen2).
  - rewrite Hfs1. apply well_formed_insert; [exact Hwf|now rewrite parent_snoc|].
    intros E. now destruct Hprofile.
  - rewrite Hfs1. apply is_dir_insert; [exact HD|]. intros E. now destruct Hprofile.
  - rewrite Hfs1. apply lookup_insert_eq.
  - rewrite stem_profile. intros [l E]. destruct l as [|y l].
    + rewrite app_nil_r in E. apply app_inv_head in E. injection E as E.
      rewrite <- Hfile in E. apply String.app_inj in E. discriminate E.
    + apply (f_equal (@length string)) in E. rewrite !length_app in E. simpl in E.
      unfold D in E. lia.
  - rewrite stem_profile. intros c m. rewrite Hfs1. rewrite lookup_insert_ne.
    + apply Hbundle.
    + apply snoc_inj_ne. rewrite <- Hfile. intros E.
      apply String.app_inj in E. discriminate E.
  - rewrite stem_profile, <- Hfile. apply profile_is_not_pass.
  - rewrite <- Hfile. apply profile_is_not_marker.
  - intros k Hk. apply Hfault. rewrite Htr1 in Hk. unfold w0 in Hk. simpl in Hk.
    rewrite !length_snoc in Hk. lia.
  - rewrite stem_profile in Hrun2. unfold setup_server.
    rewrite (bind_ok _ _ _ _ _ Hdl), (bind_ok _ _ _ _ _ Hrun2).
    destruct (Hopen (length (trace w2))) as [returncode Hrc].
    { rewrite Htr1 in Hlen2. unfold w0 in Hlen2. simpl in Hlen2.
      rewrite !length_snoc in Hlen2. lia. }
    pose proof (install_config_run env (D ++ [(N +:+ ".udp") +:+ ".tblk"]) w2) as Hin.
    cbv zeta in Hin. rewrite Hrc in Hin.
    rewrite (bind_ok _ _ _ _ _ Hin). eexists. reflexivity.
Qed.

End BundlesMore.

(* ===================================================================== *)
(** * Further properties: the orchestrator *)
(* ===================================================================== *)

Section OrchestratorMore.
Import Effects Cli.
Context (env : Env).

Abbreviation request_only := (fun e : Event => Status.is_request e = true).

Lemma resolve_requests server country city :
  advances request_only (resolve env server country city).
Proof.
  unfold resolve. case_if; [apply advances_ret|].
  apply advances_bind; [|intros; apply advances_ret].
  apply advances_bind.
  - apply advances_bind; [|intros; apply advances_ret].
    apply advances_bind; [now apply advances_interact|intros; apply advances_lift].
  - intros [c|]; [|apply advances_ret].
    apply advances_bind; [|intros; apply advances_ret].
    apply advances_bind; [now apply advances_interact|intros; apply advances_lift].
Qed.


(** ** The scripts of a run *)

Lemma install_config_advances (P : Event -> Prop) (tblk_path : path) :
  P (EvOpen tblk_path) -> advances P (ConfigManager.install_config env tblk_path).
Proof.
  intros Hp w. rewrite install_config_run. cbv zeta.
  destruct (open_outcome env _ _) as [returncode|e]; simpl.
  - split; [lia|]. exists [EvOpen tblk_path]. split; [reflexivity|].
    split; [now constructor|reflexivity].
  - split; [lia|]. exists []. split; [now rewrite app_nil_r|].
    split; [constructor|reflexivity].
Qed.

Section Within.
Context (P : Event -> Prop).
Context (Hget : forall url params, P (EvGet url params)).
Context (Hfs : forall op, P (EvFs op)).
Context (Hopen : forall p, P (EvOpen p)).
Context (Hsleep : forall seconds, P (EvSleep seconds)).
Context (Hnames : P (EvOsascript (Tunnelblick.tell "get name of configurations"))).
Context (Hstates : P (EvOsascript (Tunnelblick.tell "get state of configurations"))).
Context (Hconnect : forall name, P (EvOsascript (Tunnelblick.connect_script name))).

Lemma run_applescript_within script :
  P (EvOsascript script) -> advances P (Tunnelblick._run_applescript env script).
Proof.
  intros Hs. apply advances_bind; [now apply advances_interact|].
  intros k. destruct (osascript env k script) as [rc out err| | |crash];
    try apply advances_raise.
  cbv zeta. repeat case_if; first [apply advances_ret|apply advances_raise].
Qed.

Lemma list_configs_within : advances P (Tunnelblick.list_configs env).
Proof.
  apply advances_bind; [now apply run_applescript_within|].
  intros r. case_if; apply advances_ret.
Qed.

Lemma get_status_within : advances P (Tunnelblick.get_status env).
Proof.
  apply advances_bind.
  - apply advances_try.
    + apply advances_bind; [now apply run_applescript_within|intros; apply advances_ret].
    + intros []; first [apply advances_ret|apply advances_raise].
  - intros [r|]; [|apply advances_ret].
    case_if; [|apply advances_ret].
    apply advances_bind; [apply list_configs_within|intros; apply advances_ret].
Qed.

Lemma get_connection_status_within : advances P (Status.get_connection_status env).
Proof.
  apply advances_bind; [apply get_status_within|].
  intros tb. destruct (Tunnelblick.state tb); try apply advances_ret.
  apply advances_bind.
  { apply advances_try; [|intros; apply advances_ret].
    apply advances_bind; [now apply advances_interact|].
    intros k. destruct (ipify_endpoint env k) as [|code text]; [apply advances_raise|].
    case_if; apply advances_ret. }
  intros ip. apply advances_bind.
  { case_if; [|apply advances_ret].
    apply advances_bind.
    - apply advances_try; [|intros; apply advances_ret].
      apply advances_bind; [now apply advances_interact|].
      intros k. destruct (ipinfo_endpoint env k _) as [|code [json|]];
        [apply advances_raise|case_if..];
        first [apply advances_ret|apply advances_raise].
    - intros [[info|[|]]|]; [case_if| | |];
        first [apply advances_ret|apply advances_raise]. }
  intros [city country]. apply advances_bind; [|intros [[? ?] ?]; apply advances_ret].
  case_if; [|apply advances_ret].
  apply advances_try; [|intros; apply advances_ret].
  apply advances_bind.
  - apply advances_bind; [now apply advances_interact|].
    intros k. apply advances_bind; [apply advances_lift|intros; apply advances_ret].
  - intros [server|]; apply advances_ret.
Qed.

Lemma poll_within fuel start timeout :
  advances P (Tunnelblick.poll env fuel start timeout).
Proof.
  induction fuel as [|fuel IH]; [apply advances_ret|].
  cbn [Tunnelblick.poll]. apply advances_bind; [apply advances_time|].
  intros now. case_if; [|apply advances_ret].
  apply advances_bind; [apply get_status_within|].
  intros status. destruct (Tunnelblick.state status); try apply advances_ret;
    (apply advances_bind; [now apply advances_sleep|intros; exact IH]).
Qed.

Lemma initiate_within fuel config_name : advances P (initiate env fuel config_name).
Proof.
  apply advances_bind.
  - apply advances_try.
    + apply advances_bind; [now apply run_applescript_within|].
      intros _. case_if; [apply advances_ret|].
      apply advances_bind; [apply advances_time|intros; apply poll_within].
    + intros []; first [apply advances_ret|apply advances_raise].
  - intros [[|]|]; try apply advances_ret.
    apply advances_bind; [apply get_connection_status_within|intros; apply advances_ret].
Qed.

Lemma setup_server_within manager hostname username password :
  advances P (ConfigManager.setup_server env manager hostname username password).
Proof.
  apply advances_bind.
  { apply advances_bind; [now apply advances_interact|]. intros k.
    apply advances_bind; [apply advances_lift|]. intros content.
    apply advances_bind; [now apply advances_file_op|intros; apply advances_ret]. }
  intros ovpn_path. apply advances_bind.
  { apply advances_bind; [apply advances_exists|]. intros present.
    apply advances_bind.
    { destruct present; [now apply advances_file_op|apply advances_ret]. }
    intros _. repeat (apply advances_bind; [now apply advances_file_op|intros _]).
    apply advances_ret. }
  intros tblk_path. apply advances_bind; [|intros; apply advances_ret].
  now apply install_config_advances.
Qed.

Lemma do_connect_within fuel server country city creds :
  advances P (do_connect env fuel server country city creds).
Proof.
  apply advances_bind.
  { apply advances_bind; [now apply advances_file_op|intros; apply advances_ret]. }
  intros manager. apply advances_bind.
  { eapply advances_weaken; [|apply resolve_requests].
    intros e He. simpl in He. destruct e; try discriminate. apply Hget. }
  intros [hostname|]; [|apply advances_ret].
  apply advances_bind; [|intros; apply initiate_within].
  apply advances_bind; [apply list_configs_within|].
  intros names. case_if; [apply advances_ret|].
  apply advances_bind; [apply setup_server_within|]. intros name.
  apply advances_bind; [now apply advances_sleep|intros; apply advances_ret].
Qed.

End Within.

Lemma tell_inj (a b : string) : Tunnelblick.tell a = Tunnelblick.tell b -> a = b.
Proof.
  unfold Tunnelblick.tell. intros H.
  now do 3 apply String.app_inj in H.
Qed.

(** X18. Whatever happens, the only scripts [do_connect] sends to the GUI
    are the two queries (names, states) and connect commands: no run ever
    sends a disconnect, neither of all configurations nor of one, also
    when the connection fails or times out. *)
Theorem do_connect_never_disconnects fuel server country city creds w :
  exists events,
    trace (do_connect env fuel server country city creds w).2 = trace w ++ events /\
    Forall Tunnelblick.known_script events /\
    (EvOsascript (Tunnelblick.tell "disconnect all") ∉ events) /\
    (forall name,
        EvOsascript (Tunnelblick.tell ("disconnect " +:+ Str.quoted name)) ∉ events).
Proof.
  destruct (do_connect_within Tunnelblick.known_script) with
    (fuel := fuel) (server := server) (country := country) (city := city)
    (creds := creds) (w := w) as (_ & events & Ht & Hp & _);
    try (intros; intros script; discriminate).
  - intros script [= <-]. auto.
  - intros script [= <-]. auto.
  - intros name script [= <-]. eauto.
  - exists events. split; [exact Ht|]. split; [exact Hp|].
    assert (Hno : forall command,
               command <> "get name of configurations" ->
               command <> "get state of configurations" ->
               (forall name, command <> "connect " +:+ Str.quoted name) ->
               EvOsascript (Tunnelblick.tell command) ∉ events).
    { intros command H1 H2 H3 Hin.
      rewrite Forall_forall in Hp.
      destruct (Hp _ Hin _ eq_refl) as [H|[H|[name H]]]; apply tell_inj in H.
      - now apply H1.
      - now apply H2.
      - now apply (H3 name). }
    split.
    + apply Hno; [discriminate|discriminate|]. intros name. discriminate.
    + intros name. apply Hno.
      * unfold Str.quoted. discriminate.
      * unfold Str.quoted. discriminate.
      * intros name'. discriminate.
Qed.

(** X19. [do_connect] answers true only when the connect command was issued
    without error and a poll that started less than 30 seconds after it
    saw CONNECTED, every earlier poll having seen neither CONNECTED nor
    DISCONNECTED. *)
Theorem do_connect_true_means_connected fuel server country city creds w w' :
  do_connect env fuel server country city creds w = (Ok (Some true), w') ->
  exists config_name w0 out w1 n status w2,
    Tunnelblick._run_applescript env (Tunnelblick.connect_script config_name) w0
    = (Ok out, w1) /\
    (forall i, (i < n)%nat -> Tunnelblick.pending env (clock w1) 30 w1 i) /\
    Tunnelblick.in_time env (clock w1) 30 w1 n /\
    Tunnelblick.get_status env (Tunnelblick.poll_start env n w1) = (Ok status, w2) /\
    Tunnelblick.state status = Tunnelblick.CONNECTED.
Proof.
  unfold do_connect. intros H.
  apply bind_ok_inv in H as (manager & w_i & _ & H).
  apply bind_ok_inv in H as ([hostname|] & w_r & _ & H); [|discriminate].
  apply bind_ok_inv in H as (config_name & w0 & _ & H).
  unfold initiate in H.
  apply bind_ok_inv in H as (success & w2 & Htry & H).
  assert (success = Some true) as ->.
  { destruct success as [[|]|]; [reflexivity|discriminate..]. }
  clear H. unfold try_except in Htry.
  destruct (Tunnelblick.connect env fuel config_name true 30 w0) as [[r|e] w3] eqn:Hc.
  - injection Htry as -> ->. unfold Tunnelblick.connect in Hc.
    apply bind_ok_inv in Hc as (out & w1 & Hrun & Hc).
    simpl negb in Hc. cbv iota in Hc.
    apply bind_ok_inv in Hc as (start & w1' & Ht & Hc). injection Ht as <- <-.
    apply poll_true in Hc as (n & status & Hpend & Htime & Hget & Hstate).
    exists config_name, w0, out, w1, n, status, w2. auto.
  - destruct e; discriminate.
Qed.


End OrchestratorMore.

(* ===================================================================== *)
(** * Well-formed file systems stay well formed *)
(* ===================================================================== *)

Section WellFormed.
Import Effects ConfigManager.
Context (env : Env).

(** A run that returns leaves a well-formed file system well formed.  (A
    removal that an I/O error interrupts may leave anything below its
    directory.) *)
Abbreviation keeps_well_formed m :=
  (forall (w : World) a (w' : World),
      m w = (Ok a, w') -> well_formed (fs w) -> well_formed (fs w')).

Lemma stat_lookup (f : gmap path node) (p : path) (n : node) :
  stat f p = Some n -> n <> Dir -> f !! p = Some n.
Proof. destruct p; simpl; [congruence|auto]. Qed.

Lemma stat_none (f : gmap path node) (p : path) : stat f p = None -> f !! p = None.
Proof. destruct p; simpl; [discriminate|auto]. Qed.

Lemma do_fs_op_well_formed (op : fs_op) (f f' : gmap path node) :
  do_fs_op env op f = Ok f' -> well_formed f -> well_formed f'.
Proof.
  intros Hop Hwf.
  destruct op as [p|p|p|src dst|p c|p c|p m|p]; simpl in Hop.
  - now apply (makedirs_from_ok p [] f f' eq_refl Hop).
  - destruct (stat f p) as [[]|]; try discriminate. injection Hop as <-.
    now apply well_formed_removal.
  - destruct (stat f p); [discriminate|].
    destruct (is_dir f (parent p)) eqn:Hd; [|discriminate]. injection Hop as <-.
    now apply well_formed_insert.
  - destruct (stat f src) as [[c m|]|]; try discriminate. cbv zeta in Hop.
    destruct (is_dir f dst) eqn:Edst;
      match type of Hop with
      | (if is_dir f ?T then _ else _) = _ =>
          destruct (is_dir f T) eqn:Ht; [discriminate|];
          destruct (is_dir f (parent T)) eqn:Hd; [|discriminate];
          injection Hop as <-; apply well_formed_insert; [exact Hwf|exact Hd|];
          intros E; unfold is_dir in Ht; destruct T as [|x q]; [discriminate|];
          rewrite stat_cons in Ht; unfold path in *; rewrite E in Ht; discriminate
      end.
  - destruct (stat f p) as [[c0 m0|]|] eqn:Hs; [|discriminate|].
    + injection Hop as <-. apply stat_lookup in Hs; [|discriminate].
      apply well_formed_insert; [exact Hwf|now apply (Hwf p (File c0 m0))|].
      unfold path in *. congruence.
    + destruct (is_dir f (parent p)) eqn:Hd; [|discriminate]. injection Hop as <-.
      apply stat_none in Hs.
      apply well_formed_insert; [exact Hwf|exact Hd|]. unfold path in *. congruence.
  - destruct (stat f p) as [[c0 m0|]|] eqn:Hs; [|discriminate|].
    + injection Hop as <-. apply stat_lookup in Hs; [|discriminate].
      apply well_formed_insert; [exact Hwf|now apply (Hwf p (File c0 m0))|].
      unfold path in *. congruence.
    + destruct (is_dir f (parent p)) eqn:Hd; [|discriminate]. injection Hop as <-.
      apply stat_none in Hs.
      apply well_formed_insert; [exact Hwf|exact Hd|]. unfold path in *. congruence.
  - destruct (stat f p) as [[c0 m0|]|] eqn:Hs; [| |discriminate].
    + injection Hop as <-. apply stat_lookup in Hs; [|discriminate].
      apply well_formed_insert; [exact Hwf|now apply (Hwf p (File c0 m0))|].
      unfold path in *. congruence.
    + now injection Hop as <-.
  - destruct (stat f p) as [n|] eqn:Hs; [now injection Hop as <-|].
    destruct (is_dir f (parent p)) eqn:Hd; [|discriminate]. injection Hop as <-.
    apply stat_none in Hs.
    apply well_formed_insert; [exact Hwf|exact Hd|]. unfold path in *. congruence.
Qed.

Lemma keeps_ret {A} (a : A) : keeps_well_formed (ret a).
Proof. intros w a' w' [= _ <-]. auto. Qed.

Lemma keeps_bind {A B} (m : M A) (k : A -> M B) :
  keeps_well_formed m -> (forall a, keeps_well_formed (k a)) ->
  keeps_well_formed (bind m k).
Proof.
  intros Hm Hk w b w' H Hw.
  apply bind_ok_inv in H as (a & w1 & H1 & H2).
  exact (Hk a _ _ _ H2 (Hm _ _ _ H1 Hw)).
Qed.

Lemma keeps_interact e : keeps_well_formed (interact env e).
Proof.
  intros w k w' H. unfold interact in H. rewrite interact_for_run in H.
  now injection H as _ <-.
Qed.

Lemma keeps_lift {A} (r : result A) : keeps_well_formed (lift r).
Proof. intros w a w'. destruct r; [|discriminate]. now intros [= _ <-]. Qed.

Lemma keeps_file_op op : keeps_well_formed (file_op env op).
Proof.
  intros w u w' H Hw. apply file_op_ok in H as [Hop _].
  exact (do_fs_op_well_formed _ _ _ Hop Hw).
Qed.

Lemma init_keeps_well_formed config_dir : keeps_well_formed (init env config_dir).
Proof.
  apply keeps_bind; [apply keeps_file_op|]. intros _. apply keeps_ret.
Qed.

Lemma setup_server_keeps_well_formed self hostname username password :
  keeps_well_formed (setup_server env self hostname username password).
Proof.
  apply keeps_bind.
  { apply keeps_bind; [apply keeps_interact|]. intros k.
    apply keeps_bind; [apply keeps_lift|]. intros content.
    apply keeps_bind; [apply keeps_file_op|]. intros _. apply keeps_ret. }
  intros ovpn_path. apply keeps_bind.
  { unfold create_tblk_package. cbv zeta.
    apply keeps_bind; [now intros w present w' [= _ <-]|]. intros present.
    apply keeps_bind; [destruct present; [apply keeps_file_op|apply keeps_ret]|].
    intros _. repeat (apply keeps_bind; [apply keeps_file_op|intros _]).
    apply keeps_ret. }
  intros tblk_path. apply keeps_bind; [|intros installed; apply keeps_ret].
  intros w installed w' H. rewrite install_config_run in H. cbv zeta in H.
  destruct (open_outcome env _ _); [|discriminate]. now injection H as _ <-.
Qed.

Lemma well_formed_empty : well_formed (∅ : gmap path node).
Proof. intros p n H. discriminate H. Qed.

End WellFormed.

(* ===================================================================== *)
(** * Further properties, replayed on the recorded scenarios *)
(* ===================================================================== *)

Section ReplayMore.
Import Effects Scenario.

(** A run is its result and the world it leaves. *)
Lemma run_ok {A} (r : result A * World) (a : A) : r.1 = Ok a -> r = (Ok a, r.2).
Proof. destruct r as [x w]. simpl. now intros ->. Qed.

Lemma run_raise {A} (r : result A * World) (e : exn) :
  r.1 = Raise e -> r = (Raise e, r.2).
Proof. destruct r as [x w]. simpl. now intros ->. Qed.

(** The recorded worlds are well formed: they are made from the empty file
    system by the program. *)
Lemma staged_well_formed : well_formed (fs staged).
Proof.
  apply (init_keeps_well_formed s1_env None empty_world staging staged);
    [|apply well_formed_empty].
  apply run_ok. by_evaluation.
Qed.

Lemma built_once_well_formed : well_formed (fs built_once).
Proof.
  apply (setup_server_keeps_well_formed copy_fails_env staging "us5090" "user" "secret"
           (ConfigManager.init copy_fails_env None empty_world).2
           "us5090.nordvpn.com.udp" built_once).
  - apply run_ok. by_evaluation.
  - apply (init_keeps_well_formed copy_fails_env None empty_world staging
             (ConfigManager.init copy_fails_env None empty_world).2);
      [|apply well_formed_empty].
    apply run_ok. by_evaluation.
Qed.

(** ** The selector *)

Lemma find_optimal_server_picks_a_recommendation_s1 :
  exists params recommendations r,
    recommendations_endpoint s1_env 1 params = Ok recommendations /\
    r ∈ recommendations /\
    RecommendedServer.hostname r = "us5090.nordvpn.com".
Proof.
  destruct (find_optimal_server_picks_a_recommendation s1_env empty_world "us" None 30
              (Client.to_server us5090)
              (Client.find_optimal_server s1_env "us" None 30 empty_world).2)
    as (params & recommendations & r & H1 & H2 & H3 & _).
  - by_evaluation.
  - exists params, recommendations, r. split; [exact H1|]. split; [exact H2|].
    now rewrite <- H3.
Defined.

Lemma find_optimal_server_stays_in_city_s1 :
  exists s c,
    (Client.find_optimal_server s1_env "us" (Some "York") 30 empty_world).1
    = Ok (Some s) /\
    Server.city s = Some c /\
    Str.contains (str_lower s1_env (City.name c)) (str_lower s1_env "York") = true.
Proof.
  apply (find_optimal_server_stays_in_city s1_env empty_world "us" "York" 30
           [germany; united_states] united_states [us5090; us5091]).
  - reflexivity.
  - reflexivity.
  - reflexivity.
  - reflexivity.
  - exists us5090, (city 8971 "New York").
    split; [apply list_elem_of_here|]. split; reflexivity.
Defined.

Lemma get_country_by_code_ignores_case_s1 :
  str_upper s1_env (Country.code germany) = str_upper s1_env "de".
Proof.
  destruct (get_country_by_code_ignores_case s1_env "de" empty_world) as (_ & H).
  apply (H germany (Client.get_country_by_code s1_env "de" empty_world).2).
  by_evaluation.
Defined.

(** ** The bridge *)

Lemma get_status_reports_first_active_two :
  exists out configs i,
    List.map (str_strip two_configs_env) (Str.split ","%char out) !! i
    = Some "CONNECTING" /\
    configs !! i = Some "alpha" /\
    forall j s, (j < i)%nat ->
                List.map (str_strip two_configs_env) (Str.split ","%char out) !! j
                = Some s ->
                (j < length configs)%nat ->
                s <> "CONNECTED" /\ s <> "CONNECTING".
Proof.
  destruct (get_status_reports_first_active two_configs_env empty_world
              (Tunnelblick.status_of Tunnelblick.CONNECTING (Some "alpha"))
              (Tunnelblick.get_status two_configs_env empty_world).2)
    as [_ (out & w1 & configs & i & name & _ & _ & H1 & H2 & H3 & H4)].
  - by_evaluation.
  - injection H3 as <-. exists out, configs, i.
    split; [exact H1|]. split; [exact H2|exact H4].
Defined.

Lemma get_status_failures_stopped :
  (Tunnelblick.get_status stopped_env empty_world).1
  = Ok (Tunnelblick.status_of Tunnelblick.UNKNOWN None).
Proof.
  destruct (get_status_failures stopped_env empty_world) as (H & _ & _).
  rewrite (H "Tunnelblick is not running. Please start Tunnelblick first."
             (Tunnelblick._run_applescript stopped_env states_script empty_world).2).
  - reflexivity.
  - by_evaluation.
Defined.

Lemma connect_with_no_time_left_s1 :
  (Tunnelblick.connect s1_env 1 "us5090.nordvpn.com.udp" true 0 empty_world).1
  = Ok (Some false).
Proof.
  rewrite (connect_with_no_time_left s1_env 0 "us5090.nordvpn.com.udp" 0 empty_world "true"
             (Tunnelblick._run_applescript s1_env
                (Tunnelblick.connect_script "us5090.nordvpn.com.udp") empty_world).2).
  - reflexivity.
  - lia.
  - by_evaluation.
Defined.

(** ** The reconciler *)

Lemma extract_hostname_round_trip_us5090 :
  Status._extract_hostname_from_config s1_env "us5090.nordvpn.com.udp"
  = Some "us5090.nordvpn.com" /\
  Status._extract_hostname_from_config s1_env
    (ConfigManager._hostname_to_config_name "us5090.nordvpn.com")
  = Some "us5090.nordvpn.com".
Proof.
  destruct (extract_hostname_round_trip s1_env "u" "s" "5090" ".nordvpn.com" ".udp")
    as [H1 H2]; try reflexivity; [discriminate|].
  split; [exact H1|exact (H2 eq_refl)].
Defined.

Lemma connection_status_well_formed_s6 :
  exists name,
    name = "de123.nordvpn.com.udp" /\
    forall hostname, hostname = "de123.nordvpn.com" -> exists rest, name = hostname +:+ rest.
Proof.
  destruct (connection_status_well_formed s6_env empty_world) as [_ H].
  destruct (H {| Status.connected := true;
                 Status.config_name := Some "de123.nordvpn.com.udp";
                 Status.server_hostname := Some "de123.nordvpn.com";
                 Status.public_ip := None;
                 Status.country := Some "Germany";
                 Status.city := Some "Frankfurt";
                 Status.load := Some 14 |}
              (Status.get_connection_status s6_env empty_world).2)
    as (name & Hname & Hprefix).
  - by_evaluation.
  - reflexivity.
  - injection Hname as <-. exists "de123.nordvpn.com.udp". split; [reflexivity|].
    intros hostname ->. now apply Hprefix.
Defined.

(** ** The staging directory and the bundles *)

Lemma init_makes_the_staging_directory_s1 :
  is_dir (fs staged) ["Users"; "me"; "configs"] = true /\
  well_formed (fs staged).
Proof.
  destruct (init_makes_the_staging_directory s1_env None empty_world staging staged)
    as (_ & _ & Hdir & _ & _ & Hwf).
  - apply run_ok. by_evaluation.
  - split; [exact Hdir|]. apply Hwf, well_formed_empty.
Defined.

Lemma create_tblk_package_builds_again :
  let run := ConfigManager.create_tblk_package s1_env staging us5090_profile
               "user" "secret" built_once in
  fs run.2 !! us5090_bundle = Some Dir /\
  forall q : path, us5090_bundle `prefix_of` q -> is_Some (fs run.2 !! q) ->
                   q ∈ [us5090_bundle;
                        us5090_bundle ++ ["us5090.nordvpn.com.udp.ovpn"];
                        us5090_bundle ++ ["us5090.nordvpn.com.udp.pass"];
                        us5090_bundle ++ ["autoLogin"]].
Proof.
  intros run.
  destruct (create_tblk_package_builds s1_env staging us5090_profile "user" "secret"
              built_once us5090_bundle run.2)
    as (_ & _ & Hroot & _ & _ & Honly & _).
  - exact built_once_well_formed.
  - vm_compute. discriminate.
  - vm_compute. discriminate.
  - apply run_ok. by_evaluation.
  - split; [exact Hroot|exact Honly].
Defined.

Lemma setup_server_builds_named_bundle_s1 :
  let run := ConfigManager.setup_server s1_env staging "us5090" "user" "secret" staged in
  fs run.2 !! us5090_profile = Some (File "client" 420) /\
  fs run.2 !! (us5090_bundle ++ ["us5090.nordvpn.com.udp.ovpn"]) = Some (File "client" 420) /\
  well_formed (fs run.2).
Proof.
  intros run.
  destruct (setup_server_builds_named_bundle s1_env staging "us5090" "user" "secret"
              staged "us5090.nordvpn.com.udp" run.2)
    as (_ & _ & (content & mode & _ & Hprofile & Hcopy) & _ & _ & _ & _ & _ & Hwf).
  - reflexivity.
  - exact staged_well_formed.
  - apply run_ok. by_evaluation.
  - split; [by_evaluation|]. split; [by_evaluation|exact Hwf].
Defined.

Lemma setup_server_failure_installs_nothing_s :
  let run := ConfigManager.setup_server copy_fails_env staging "us5090" "user" "secret"
               built_once in
  exists later,
    trace run.2
    = trace built_once
        ++ EvGet (ConfigManager.OVPN_CONFIG_URL "us5090.nordvpn.com") [] :: later /\
    Forall (fun ev => is_file_op ev = true) later.
Proof.
  intros run.
  destruct (setup_server_failure_installs_nothing copy_fails_env staging "us5090"
              "user" "secret" built_once (OSError "I/O error") run.2) as [H _].
  - apply run_raise. by_evaluation.
  - exact H.
Defined.

Lemma setup_server_succeeds_again :
  exists w',
    ConfigManager.setup_server s1_env staging "us5090" "user" "secret" built_once
    = (Ok "us5090.nordvpn.com.udp", w').
Proof.
  apply (setup_server_succeeds s1_env staging "us5090" "user" "secret" built_once "client").
  - reflexivity.
  - reflexivity.
  - exact built_once_well_formed.
  - by_evaluation.
  - vm_compute. discriminate.
  - intros c m. vm_compute. discriminate.
  - reflexivity.
  - reflexivity.
  - intros k _. now exists 0.
Defined.

(** ** The connect command *)



Lemma do_connect_true_means_connected_s1 :
  exists n w1 status,
    (Tunnelblick.get_status s1_env (Tunnelblick.poll_start s1_env n w1)).1 = Ok status /\
    Tunnelblick.state status = Tunnelblick.CONNECTED.
Proof.
  destruct (do_connect_true_means_connected s1_env 31 (Some "us5090") None None
              credentials empty_world first_run)
    as (config_name & w0 & out & w1 & n & status & w2 & _ & _ & _ & Hget & Hstate).
  - apply (run_ok (Cli.do_connect s1_env 31 (Some "us5090") None None credentials
                            empty_world) (Some true)).
    by_evaluation.
  - exists n, w1, status. split; [now rewrite Hget|exact Hstate].
Defined.

End ReplayMore.
